(** * Pytorch-Tutorial: the notebooks' models, loops and checkpoints

    A shallow embedding of the code cells of the tutorial notebooks
    ("2. Modules and Custom Models", "3. Training and Evaluating a Model",
    "4. Saving and Loading Model State").

    The notebooks are clients of the torch library.  What the cells
    themselves decide (the order of calls, the shapes they pass around, the
    names they look up, the dictionaries they build) is modelled concretely.
    The floating-point arithmetic of the library is kept abstract: it enters
    through the interface [Kernels], and the results hold for all of its
    instances.  One instance, [Sample.kernels], is given to run the
    definitions on concrete tensors. *)

From Stdlib Require Import ZArith Lia.
From stdpp Require Import base option list strings gmap.

Local Open Scope Z_scope.

(** ** Python exceptions and results *)

Inductive exn : Type :=
| AssertionError
| NameError (name : string)
| AttributeError (name : string)
| KeyError (key : string)
| TypeError (msg : string)
| ValueError (msg : string)
| RuntimeError (msg : string)
| IndexError (msg : string)
| UnpicklingError (msg : string)
| FileNotFoundError (path : string).

Inductive result (A : Type) : Type :=
| Ok (a : A)
| Raise (e : exn).
Arguments Ok {A} a.
Arguments Raise {A} e.

#[global] Instance result_ret : MRet result := fun _ a => Ok a.
#[global] Instance result_bind : MBind result := fun _ _ f r =>
  match r with
  | Ok a => f a
  | Raise e => Raise e
  end.

(** A computation over a mutable state [S].  A Python exception does not
    roll anything back: the state reached when it is raised is kept. *)
Definition M (S A : Type) : Type := S -> result A * S.

#[global] Instance M_ret {S} : MRet (M S) := fun _ a s => (Ok a, s).
#[global] Instance M_bind {S} : MBind (M S) := fun _ _ f m s =>
  match m s with
  | (Ok a, s') => f a s'
  | (Raise e, s') => (Raise e, s')
  end.

Definition lift {S A} (r : result A) : M S A := fun s => (r, s).
Definition raise {S A} (e : exn) : M S A := fun s => (Raise e, s).

(** ** Tensors *)

Inductive device : Type := cpu | cuda.

#[global] Instance device_eq_dec : EqDecision device.
Proof. solve_decision. Defined.

(** An element of a float tensor, as its IEEE-754 binary32 bit pattern. *)
Definition float32 : Type := Z.

(** The bit pattern of [0.], the argument of [fill_]. *)
Definition zero : float32 := 0.
(** The bit pattern of [0.3], the drop probability of [SimpleNet]. *)
Definition p_0_3 : float32 := 0x3E99999A.

(** The elements of a tensor, by row-major offset.  Only the offsets below
    the number of elements of the tensor are meaningful.  Tensors are in the
    default, contiguous memory format, as [torch.randn], the transforms and
    the data loaders of the notebooks produce them. *)
Definition storage : Type := Z -> float32.

(** A float tensor: its [shape], its elements and the device holding it. *)
Record Tensor : Type := mkTensor {
  shape : list Z;
  data : storage;
  dev : device
}.

(** An integer tensor (class labels, predictions). *)
Record Labels : Type := mkLabels {
  lshape : list Z;
  ldata : Z -> Z;
  ldev : device
}.

Definition numel (size : list Z) : Z := foldr Z.mul 1 size.

(** [Tensor.to(device)] *)
Definition to (x : Tensor) (d : device) : Tensor :=
  {| shape := shape x; data := data x; dev := d |}.

Definition lto (x : Labels) (d : device) : Labels :=
  {| lshape := lshape x; ldata := ldata x; ldev := d |}.

(** [Tensor.fill_(v)] *)
Definition fill_ (x : Tensor) (v : float32) : Tensor :=
  {| shape := shape x; data := fun _ => v; dev := dev x |}.

(** The size [Tensor.view] computes for a requested [size] in which at most
    one entry is [-1]: that entry is inferred from the number of elements. *)
Definition infer_size (total : Z) (size : list Z) : result (list Z) :=
  let known := numel (filter (fun d => d ≠ -1) size) in
  match length (filter (fun d => d = -1) size) with
  | O => if decide (known = total) then Ok size
         else Raise (RuntimeError "shape is invalid for input size")
  | 1%nat => if decide (0 < known ∧ 0 ≤ total ∧ total mod known = 0)
         then Ok ((fun d => if decide (d = -1) then total / known else d) <$> size)
         else Raise (RuntimeError "shape is invalid for input size")
  | _ => Raise (RuntimeError "only one dimension can be inferred")
  end.

(** [Tensor.view], called with the requested size *)
Definition view (x : Tensor) (size : list Z) : result Tensor :=
  s ← infer_size (numel (shape x)) size;
  mret {| shape := s; data := data x; dev := dev x |}.

(** [Tensor.unsqueeze(0)]: a leading dimension of size one is added. *)
Definition unsqueeze (x : Tensor) : Tensor :=
  {| shape := 1 :: shape x; data := data x; dev := dev x |}.

(** [Tensor.squeeze(0)]: a leading dimension of size one is removed. *)
Definition squeeze (x : Tensor) : Tensor :=
  {| shape := match shape x with
              | 1 :: size => size
              | size => size
              end;
     data := data x; dev := dev x |}.

(** ** The numeric kernels of the library

    Everything the library computes on the elements of tensors.  The
    notebooks never look inside these computations. *)

Inductive nonlinearity : Type := relu_nl | leaky_relu_nl.

(** The per-parameter state of [optim.Adam]. *)
Record AdamState : Type := mkAdamState {
  step_count : Z;
  exp_avg : storage;
  exp_avg_sq : storage
}.

Class Kernels : Type := {
  (** the state of the library's global random generator *)
  Generator : Type;
  (** the default initialisation of a layer's weight and bias
      ([reset_parameters]), from their shapes *)
  reset_parameters_kernel :
    list Z -> list Z -> Generator -> storage * storage * Generator;
  (** [nn.init.kaiming_normal_]: fresh elements for a tensor of a shape *)
  kaiming_normal_kernel :
    nonlinearity -> list Z -> Generator -> storage * Generator;
  (** input, weight, bias, stride, padding *)
  conv2d_kernel : Tensor -> Tensor -> Tensor -> Z -> Z -> storage;
  relu_kernel : storage -> storage;
  (** input, kernel size, stride *)
  max_pool2d_kernel : Tensor -> Z -> Z -> storage;
  (** input, weight, bias *)
  linear_kernel : Tensor -> Tensor -> Tensor -> storage;
  (** drop probability, input; draws the mask from the generator *)
  dropout_kernel : float32 -> Tensor -> Generator -> storage * Generator;
  (** input, dim *)
  log_softmax_kernel : Tensor -> Z -> storage;
  cross_entropy_kernel : Tensor -> Labels -> float32;
  (** input, dim *)
  argmax_kernel : Tensor -> Z -> Z -> Z;
  (** number of positions where two label tensors agree *)
  eq_sum_kernel : Labels -> Labels -> Z;
  add_kernel : storage -> storage -> storage;
  (** the gradient autograd computes for the loss of a batch (input,
      target) under the given named parameters, with respect to the
      parameter of the given name *)
  grad_kernel : list (string * Tensor) -> Tensor -> Labels -> string -> storage;
  (** learning rate, state so far, parameter, gradient *)
  adam_kernel :
    float32 -> option AdamState -> storage -> storage -> storage * AdamState
}.

(** ** torch.nn.functional

    The functions of the library the models call.  Each one checks its
    input the way the library does (number of dimensions, channels or
    features against the weight, device, window against the input size) and
    raises [RuntimeError] otherwise; the shape of the result follows the
    formula of the library's documentation.  The elements of the result are
    left to the kernels.  A weight and its bias are those of a layer: that
    the two fit each other is the layer's business and is not checked
    again.  Sizes are never negative in the library; a batch may be
    empty. *)

Module F.
Section functional.
Context `{Kernels}.

(** The output size of a convolution or pooling window along one
    dimension (dilation 1, rounding down). *)
Definition conv_out (size kernel stride padding : Z) : Z :=
  (size + 2 * padding - kernel) / stride + 1.

(** The convolution of a batch: [input] is [N, C, H, W], [weight] is
    [O, C, kH, kW]. *)
Definition convolution (input weight bias : Tensor) (stride padding : Z) : result Tensor :=
  match shape input, shape weight with
  | [n; c; h; w], [o; i; kh; kw] =>
      if decide (c = i ∧ dev input = dev weight ∧ 0 < stride ∧ 0 ≤ padding ∧
                 kh ≤ h + 2 * padding ∧ kw ≤ w + 2 * padding)
      then Ok {| shape := [n; o; conv_out h kh stride padding;
                                 conv_out w kw stride padding];
                 data := conv2d_kernel input weight bias stride padding;
                 dev := dev input |}
      else Raise (RuntimeError "conv2d: input does not fit the weight")
  | _, _ => Raise (RuntimeError "conv2d: expected 4-dimensional input and weight")
  end.

(** [F.conv2d]: [input] is a batch [N, C, H, W], or one image [C, H, W]
    without a batch dimension.  One image is convolved as a batch of one,
    and the batch dimension is removed from the result. *)
Definition conv2d (input weight bias : Tensor) (stride padding : Z) : result Tensor :=
  match shape input with
  | [_; _; _; _] => convolution input weight bias stride padding
  | [_; _; _] =>
      output ← convolution (unsqueeze input) weight bias stride padding;
      mret (squeeze output)
  | _ => Raise (RuntimeError "conv2d: expected 3D (unbatched) or 4D (batched) input")
  end.

Definition relu (input : Tensor) : Tensor :=
  {| shape := shape input; data := relu_kernel (data input); dev := dev input |}.

(** Pooling the planes [C, H, W] of an input whose dimensions before
    them are [batch]: there is at least one plane, and the window fits. *)
Definition pool (input : Tensor) (batch : list Z) (c h w kernel_size stride : Z)
  : result Tensor :=
  if decide (0 < kernel_size ∧ 0 < stride ∧ c ≠ 0 ∧ kernel_size ≤ h ∧ kernel_size ≤ w)
  then Ok {| shape := batch ++ [c; conv_out h kernel_size stride 0;
                                   conv_out w kernel_size stride 0];
             data := max_pool2d_kernel input kernel_size stride;
             dev := dev input |}
  else Raise (RuntimeError "max_pool2d: output size is too small").

(** [F.max_pool2d(input, kernel_size, stride)], without padding: [input]
    is a batch [N, C, H, W], or one image [C, H, W]. *)
Definition max_pool2d (input : Tensor) (kernel_size stride : Z) : result Tensor :=
  match shape input with
  | [n; c; h; w] => pool input [n] c h w kernel_size stride
  | [c; h; w] => pool input [] c h w kernel_size stride
  | _ => Raise (RuntimeError "max_pool2d: expected 3D or 4D input")
  end.

(** [F.linear]: the last dimension of [input] is replaced by the number
    of output features; [weight] is [out_features, in_features]. *)
Definition linear (input weight bias : Tensor) : result Tensor :=
  match reverse (shape input), shape weight with
  | k :: batch, [out_features; in_features] =>
      if decide (k = in_features ∧ dev input = dev weight)
      then Ok {| shape := reverse (out_features :: batch);
                 data := linear_kernel input weight bias;
                 dev := dev input |}
      else Raise (RuntimeError "linear: size mismatch")
  | _, _ => Raise (RuntimeError "linear: size mismatch")
  end.

(** [F.dropout(input, p, training)]: the mask is drawn only in training
    mode; otherwise the input is returned as it is. *)
Definition dropout (input : Tensor) (p : float32) (training : bool) : M Generator Tensor :=
  if training
  then fun g =>
    let '(d, g') := dropout_kernel p input g in
    (Ok {| shape := shape input; data := d; dev := dev input |}, g')
  else mret input.

(** [F.log_softmax(input, dim)] *)
Definition log_softmax (input : Tensor) (dim : Z) : result Tensor :=
  if decide (0 ≤ dim < Z.of_nat (length (shape input)))
  then Ok {| shape := shape input; data := log_softmax_kernel input dim;
             dev := dev input |}
  else Raise (RuntimeError "log_softmax: dimension out of range").
End functional.
End F.

(** ** torch.nn: the layers the notebooks instantiate *)

Module nn.

(** [type(m)] of a layer. *)
Inductive type : Type := Conv2d_t | Linear_t | MaxPool2d_t | Dropout_t.

#[global] Instance type_eq_dec : EqDecision type.
Proof. solve_decision. Defined.

Inductive Layer : Type :=
| Conv2d (in_channels out_channels kernel_size stride padding : Z)
         (weight bias : Tensor)
| Linear (in_features out_features : Z) (weight bias : Tensor)
| MaxPool2d (kernel_size stride : Z)
| Dropout (p : float32).

Definition type_of (m : Layer) : type :=
  match m with
  | Conv2d _ _ _ _ _ _ _ => Conv2d_t
  | Linear _ _ _ _ => Linear_t
  | MaxPool2d _ _ => MaxPool2d_t
  | Dropout _ => Dropout_t
  end.

(** [m.weight] and [m.bias]: pooling and dropout layers have neither. *)
Definition weight (m : Layer) : result Tensor :=
  match m with
  | Conv2d _ _ _ _ _ w _ | Linear _ _ w _ => Ok w
  | _ => Raise (AttributeError "weight")
  end.

Definition bias (m : Layer) : result Tensor :=
  match m with
  | Conv2d _ _ _ _ _ _ b | Linear _ _ _ b => Ok b
  | _ => Raise (AttributeError "bias")
  end.

(** In-place updates of a layer's tensors, as functional updates. *)
Definition set_weight (m : Layer) (w : Tensor) : Layer :=
  match m with
  | Conv2d i o k s p _ b => Conv2d i o k s p w b
  | Linear i o _ b => Linear i o w b
  | _ => m
  end.

Definition set_bias (m : Layer) (b : Tensor) : Layer :=
  match m with
  | Conv2d i o k s p w _ => Conv2d i o k s p w b
  | Linear i o w _ => Linear i o w b
  | _ => m
  end.

(** A network class of the notebooks: its registered submodules in
    registration order, and the mode flag.  [train()] and [eval()] set the
    flag of a module and of all its submodules together, so one flag is
    kept for the network and read by its layers. *)
Record Net : Type := mkNet {
  _modules : list (string * Layer);
  training : bool
}.

(** [self.name] for a registered submodule. *)
Fixpoint lookup_module (ms : list (string * Layer)) (name : string) : result Layer :=
  match ms with
  | [] => Raise (AttributeError name)
  | (n, m) :: ms' => if decide (n = name) then Ok m else lookup_module ms' name
  end.

Definition getattr (self : Net) (name : string) : result Layer :=
  lookup_module (_modules self) name.

(** [model.train()] and [model.eval()] *)
Definition train (self : Net) : Net :=
  {| _modules := _modules self; training := true |}.
Definition eval (self : Net) : Net :=
  {| _modules := _modules self; training := false |}.

Definition layer_to (d : device) (m : Layer) : Layer :=
  match m with
  | Conv2d i o k s p w b => Conv2d i o k s p (to w d) (to b d)
  | Linear i o w b => Linear i o (to w d) (to b d)
  | _ => m
  end.

(** [model.to(device)] *)
Definition net_to (self : Net) (d : device) : Net :=
  {| _modules := prod_map id (layer_to d) <$> _modules self;
     training := training self |}.

(** The parameters of a network under their dotted names, in the order of
    [named_parameters()]. *)
Definition layer_parameters (name : string) (m : Layer) : list (string * Tensor) :=
  match m with
  | Conv2d _ _ _ _ _ w b | Linear _ _ w b =>
      [(name +:+ ".weight", w); (name +:+ ".bias", b)]
  | _ => []
  end.

Definition named_parameters (self : Net) : list (string * Tensor) :=
  '(name, m) ← _modules self; layer_parameters name m.

Section nn.
Context `{Kernels}.

(** [torch.empty(size)], the tensor of a new parameter: no size is
    negative.  Its elements are those the initialisation then writes. *)
Definition new_tensor (size : list Z) (elements : storage) : result Tensor :=
  if decide (Forall (fun d => 0 ≤ d) size) then Ok (mkTensor size elements cpu)
  else Raise (RuntimeError "Trying to create tensor with negative dimension").

(** [nn.Conv2d(in_channels, out_channels, kernel_size, stride, padding)]:
    the tensors are created on the CPU with the default initialisation.
    The random generator is used once both tensors exist. *)
Definition Conv2d_new (in_channels out_channels kernel_size stride padding : Z)
  : M Generator Layer := fun g =>
  let wshape := [out_channels; in_channels; kernel_size; kernel_size] in
  let '(w, b, g') := reset_parameters_kernel wshape [out_channels] g in
  match new_tensor wshape w, new_tensor [out_channels] b with
  | Ok weight, Ok bias =>
      (Ok (Conv2d in_channels out_channels kernel_size stride padding weight bias), g')
  | Raise e, _ | _, Raise e => (Raise e, g)
  end.

(** [nn.Linear(in_features, out_features)] *)
Definition Linear_new (in_features out_features : Z) : M Generator Layer := fun g =>
  let wshape := [out_features; in_features] in
  let '(w, b, g') := reset_parameters_kernel wshape [out_features] g in
  match new_tensor wshape w, new_tensor [out_features] b with
  | Ok weight, Ok bias => (Ok (Linear in_features out_features weight bias), g')
  | Raise e, _ | _, Raise e => (Raise e, g)
  end.

(** [nn.init.kaiming_normal_(tensor, nonlinearity=...)]: overwrites the
    elements, keeps shape and device. *)
Definition kaiming_normal_ (tensor : Tensor) (nl : nonlinearity) : M Generator Tensor :=
  fun g =>
  let '(d, g') := kaiming_normal_kernel nl (shape tensor) g in
  (Ok {| shape := shape tensor; data := d; dev := dev tensor |}, g').

(** Calling a layer on an input: [m(x)]. *)
Definition call (m : Layer) (training : bool) (x : Tensor) : M Generator Tensor :=
  match m with
  | Conv2d _ _ _ stride padding w b => lift (F.conv2d x w b stride padding)
  | Linear _ _ w b => lift (F.linear x w b)
  | MaxPool2d kernel_size stride => lift (F.max_pool2d x kernel_size stride)
  | Dropout p => F.dropout x p training
  end.

(** [for m in self.modules(): body(m)], where the body updates [m] in
    place.  [modules()] yields the network itself first and then each
    registered submodule; the bodies in the notebooks act on layers of
    type [nn.Conv2d] or [nn.Linear] only, which the network itself is not. *)
Fixpoint for_modules (body : Layer -> M Generator Layer)
    (ms : list (string * Layer)) : M Generator (list (string * Layer)) :=
  match ms with
  | [] => mret []
  | (name, m) :: ms' =>
      m' ← body m;
      rest ← for_modules body ms';
      mret ((name, m') :: rest)
  end.
End nn.
End nn.

(** ** Notebook 2: [SimpleNet] *)

Module SimpleNet.
Section SimpleNet.
Context `{Kernels}.

Definition __init__ (num_classes : Z) : M Generator nn.Net :=
  conv1 ← nn.Conv2d_new 3 64 11 4 2;
  let pool1 := nn.MaxPool2d 3 2 in
  let dropout1 := nn.Dropout p_0_3 in
  fc1 ← nn.Linear_new (64*2*2) num_classes;
  ms ← nn.for_modules (fun m =>
          if decide (nn.type_of m ∈ [nn.Conv2d_t; nn.Linear_t]) then
            w ← lift (nn.weight m);
            w ← nn.kaiming_normal_ w relu_nl;
            b ← lift (nn.bias m);
            mret (nn.set_bias (nn.set_weight m w) (fill_ b zero))
          else mret m)
        [("conv1", conv1); ("pool1", pool1); ("dropout1", dropout1); ("fc1", fc1)];
  mret {| nn._modules := ms; nn.training := true |}.

Definition forward (self : nn.Net) (x : Tensor) : M Generator Tensor :=
  conv1 ← lift (nn.getattr self "conv1");
  x ← nn.call conv1 (nn.training self) x;
  let x := F.relu x in
  pool1 ← lift (nn.getattr self "pool1");
  x ← nn.call pool1 (nn.training self) x;
  x ← lift (view x [-1; 64*2*2]);
  dropout1 ← lift (nn.getattr self "dropout1");
  x ← nn.call dropout1 (nn.training self) x;
  fc1 ← lift (nn.getattr self "fc1");
  x ← nn.call fc1 (nn.training self) x;
  mret x.
End SimpleNet.
End SimpleNet.

(** ** Notebook 3: [LeNet] *)

Module LeNet.
Section LeNet.
Context `{Kernels}.

Definition __init__ : M Generator nn.Net :=
  conv1 ← nn.Conv2d_new 1 20 5 1 0;
  conv2 ← nn.Conv2d_new 20 50 5 1 0;
  fc1 ← nn.Linear_new (4*4*50) 500;
  fc2 ← nn.Linear_new 500 10;
  ms ← nn.for_modules (fun m =>
          if decide (nn.type_of m ∈ [nn.Linear_t; nn.Conv2d_t]) then
            w ← lift (nn.weight m);
            w ← nn.kaiming_normal_ w leaky_relu_nl;
            b ← lift (nn.bias m);
            mret (nn.set_bias (nn.set_weight m w) (fill_ b zero))
          else mret m)
        [("conv1", conv1); ("conv2", conv2); ("fc1", fc1); ("fc2", fc2)];
  mret {| nn._modules := ms; nn.training := true |}.

Definition forward (self : nn.Net) (x : Tensor) : M Generator Tensor :=
  conv1 ← lift (nn.getattr self "conv1");
  x ← nn.call conv1 (nn.training self) x;
  let x := F.relu x in
  x ← lift (F.max_pool2d x 2 2);
  conv2 ← lift (nn.getattr self "conv2");
  x ← nn.call conv2 (nn.training self) x;
  let x := F.relu x in
  x ← lift (F.max_pool2d x 2 2);
  x ← lift (view x [-1; 4*4*50]);
  fc1 ← lift (nn.getattr self "fc1");
  x ← nn.call fc1 (nn.training self) x;
  let x := F.relu x in
  fc2 ← lift (nn.getattr self "fc2");
  x ← nn.call fc2 (nn.training self) x;
  lift (F.log_softmax x 1).
End LeNet.
End LeNet.

(** ** Scripts: the code cells as programs over library calls

    A cell is a tree of calls into the library: each node is one call, and
    the rest of the cell continues from the value the call returns.  What a
    call does is given separately, by a handler; a call that raises ends the
    cell. *)

Inductive prog (E : Type -> Type) (R : Type) : Type :=
| Ret (r : R)
| Vis {X : Type} (e : E X) (k : X -> prog E R).
Arguments Ret {E R} r.
Arguments Vis {E R X} e k.

Definition trigger {E : Type -> Type} {X} (e : E X) : prog E X := Vis e Ret.

Fixpoint prog_bind {E : Type -> Type} {A B} (f : A -> prog E B) (p : prog E A) : prog E B :=
  match p with
  | Ret a => f a
  | Vis e k => Vis e (fun x => prog_bind f (k x))
  end.

#[global] Instance prog_ret {E} : MRet (prog E) := fun _ a => Ret a.
#[global] Instance prog_mbind {E} : MBind (prog E) := fun _ _ f p => prog_bind f p.

(** [for x in xs: body(x)] *)
Fixpoint for_each {E : Type -> Type} {A} (xs : list A) (body : A -> prog E unit) : prog E unit :=
  match xs with
  | [] => Ret tt
  | x :: xs' => body x ≫= fun _ => for_each xs' body
  end.

(** [for x in xs: acc = body(acc, x)] *)
Fixpoint for_fold {E : Type -> Type} {A B} (xs : list A) (acc : B)
    (body : B -> A -> prog E B) : prog E B :=
  match xs with
  | [] => Ret acc
  | x :: xs' => body acc x ≫= fun acc' => for_fold xs' acc' body
  end.

(** [enumerate(xs)] *)
Definition enumerate {A} (xs : list A) : list (Z * A) :=
  zip (seqZ 0 (Z.of_nat (length xs))) xs.

Section run.
Context {E : Type -> Type} {W : Type}.
Variable handle : forall X, E X -> M W X.

(** Running a cell from a state of the world. *)
Fixpoint run {R} (p : prog E R) : M W R :=
  match p with
  | Ret r => mret r
  | Vis e k => handle _ e ≫= fun x => run (k x)
  end.

(** The calls a run performs, in order, each seen through [name];
    a call that raises is the last one. *)
Fixpoint calls {N R} (name : forall X, E X -> N) (p : prog E R) (w : W) : list N :=
  match p with
  | Ret _ => []
  | Vis e k =>
      name _ e ::
      match handle _ e w with
      | (Ok x, w') => calls name (k x) w'
      | (Raise _, _) => []
      end
  end.
End run.

(** A cell that never makes a call of a given kind. *)
Fixpoint never {E : Type -> Type} {R} (bad : forall X, E X -> Prop) (p : prog E R) : Prop :=
  match p with
  | Ret _ => True
  | Vis e k => ¬ bad _ e /\ forall x, never bad (k x)
  end.

(** ** Notebook 3: training and evaluating *)

Module Notebook3.

(** What a batch is: [(input_data, target_data)]. *)
Definition Batch : Type := Tensor * Labels.

(** The value of [F.cross_entropy]: the scalar, and the target it was
    computed against (the prediction's graph is with the world). *)
Record Loss : Type := mkLoss {
  item : float32;
  loss_target : Labels
}.

(** The lines the cells print. *)
Inductive line : Type :=
| train_log (epoch epochs : Z) (loss : float32) (batch total : Z)
| empty_line
| test_accuracy (correct total : Z).

(** The library calls of the training and evaluation cells. *)
Inductive torchE : Type -> Type :=
| Tensor_to (x : Tensor) (d : device) : torchE Tensor
| Labels_to (x : Labels) (d : device) : torchE Labels
| model_call (x : Tensor) : torchE Tensor
| cross_entropy (output : Tensor) (target : Labels) : torchE Loss
| optimizer_zero_grad : torchE unit
| loss_backward (loss : Loss) : torchE unit
| optimizer_step : torchE unit
| print (l : line) : torchE unit
| stdout_flush : torchE unit
| no_grad_enter : torchE bool
| no_grad_exit (prev : bool) : torchE unit
| tqdm_enter (total : Z) : torchE unit
| tqdm_exit : torchE unit
| pbar_update (n : Z) : torchE unit
| argmax (output : Tensor) (dim : Z) : torchE Labels
| eq_view_as_sum (pred target : Labels) : torchE Z.

(** The calls that write gradients, optimizer state or parameters. *)
Definition trains {X} (e : torchE X) : Prop :=
  match e with
  | optimizer_zero_grad | loss_backward _ | optimizer_step => True
  | _ => False
  end.

(** The six per-batch steps, and everything else. *)
Inductive step : Type :=
| move_to_device | forward | compute_loss | clear_gradients
| propagate_backward | update_parameters | other.

Definition step_of {X} (e : torchE X) : step :=
  match e with
  | Tensor_to _ _ | Labels_to _ _ => move_to_device
  | model_call _ => forward
  | cross_entropy _ _ => compute_loss
  | optimizer_zero_grad => clear_gradients
  | loss_backward _ => propagate_backward
  | optimizer_step => update_parameters
  | _ => other
  end.

#[global] Instance step_eq_dec : EqDecision step.
Proof. solve_decision. Defined.

(** The steps of one batch, in the order of the optimizer loop: the input
    and the target are moved, then the five calls follow. *)
Definition per_batch_steps : list step :=
  [move_to_device; move_to_device; forward; compute_loss; clear_gradients;
   propagate_backward; update_parameters].

(** The per-batch steps a run of a cell performs, in order. *)
Definition steps {W R} (h : forall X, torchE X -> M W X) (p : prog torchE R) (w : W)
  : list step :=
  filter (fun s => s ≠ other) (calls h (@step_of) p w).

(** [epochs = 1], [print_every = 1] *)
Definition epochs : Z := 1.
Definition print_every : Z := 1.

(** The bit pattern of [0.001], the learning rate given to [optim.Adam]. *)
Definition lr_0_001 : float32 := 0x3A83126F.

Section cells.
(** [device = torch.device('cuda' if torch.cuda.is_available() else 'cpu')] *)
Variable device : device.

(** The body of the inner training loop, for batch [batch_ind] of
    [total] in [epoch]. *)
Definition train_batch (epoch total batch_ind : Z) (batch : Batch) : prog torchE unit :=
  let '(input_data, target_data) := batch in
  (* Move data to device *)
  input_data ← trigger (Tensor_to input_data device);
  target_data ← trigger (Labels_to target_data device);
  (* Forward propagation *)
  output ← trigger (model_call input_data);
  (* Calculate loss function *)
  loss ← trigger (cross_entropy output target_data);
  (* Backward propagation *)
  _ ← trigger optimizer_zero_grad;
  _ ← trigger (loss_backward loss);
  (* Update parameters *)
  _ ← trigger optimizer_step;
  (* Print progress *)
  if decide (batch_ind mod print_every = 0) then
    _ ← trigger (print (train_log (epoch + 1) epochs (item loss) (batch_ind + 1) total));
    trigger stdout_flush
  else Ret tt.

(** The training cell.  [train_data_loader epoch] is the list of
    batches the loader yields when it is iterated in that epoch. *)
Definition training_cell (train_data_loader : Z -> list Batch) : prog torchE unit :=
  for_each (seqZ 0 epochs) (fun epoch =>
    let batches := train_data_loader epoch in
    _ ← for_each (enumerate batches) (fun '(batch_ind, batch) =>
           train_batch epoch (Z.of_nat (length batches)) batch_ind batch);
    trigger (print empty_line)).

(** The body of the evaluation loop: returns the updated [correct]. *)
Definition test_batch (correct : Z) (batch : Batch) : prog torchE Z :=
  let '(input_data, target_data) := batch in
  (* Move data to device *)
  input_data ← trigger (Tensor_to input_data device);
  target_data ← trigger (Labels_to target_data device);
  (* Inference *)
  output ← trigger (model_call input_data);
  pred ← trigger (argmax output 1);
  (* Count number of correct predictions *)
  n ← trigger (eq_view_as_sum pred target_data);
  let correct := correct + n in
  (* Progress bar update *)
  _ ← trigger (pbar_update 1);
  Ret correct.

(** The evaluation cell, over the batches of [test_data_loader];
    [len_MNIST_test] is [len(MNIST_test)].  Entering [torch.no_grad()]
    returns the gradient mode it will restore.  When a call inside the
    [with] blocks raises, the cell ends there: the exits the context
    managers would still run (restoring the gradient mode, closing the
    progress bar) are left out. *)
Definition evaluation_cell (test_data_loader : list Batch) (len_MNIST_test : Z)
  : prog torchE Z :=
  let correct := 0 in
  prev ← trigger no_grad_enter;
  _ ← trigger (tqdm_enter (Z.of_nat (length test_data_loader)));
  correct ← for_fold test_data_loader correct test_batch;
  _ ← trigger tqdm_exit;
  _ ← trigger (no_grad_exit prev);
  _ ← trigger (print (test_accuracy correct len_MNIST_test));
  Ret correct.
End cells.

(** *** What the calls do *)

(** [optim.Adam]: its learning rate and its per-parameter state, by
    parameter name. *)
Record Adam : Type := mkAdam {
  lr : float32;
  state : gmap string AdamState
}.

(** The world the cells of the notebook run in. *)
Record World `{Kernels} : Type := mkWorld {
  model : nn.Net;
  (** [p.grad] for the parameters that have one, by parameter name *)
  grad : gmap string Tensor;
  optimizer : Adam;
  generator : Generator;
  (** whether autograd records, and what the last forward pass recorded:
      the named parameters and the input *)
  grad_enabled : bool;
  graph : option (list (string * Tensor) * Tensor);
  stdout : list line;
  pbar : option (Z * Z)
}.

Section handler.
Context `{Kernels}.

Definition set_model (w : World) (m : nn.Net) : World :=
  {| model := m; grad := grad w; optimizer := optimizer w;
     generator := generator w; grad_enabled := grad_enabled w;
     graph := graph w; stdout := stdout w; pbar := pbar w |}.

Definition set_grad (w : World) (gr : gmap string Tensor) : World :=
  {| model := model w; grad := gr; optimizer := optimizer w;
     generator := generator w; grad_enabled := grad_enabled w;
     graph := graph w; stdout := stdout w; pbar := pbar w |}.

Definition set_optimizer (w : World) (o : Adam) : World :=
  {| model := model w; grad := grad w; optimizer := o;
     generator := generator w; grad_enabled := grad_enabled w;
     graph := graph w; stdout := stdout w; pbar := pbar w |}.

Definition set_inference (w : World) (g : Generator)
    (gr : option (list (string * Tensor) * Tensor)) : World :=
  {| model := model w; grad := grad w; optimizer := optimizer w;
     generator := g; grad_enabled := grad_enabled w;
     graph := gr; stdout := stdout w; pbar := pbar w |}.

Definition set_grad_enabled (w : World) (b : bool) : World :=
  {| model := model w; grad := grad w; optimizer := optimizer w;
     generator := generator w; grad_enabled := b;
     graph := graph w; stdout := stdout w; pbar := pbar w |}.

Definition set_stdout (w : World) (out : list line) : World :=
  {| model := model w; grad := grad w; optimizer := optimizer w;
     generator := generator w; grad_enabled := grad_enabled w;
     graph := graph w; stdout := out; pbar := pbar w |}.

Definition set_pbar (w : World) (p : option (Z * Z)) : World :=
  {| model := model w; grad := grad w; optimizer := optimizer w;
     generator := generator w; grad_enabled := grad_enabled w;
     graph := graph w; stdout := stdout w; pbar := p |}.

(** [model(x)]: [LeNet.forward]; the graph is recorded unless
    [torch.no_grad()] is in force. *)
Definition do_model_call (x : Tensor) : M World Tensor := fun w =>
  let '(r, g) := LeNet.forward (model w) x (generator w) in
  (r, set_inference w g
        (if grad_enabled w then Some (nn.named_parameters (model w), x)
         else None)).

(** [F.cross_entropy(output, target)]: the batch sizes are compared
    first, then the devices. *)
Definition do_cross_entropy (output : Tensor) (target : Labels) : M World Loss :=
  match shape output, lshape target with
  | [n; _], [n'] =>
      if decide (n ≠ n')
      then raise (ValueError "Expected input batch_size to match target batch_size")
      else if decide (dev output ≠ ldev target)
      then raise (RuntimeError "Expected all tensors to be on the same device")
      else mret {| item := cross_entropy_kernel output target;
                   loss_target := target |}
  | _, _ => raise (RuntimeError "cross_entropy: expected [N, C] and [N]")
  end.

(** [optimizer.zero_grad()]: the gradients that exist are zeroed. *)
Definition do_zero_grad : M World unit := fun w =>
  (Ok tt, set_grad w ((fun t => fill_ t zero) <$> grad w)).

(** The gradient [backward] leaves in [p.grad]: added to the one
    already there. *)
Definition accumulate (old : option Tensor) (p : Tensor) (g : storage) : Tensor :=
  {| shape := shape p;
     data := match old with
             | Some t => add_kernel (data t) g
             | None => g
             end;
     dev := dev p |}.

(** [loss.backward()]: every parameter of the recorded graph gets its
    gradient, and the graph is freed. *)
Definition do_backward (loss : Loss) : M World unit := fun w =>
  match graph w with
  | Some (params, input) =>
      (Ok tt,
       set_inference
         (set_grad w
            (foldr (fun '(name, p) gr =>
                      <[name := accumulate (grad w !! name) p
                                  (grad_kernel params input (loss_target loss) name)]> gr)
                   (grad w) params))
         (generator w) None)
  | None => (Raise (RuntimeError "tensor does not require grad"), w)
  end.

(** One Adam update of a parameter that has a gradient. *)
Definition adam_update (o : Adam) (gr : gmap string Tensor)
    (name : string) (p : Tensor) : Tensor :=
  match gr !! name with
  | Some g =>
      {| shape := shape p;
         data := (adam_kernel (lr o) (state o !! name) (data p) (data g)).1;
         dev := dev p |}
  | None => p
  end.

Definition adam_state (o : Adam) (gr : gmap string Tensor)
    (params : list (string * Tensor)) : gmap string AdamState :=
  foldr (fun '(name, p) st =>
           match gr !! name with
           | Some g =>
               <[name := (adam_kernel (lr o) (state o !! name) (data p) (data g)).2]> st
           | None => st
           end)
        (state o) params.

Definition update_layer (o : Adam) (gr : gmap string Tensor)
    (name : string) (m : nn.Layer) : nn.Layer :=
  match m with
  | nn.Conv2d i oc k s p w b =>
      nn.Conv2d i oc k s p (adam_update o gr (name +:+ ".weight") w)
                           (adam_update o gr (name +:+ ".bias") b)
  | nn.Linear i oc w b =>
      nn.Linear i oc (adam_update o gr (name +:+ ".weight") w)
                     (adam_update o gr (name +:+ ".bias") b)
  | _ => m
  end.

(** [optimizer.step()] *)
Definition do_step : M World unit := fun w =>
  let o := optimizer w in
  let m := model w in
  (Ok tt,
   set_optimizer
     (set_model w
        {| nn._modules :=
             (fun '(name, l) => (name, update_layer o (grad w) name l))
               <$> nn._modules m;
           nn.training := nn.training m |})
     {| lr := lr o; state := adam_state o (grad w) (nn.named_parameters m) |}).

(** [output.argmax(dim)]: the dimension [dim] is reduced away. *)
Definition do_argmax (output : Tensor) (dim : Z) : M World Labels :=
  if decide (0 ≤ dim < Z.of_nat (length (shape output)))
  then mret {| lshape := delete (Z.to_nat dim) (shape output);
               ldata := argmax_kernel output dim;
               ldev := dev output |}
  else raise (RuntimeError "argmax: dimension out of range").

(** [pred.eq(target_data.view_as(pred)).sum()] *)
Definition do_eq_view_as_sum (pred target : Labels) : M World Z :=
  if decide (numel (lshape target) = numel (lshape pred) ∧ ldev pred = ldev target)
  then mret (eq_sum_kernel pred
               {| lshape := lshape pred; ldata := ldata target; ldev := ldev target |})
  else raise (RuntimeError "view_as: shape is invalid for input size").

Definition handle (X : Type) (e : torchE X) : M World X :=
  match e in torchE X return M World X with
  | Tensor_to x d => mret (to x d)
  | Labels_to x d => mret (lto x d)
  | model_call x => do_model_call x
  | cross_entropy output target => do_cross_entropy output target
  | optimizer_zero_grad => do_zero_grad
  | loss_backward loss => do_backward loss
  | optimizer_step => do_step
  | print l => fun w => (Ok tt, set_stdout w (stdout w ++ [l]))
  | stdout_flush => mret tt
  | no_grad_enter => fun w => (Ok (grad_enabled w), set_grad_enabled w false)
  | no_grad_exit prev => fun w => (Ok tt, set_grad_enabled w prev)
  | tqdm_enter total => fun w => (Ok tt, set_pbar w (Some (0, total)))
  | tqdm_exit => fun w => (Ok tt, set_pbar w None)
  | pbar_update n => fun w =>
      (Ok tt, set_pbar w ((fun '(done, total) => (done + n, total)) <$> pbar w))
  | argmax output dim => do_argmax output dim
  | eq_view_as_sum pred target => do_eq_view_as_sum pred target
  end.

(** The setup cells: [model = LeNet().to(device)],
    [optimizer = optim.Adam(model.parameters(), lr=0.001)],
    [model = model.train()]. *)
Definition setup_cells (device : device) (g : Generator) : result World :=
  match LeNet.__init__ g with
  | (Ok net, g') =>
      Ok {| model := nn.train (nn.net_to net device);
            grad := ∅;
            optimizer := {| lr := lr_0_001; state := ∅ |};
            generator := g';
            grad_enabled := true;
            graph := None;
            stdout := [];
            pbar := None |}
  | (Raise e, _) => Raise e
  end.

(** [model = model.eval()] *)
Definition eval_cell : M World unit := fun w =>
  (Ok tt, set_model w (nn.eval (model w))).
End handler.
End Notebook3.

(** *** [CustomDataset]

    The class cell of notebook 3.  Global names are resolved when the body
    runs, in the notebook's namespace.  The objects bound there and what
    they do when used are left open: [getattr], [call], [getitem], [index],
    [len] and [str] stand for Python's attribute access, call, subscript by
    a string or a position, length and formatting. *)

Module CustomDataset.
Section CustomDataset.
Variable object : Type.
Variable getattr : object -> string -> result object.
Variable call : object -> list object -> result object.
Variable getitem : object -> string -> result object.
Variable str : object -> string.
Variable of_string : string -> object.
Variable index : object -> Z -> result object.
Variable len : object -> result Z.

(** A global name: bound in the namespace, or a [NameError].  Python's
    builtins bind neither of the two names the body looks up. *)
Definition name (globals : gmap string object) (id : string) : result object :=
  match globals !! id with
  | Some v => Ok v
  | None => Raise (NameError id)
  end.

Record instance : Type := mkInstance {
  x : object;
  y : object
}.

(** The value bound by [with np.load(filename) as f] is taken to be the
    value of the call. *)
Definition __init__ (globals : gmap string object) (filename division : string)
  : result instance :=
  if decide (division ∈ ["train"; "test"]) then
    np ← name globals "np";
    load ← getattr np "load";
    f ← call load [of_string filename];
    dtype ← name globals "dtype";
    x ← getitem f ("x_" +:+ str dtype);
    dtype ← name globals "dtype";
    y ← getitem f ("y_" +:+ str dtype);
    mret {| x := x; y := y |}
  else Raise AssertionError.

Definition __getitem__ (self : instance) (ind : Z) : result (object * object) :=
  xi ← index (x self) ind;
  yi ← index (y self) ind;
  mret (xi, yi).

Definition __len__ (self : instance) : result Z :=
  nx ← len (x self);
  ny ← len (y self);
  if decide (nx = ny) then len (x self) else Raise AssertionError.
End CustomDataset.

(** The names the cells of notebook 3 bind, imports included. *)
Definition notebook_names : gset string :=
  list_to_set
    ["sys"; "torch"; "torchvision"; "nn"; "F"; "optim"; "transforms"; "tqdm";
     "device"; "transform"; "MNIST_train"; "MNIST_test";
     "train_data_loader"; "test_data_loader"; "CustomDataset"; "LeNet";
     "epochs"; "print_every"; "model"; "optimizer";
     "epoch"; "batch_ind"; "input_data"; "target_data"; "output"; "loss";
     "train_log"; "correct"; "pbar"; "pred"].
End CustomDataset.

(** ** Notebook 4: saving and loading model state *)

Module Notebook4.

(** A model as the notebook sees [torchvision.models.alexnet]: through
    its parameters under their dotted names, and these names in the order
    in which [named_parameters()] yields them. *)
Record Model : Type := mkModel {
  parameters : gmap string Tensor;
  names : list string
}.

(** [model.state_dict()] *)
Definition state_dict (self : Model) : gmap string Tensor := parameters self.

(** [param.copy_(input_param)]: the elements are copied; shape and device
    stay those of the parameter. *)
Definition copy_ (param input_param : Tensor) : Tensor :=
  {| shape := shape param; data := data input_param; dev := dev param |}.

(** [input_param[0]]: the first element along the leading dimension. *)
Definition first_element (input_param : Tensor) : result Tensor :=
  match shape input_param with
  | n :: size =>
      if decide (0 < n)
      then Ok {| shape := size; data := data input_param; dev := dev input_param |}
      else Raise (IndexError "index 0 is out of bounds for dimension 0 with size 0")
  | [] => Raise (IndexError "invalid index of a 0-dim tensor")
  end.

(** The entry [load_state_dict] compares with a parameter and copies.  For
    a parameter without dimensions a one-dimensional entry is replaced by
    its first element (records written by versions before 0.4). *)
Definition input_param_for (param input_param : Tensor) : result Tensor :=
  if decide (length (shape param) = 0%nat ∧ length (shape input_param) = 1%nat)
  then first_element input_param
  else Ok input_param.

(** What [load_state_dict] does with one parameter of the model: an entry
    of the same shape is copied in, anything else leaves the parameter. *)
Definition load_parameter (param : Tensor) (entry : option Tensor) : Tensor :=
  match entry with
  | Some input_param =>
      match input_param_for param input_param with
      | Ok input_param =>
          if decide (shape input_param = shape param) then copy_ param input_param
          else param
      | Raise _ => param
      end
  | None => param
  end.

(** An entry that loads without an error message: present, of the
    parameter's shape. *)
Definition loads (param : Tensor) (entry : option Tensor) : Prop :=
  match entry with
  | Some input_param =>
      match input_param_for param input_param with
      | Ok input_param => shape input_param = shape param
      | Raise _ => False
      end
  | None => False
  end.

#[global] Instance loads_dec param entry : Decision (loads param entry).
Proof.
  destruct entry as [input_param|]; cbn; [|apply _].
  destruct (input_param_for param input_param); apply _.
Defined.

(** The exception that ends the visit of the parameter [name], if there is
    one: taking the first element of its entry is not caught. *)
Definition stops (state_dict named : gmap string Tensor) (name : string) : option exn :=
  match named !! name, state_dict !! name with
  | Some param, Some input_param =>
      match input_param_for param input_param with
      | Ok _ => None
      | Raise e => Some e
      end
  | _, _ => None
  end.

(** The names visited to the end, in order, and the exception that ended
    the visit of the next one, if any. *)
Fixpoint visit (state_dict named : gmap string Tensor) (names : list string)
  : list string * option exn :=
  match names with
  | [] => ([], None)
  | name :: names' =>
      match stops state_dict named name with
      | Some e => ([], Some e)
      | None =>
          let '(visited, e) := visit state_dict named names' in
          (name :: visited, e)
      end
  end.

(** [model.load_state_dict(state_dict)], with [strict=True].  The library
    goes through the parameters of the model one by one, in the order of
    their names; it copies every entry that fits and notes a message for
    every one that does not (a missing key, a size mismatch) and for every
    unexpected key; at the end it raises if there is any message.  An
    exception on the way ends the load where it is: the parameters visited
    before have been loaded, the others have not. *)
Definition load_state_dict (state_dict : gmap string Tensor) : M Model unit :=
  fun self =>
  match visit state_dict (parameters self) (names self) with
  | (visited, Some e) =>
      (Raise e,
       {| parameters :=
            map_imap (fun key param =>
                        Some (if decide (key ∈ visited)
                              then load_parameter param (state_dict !! key)
                              else param))
                     (parameters self);
          names := names self |})
  | (_, None) =>
      let loaded :=
        {| parameters :=
             map_imap (fun key param => Some (load_parameter param (state_dict !! key)))
                      (parameters self);
           names := names self |} in
      if decide (map_Forall (fun key param => loads param (state_dict !! key))
                            (parameters self)
                 ∧ dom state_dict ⊆ dom (parameters self))
      then (Ok tt, loaded)
      else (Raise (RuntimeError "Error(s) in loading state_dict"), loaded)
  end.

(** [optim.Adam]: one group of parameters (by name, in the order of
    [model.parameters()]) with its learning rate, and the state of the
    parameters that have been updated. *)
Record ParamGroup : Type := mkParamGroup {
  lr : float32;
  params : list string
}.

Record Optimizer : Type := mkOptimizer {
  param_groups : list ParamGroup;
  state : gmap string AdamState
}.

(** [optimizer.state_dict()]: parameters are replaced by their position. *)
Record OptimizerState : Type := mkOptimizerState {
  saved_groups : list (float32 * nat);
  saved_state : gmap nat AdamState
}.

Definition all_params (o : Optimizer) : list string :=
  g ← param_groups o; params g.

Definition optimizer_state_dict (o : Optimizer) : OptimizerState :=
  {| saved_groups := (fun g => (lr g, length (params g))) <$> param_groups o;
     saved_state :=
       list_to_map (omap (fun '(i, name) => (fun st => (i, st)) <$> state o !! name)
                         (imap (fun i name => (i, name)) (all_params o))) |}.

(** [optimizer.load_state_dict(state_dict)] *)
Definition optimizer_load_state_dict (sd : OptimizerState) : M Optimizer unit :=
  fun self =>
  if decide (length (param_groups self) ≠ length (saved_groups sd)) then
    (Raise (ValueError "loaded state dict has a different number of parameter groups"),
     self)
  else if decide ((fun g => length (params g)) <$> param_groups self
                  ≠ snd <$> saved_groups sd) then
    (Raise (ValueError "loaded state dict contains a parameter group that doesn't match the size of optimizer's group"),
     self)
  else
    (Ok tt,
     {| param_groups :=
          zip_with (fun g sg => {| lr := sg.1; params := params g |})
                   (param_groups self) (saved_groups sd);
        state :=
          list_to_map (omap (fun '(i, name) => (fun st => (name, st)) <$> saved_state sd !! i)
                            (imap (fun i name => (i, name)) (all_params self))) |}).

(** What [torch.save] writes and [torch.load] reads back. *)
Inductive value : Type :=
| Int (n : Z)
| StateDict (sd : gmap string Tensor)
| OptimizerStateDict (sd : OptimizerState).

Inductive pickled : Type :=
| WholeModel (m : Model)
| Dict (d : gmap string value).

(** The notebook's world: the files, and the variables [model] and
    [optimizer]. *)
Record World : Type := mkWorld {
  files : gmap string pickled;
  model : Model;
  optimizer : Optimizer
}.

(** [torch.save(obj, path)] *)
Definition save (obj : pickled) (path : string) : M World unit := fun w =>
  (Ok tt, {| files := <[path := obj]> (files w); model := model w;
             optimizer := optimizer w |}).

(** [torch.load(path)], with the default [weights_only=True]: tensors,
    numbers and the dictionaries of them are read back; a pickled model is
    refused. *)
Definition load (path : string) : M World pickled := fun w =>
  match files w !! path with
  | Some (Dict d) => (Ok (Dict d), w)
  | Some (WholeModel _) => (Raise (UnpicklingError "Weights only load failed"), w)
  | None => (Raise (FileNotFoundError path), w)
  end.

(** [obj[key]] *)
Definition getitem (obj : pickled) (key : string) : result value :=
  match obj with
  | Dict d =>
      match d !! key with
      | Some v => Ok v
      | None => Raise (KeyError key)
      end
  | WholeModel _ => Raise (TypeError "object is not subscriptable")
  end.

Definition on_model {A} (m : M Model A) : M World A := fun w =>
  let '(r, model') := m (model w) in
  (r, {| files := files w; model := model'; optimizer := optimizer w |}).

Definition on_optimizer {A} (m : M Optimizer A) : M World A := fun w =>
  let '(r, optimizer') := m (optimizer w) in
  (r, {| files := files w; model := model w; optimizer := optimizer' |}).

Definition get_model : M World Model := fun w => (Ok (model w), w).
Definition get_optimizer : M World Optimizer := fun w => (Ok (optimizer w), w).

(** Method 1: saving the entire model.  [PATH_1] is [PATH] in these two
    cells. *)
Definition PATH_1 : string := "alexnet_pretrained_1".

Definition save_model_cell : M World unit :=
  model ← get_model;
  save (WholeModel model) PATH_1.

(** [replica = torch.load(PATH)] *)
Definition replica_cell : M World pickled := load PATH_1.

(** Method 2: saving only the parameters.  [PATH_2] is [PATH] from here
    on. *)
Definition PATH_2 : string := "alexnet_pretrained_2".

Definition save_state_cell : M World unit :=
  model ← get_model;
  optimizer ← get_optimizer;
  let state : gmap string value :=
    {[ "epoch" := Int 30;
       "state_dict" := StateDict (state_dict model);
       "optimizer" := OptimizerStateDict (optimizer_state_dict optimizer) ]} in
  save (Dict state) PATH_2.

(** [model = torchvision.models.alexnet()],
    [optimizer = optim.Adam(model.parameters())]: a fresh pair, built by
    the library. *)
Definition fresh_cell (fresh_model : Model) (fresh_optimizer : Optimizer) : M World unit :=
  fun w =>
  (Ok tt, {| files := files w; model := fresh_model; optimizer := fresh_optimizer |}).

(** Load back states. *)
Definition load_cell : M World unit :=
  old_state ← load PATH_2;
  sd ← lift (getitem old_state "state_dict");
  _ ← match sd with
      | StateDict sd => on_model (load_state_dict sd)
      | Int _ => raise (AttributeError "copy")
      | OptimizerStateDict _ => raise (RuntimeError "Error(s) in loading state_dict")
      end;
  osd ← lift (getitem old_state "optimizer");
  match osd with
  | OptimizerStateDict osd => on_optimizer (optimizer_load_state_dict osd)
  | Int _ => raise (TypeError "object is not subscriptable")
  | StateDict _ => raise (KeyError "param_groups")
  end.

(** The state-only save, a fresh model and optimizer, the load. *)
Definition save_then_load (fresh_model : Model) (fresh_optimizer : Optimizer)
  : M World unit :=
  _ ← save_state_cell;
  _ ← fresh_cell fresh_model fresh_optimizer;
  load_cell.

(** Two models of the same architecture: the same parameter names, each
    with the same shape. *)
Definition same_architecture (m1 m2 : Model) : Prop :=
  shape <$> parameters m1 = shape <$> parameters m2.

(** The values of the parameters: shape and elements, whatever the
    device. *)
Definition parameter_values (m : Model) : gmap string (list Z * storage) :=
  (fun t => (shape t, data t)) <$> parameters m.
End Notebook4.

(** ** Architectures

    What the constructors fix for good: the layers, their hyper-parameters
    and the shape and device of every parameter.  Training and loading only
    replace elements. *)

Definition signature (t : Tensor) : Tensor :=
  {| shape := shape t; data := fun _ => zero; dev := dev t |}.

Definition layer_signature (m : nn.Layer) : nn.Layer :=
  match m with
  | nn.Conv2d i o k s p w b => nn.Conv2d i o k s p (signature w) (signature b)
  | nn.Linear i o w b => nn.Linear i o (signature w) (signature b)
  | _ => m
  end.

Definition architecture (self : nn.Net) : list (string * nn.Layer) :=
  prod_map id layer_signature <$> nn._modules self.

Definition meta (size : list Z) (d : device) : Tensor :=
  {| shape := size; data := fun _ => zero; dev := d |}.

Definition SimpleNet_architecture (num_classes : Z) (d : device) : list (string * nn.Layer) :=
  [("conv1", nn.Conv2d 3 64 11 4 2 (meta [64; 3; 11; 11] d) (meta [64] d));
   ("pool1", nn.MaxPool2d 3 2);
   ("dropout1", nn.Dropout p_0_3);
   ("fc1", nn.Linear (64*2*2) num_classes
             (meta [num_classes; 64*2*2] d) (meta [num_classes] d))].

Definition LeNet_architecture (d : device) : list (string * nn.Layer) :=
  [("conv1", nn.Conv2d 1 20 5 1 0 (meta [20; 1; 5; 5] d) (meta [20] d));
   ("conv2", nn.Conv2d 20 50 5 1 0 (meta [50; 20; 5; 5] d) (meta [50] d));
   ("fc1", nn.Linear (4*4*50) 500 (meta [500; 4*4*50] d) (meta [500] d));
   ("fc2", nn.Linear 500 10 (meta [10; 500] d) (meta [10] d))].

(** The side of the feature map that enters [view] in [LeNet.forward], for
    an image side [h]: convolution 5/1, pooling 2/2, convolution 5/1,
    pooling 2/2. *)
Definition LeNet_feature_side (h : Z) : Z :=
  F.conv_out (F.conv_out (F.conv_out (F.conv_out h 5 1 0) 2 2 0) 5 1 0) 2 2 0.

(** The same for [SimpleNet.forward]: convolution 11/4 with padding 2,
    pooling 3/2. *)
Definition SimpleNet_feature_side (h : Z) : Z :=
  F.conv_out (F.conv_out h 11 4 2) 3 2 0.

(** ** Initialisation states of a parameter *)

(** Every element is [0.]. *)
Definition is_zero (b : Tensor) : Prop :=
  forall i, data b i = zero.

(** The elements were drawn by [nn.init.kaiming_normal_] from some state of
    the random generator. *)
Definition kaiming_initialised `{Kernels} (nl : nonlinearity) (w : Tensor) : Prop :=
  exists g, data w = (kaiming_normal_kernel nl (shape w) g).1.

(** The effect of the initialisation loop body on one layer: a convolution
    or linear layer gets a fresh Kaiming-normal weight and a zero bias of the
    same shapes; any other layer is left alone. *)
Definition reinitialised `{Kernels} (nl : nonlinearity) (m m' : nn.Layer) : Prop :=
  match m with
  | nn.Conv2d i o k s p w b =>
      exists w', m' = nn.Conv2d i o k s p w' (fill_ b zero) /\
        shape w' = shape w /\ dev w' = dev w /\ kaiming_initialised nl w'
  | nn.Linear i o w b =>
      exists w', m' = nn.Linear i o w' (fill_ b zero) /\
        shape w' = shape w /\ dev w' = dev w /\ kaiming_initialised nl w'
  | _ => m' = m
  end.

(** ** Stateless computations

    A computation that neither reads nor changes the state: it has one
    result, whatever the state. *)
Definition stateless {S A} (m : M S A) : Prop :=
  exists r, forall s, m s = (r, s).

(** Every convolution and linear layer registered in a network has a zero
    bias and a Kaiming-normal weight. *)
Definition conv_linear_initialised `{Kernels} (nl : nonlinearity) (self : nn.Net) : Prop :=
  forall name m,
    (name, m) ∈ nn._modules self ->
    nn.type_of m ∈ [nn.Conv2d_t; nn.Linear_t] ->
    exists w b, nn.weight m = Ok w /\ nn.bias m = Ok b /\
      is_zero b /\ kaiming_initialised nl w.

(** ** An instance of the kernels that can be run

    Integer stand-ins for the floating-point kernels, to evaluate the
    definitions of this file on concrete tensors.  The generator is a
    counter fed to a linear congruential step; the linear layer is an exact
    integer product; convolution and pooling do not look at the geometry. *)
Module Sample.
Definition noise (g : Z) : Z := ((1103515245 * g + 12345) mod 2147483648) / 65536.

Definition draws (size : list Z) (g : Z) : storage * Z :=
  (fun i => noise (g + i) mod 1000, g + numel size).

Definition dot (k : Z) (u v : storage) : Z :=
  foldr (fun i acc => u i * v i + acc) 0 (seqZ 0 k).

(** [input] of shape [m; k], [weight] of shape [o; k], [bias] of shape [o] *)
Definition linear_rows (input weight bias : Tensor) : storage :=
  match shape weight with
  | [o; k] => fun i =>
      let row := i / o in
      let col := i mod o in
      dot k (fun j => data input (row * k + j)) (fun j => data weight (col * k + j))
      + data bias col
  | _ => fun _ => 0
  end.

Definition kernels : Kernels := {|
  Generator := Z;
  reset_parameters_kernel wsize bsize g :=
    let '(w, g1) := draws wsize g in
    let '(b, g2) := draws bsize g1 in
    (w, b, g2);
  kaiming_normal_kernel _ size g := draws size g;
  conv2d_kernel input _ _ _ _ := fun i => 1 + data input 0;
  relu_kernel xs := fun i => Z.max 0 (xs i);
  max_pool2d_kernel input _ _ := data input;
  linear_kernel := linear_rows;
  dropout_kernel _ input g :=
    (fun i => if decide (noise (g + i) mod 10 < 3) then 0 else data input i,
     g + numel (shape input));
  log_softmax_kernel input _ := data input;
  cross_entropy_kernel _ _ := 0;
  argmax_kernel _ _ := fun _ => 0;
  eq_sum_kernel ps ts :=
    Z.of_nat (length (filter (fun i => ldata ps i = ldata ts i)
                             (seqZ 0 (numel (lshape ps)))));
  add_kernel u v := fun i => u i + v i;
  grad_kernel _ _ _ _ := fun _ => 1;
  adam_kernel _ st p g :=
    (fun i => p i - g i,
     {| step_count := match st with Some s => step_count s + 1 | None => 1 end;
        exp_avg := g; exp_avg_sq := fun i => g i * g i |})
|}.

Definition ones (size : list Z) (d : device) : Tensor :=
  {| shape := size; data := fun _ => 1; dev := d |}.

(** The network a constructor builds from generator state 0. *)
Definition built (init : M Z nn.Net) : nn.Net :=
  match (init 0).1 with
  | Ok net => net
  | Raise _ => {| nn._modules := []; nn.training := true |}
  end.

(** The tensor a run returned. *)
Definition output {S} (r : result Tensor * S) : Tensor :=
  match r.1 with
  | Ok y => y
  | Raise _ => ones [] cpu
  end.

Definition a_SimpleNet : nn.Net := built (SimpleNet.__init__ (H := kernels) 10).
Definition a_LeNet : nn.Net := built (LeNet.__init__ (H := kernels)).

(** A model with two parameters, trained and fresh, a record whose bias
    entry has another shape than the bias of the model, and an optimizer. *)
Definition trained_model : Notebook4.Model :=
  {| Notebook4.parameters :=
       {[ "fc.weight" := {| shape := [2; 3]; data := fun i => 7 + i; dev := cuda |};
          "fc.bias" := {| shape := [2]; data := fun i => 5; dev := cuda |} ]};
     Notebook4.names := ["fc.weight"; "fc.bias"] |}.

Definition fresh_model : Notebook4.Model :=
  {| Notebook4.parameters :=
       {[ "fc.weight" := ones [2; 3] cpu; "fc.bias" := ones [2] cpu ]};
     Notebook4.names := ["fc.weight"; "fc.bias"] |}.

Definition misfit_record : gmap string Tensor :=
  {[ "fc.weight" := {| shape := [2; 3]; data := fun i => 7 + i; dev := cpu |};
     "fc.bias" := {| shape := [3]; data := fun i => 5; dev := cpu |} ]}.

Definition an_optimizer (rate : float32) : Notebook4.Optimizer :=
  {| Notebook4.param_groups :=
       [{| Notebook4.lr := rate; Notebook4.params := ["fc.weight"; "fc.bias"] |}];
     Notebook4.state := ∅ |}.

(** Constructing a [CustomDataset] in a namespace that binds the names of
    notebook 3, each to a dummy object on which every operation succeeds. *)
Definition construct (division : string) : result (CustomDataset.instance unit) :=
  CustomDataset.__init__ unit (fun _ _ => Ok tt) (fun _ _ => Ok tt) (fun _ _ => Ok tt)
    (fun _ => "float32") (fun _ => tt)
    (gset_to_gmap tt CustomDataset.notebook_names) "mnist.npz" division.

Definition a_saving_world : Notebook4.World :=
  {| Notebook4.files := ∅; Notebook4.model := trained_model;
     Notebook4.optimizer := an_optimizer 0x3BA3D70A |}.

(** A batch of two images with labels 0 and 1, and the world after the
    setup cells of notebook 3 on the CPU. *)
Definition a_batch : Notebook3.Batch :=
  (ones [2; 1; 28; 28] cpu, {| lshape := [2]; ldata := fun i => i; ldev := cpu |}).

Definition a_world : Notebook3.World (H := kernels) :=
  match Notebook3.setup_cells (H := kernels) cpu 0 with
  | Ok w => w
  | Raise _ =>
      @Notebook3.mkWorld kernels a_LeNet ∅
        {| Notebook3.lr := 0; Notebook3.state := ∅ |} 0 true None [] None
  end.
End Sample.

(** ** Notebook 2: layers, functions and [nn.Sequential]

    The cells of notebook 2 that come before [SimpleNet]: a convolution
    layer called on [X], the same convolution as a function with an all-zero
    filter followed by pooling, and the [nn.Sequential] of convolution,
    [nn.ReLU] and pooling. *)

Module Notebook2.

(** What the notebook hands to [nn.Sequential]: layers, and [nn.ReLU()]. *)
Inductive Module_ : Type :=
| Layer (m : nn.Layer)
| ReLU.

Section Notebook2.
Context `{Kernels}.
(** the elements [torch.randn] draws for a tensor of a size *)
Variable randn_kernel : list Z -> Generator -> storage * Generator.
(** a convolution without bias: input, weight, stride, padding *)
Variable conv2d_no_bias_kernel : Tensor -> Tensor -> Z -> Z -> storage.

(** [torch.randn(size)]: a new tensor on the CPU. *)
Definition randn (size : list Z) : M Generator Tensor := fun g =>
  let '(d, g') := randn_kernel size g in
  (Ok {| shape := size; data := d; dev := cpu |}, g').

(** [torch.zeros] of a size: a new tensor on the CPU. *)
Definition zeros (size : list Z) : Tensor :=
  {| shape := size; data := fun _ => zero; dev := cpu |}.

(** The convolution of a batch without a bias. *)
Definition convolution_no_bias (input weight : Tensor) (stride padding : Z)
  : result Tensor :=
  match shape input, shape weight with
  | [n; c; h; w], [o; i; kh; kw] =>
      if decide (c = i ∧ dev input = dev weight ∧ 0 < stride ∧ 0 ≤ padding ∧
                 kh ≤ h + 2 * padding ∧ kw ≤ w + 2 * padding)
      then Ok {| shape := [n; o; F.conv_out h kh stride padding;
                                 F.conv_out w kw stride padding];
                 data := conv2d_no_bias_kernel input weight stride padding;
                 dev := dev input |}
      else Raise (RuntimeError "conv2d: input does not fit the weight")
  | _, _ => Raise (RuntimeError "conv2d: expected 4-dimensional input and weight")
  end.

(** [F.conv2d(input=..., weight=..., stride=..., padding=...)]: the call
    of the notebook gives no bias. *)
Definition conv2d_no_bias (input weight : Tensor) (stride padding : Z) : result Tensor :=
  match shape input with
  | [_; _; _; _] => convolution_no_bias input weight stride padding
  | [_; _; _] =>
      output ← convolution_no_bias (unsqueeze input) weight stride padding;
      mret (squeeze output)
  | _ => Raise (RuntimeError "conv2d: expected 3D (unbatched) or 4D (batched) input")
  end.

(** [two_dimensional_conv = nn.Conv2d(in_channels=3, out_channels=64,
    kernel_size=11, stride=4, padding=2)], [two_dimensional_conv(X)].  A new
    module is in training mode. *)
Definition two_dimensional_conv_cell (X : Tensor) : M Generator Tensor :=
  two_dimensional_conv ← nn.Conv2d_new 3 64 11 4 2;
  nn.call two_dimensional_conv true X.

(** [zero_conv_result = F.conv2d(input=X, weight=torch.zeros(64, 3, 11, 11),
    stride=4, padding=2)],
    [zero_conv_result_pool = F.max_pool2d(zero_conv_result, kernel_size=3,
    stride=2)] *)
Definition zero_conv_cell (X : Tensor) : result Tensor :=
  zero_conv_result ← conv2d_no_bias X (zeros [64; 3; 11; 11]) 4 2;
  F.max_pool2d zero_conv_result 3 2.

(** Calling one module of a [nn.Sequential]. *)
Definition module_call (m : Module_) (training : bool) (x : Tensor) : M Generator Tensor :=
  match m with
  | Layer l => nn.call l training x
  | ReLU => mret (F.relu x)
  end.

(** Calling a [nn.Sequential] on [x]: each module is called on the result
    of the one before. *)
Fixpoint Sequential_call (modules : list Module_) (training : bool) (x : Tensor)
  : M Generator Tensor :=
  match modules with
  | [] => mret x
  | m :: modules' =>
      x ← module_call m training x;
      Sequential_call modules' training x
  end.

(** [simple_model = nn.Sequential(nn.Conv2d(3, 64, kernel_size=11,
    stride=4, padding=2), nn.ReLU(), nn.MaxPool2d(kernel_size=3, stride=2))] *)
Definition simple_model : M Generator (list Module_) :=
  conv ← nn.Conv2d_new 3 64 11 4 2;
  mret [Layer conv; ReLU; Layer (nn.MaxPool2d 3 2)].

(** [simple_model(X)] *)
Definition simple_model_cell (X : Tensor) : M Generator Tensor :=
  simple_model ← simple_model;
  Sequential_call simple_model true X.

(** [model = SimpleNet()], [model(X).shape] *)
Definition model_cell (X : Tensor) : M Generator (list Z) :=
  model ← SimpleNet.__init__ 10;
  y ← SimpleNet.forward model X;
  mret (shape y).

(** The code cells of the notebook from [X = torch.randn(size)] on, in
    order; the notebook has [size = (64, 3, 23, 23)].  The value is what the
    four cells display: three tensors and a shape. *)
Definition cells (size : list Z) : M Generator (Tensor * Tensor * Tensor * list Z) :=
  X ← randn size;
  conv_result ← two_dimensional_conv_cell X;
  zero_conv_result_pool ← lift (zero_conv_cell X);
  simple_result ← simple_model_cell X;
  model_shape ← model_cell X;
  mret (conv_result, zero_conv_result_pool, simple_result, model_shape).
End Notebook2.
End Notebook2.

(** ** Errors of the library functions *)

(** A result that is a value or a [RuntimeError]. *)
Definition runtime_error_only {A} (r : result A) : Prop :=
  match r with
  | Ok _ => True
  | Raise e => exists msg, e = RuntimeError msg
  end.

(** Two results that are tensors of one shape on one device, or both a
    [RuntimeError]. *)
Definition same_outcome (r1 r2 : result Tensor) : Prop :=
  match r1, r2 with
  | Ok y, Ok z => shape y = shape z /\ dev y = dev z
  | Raise (RuntimeError _), Raise (RuntimeError _) => True
  | _, _ => False
  end.

(** ** Notebook 3: what the cells print *)

(** The line a call prints.  The loss shown in a progress line is left
    out: it is the number the library computed. *)
Definition printed {X} (e : Notebook3.torchE X) : option Notebook3.line :=
  match e with
  | Notebook3.print (Notebook3.train_log epoch epochs _ batch total) =>
      Some (Notebook3.train_log epoch epochs zero batch total)
  | Notebook3.print l => Some l
  | _ => None
  end.

(** The lines a run of a cell prints, in order. *)
Definition lines {W R} (h : forall X, Notebook3.torchE X -> M W X)
    (p : prog Notebook3.torchE R) (w : W) : list Notebook3.line :=
  omap id (calls h (@printed) p w).

(** ** Notebook 4: the last cell *)

(** [optimizer.state_dict()['param_groups']] *)
Definition param_groups_cell : M Notebook4.World (list (float32 * nat)) :=
  optimizer ← Notebook4.get_optimizer;
  mret (Notebook4.saved_groups (Notebook4.optimizer_state_dict optimizer)).

(** ** Notebook 4: switching gradients on for the last layer only

    The fine-tuning cells.  [alex_pretrained] is the library's [AlexNet]:
    its children are [features] (a [nn.Sequential]), [avgpool] (which has
    no parameter) and [classifier] (a [nn.Sequential]), registered in this
    order. *)

Module Finetune.

(** A parameter: its tensor and its [requires_grad] flag. *)
Record Param : Type := mkParam {
  value : Tensor;
  requires_grad : bool
}.

(** A layer, by its own parameters under their names ([weight], [bias]);
    a layer such as [nn.ReLU] has none. *)
Abbreviation Module_ := (list (string * Param)).

(** A [nn.Sequential]: its children under their keys, in order. *)
Abbreviation Sequential := (list (string * Module_)).

Record AlexNet : Type := mkAlexNet {
  features : Sequential;
  classifier : Sequential
}.

Definition module_parameters (prefix : string) (m : Module_) : list (string * Param) :=
  (fun '(name, param) => (prefix +:+ "." +:+ name, param)) <$> m.

Definition sequential_parameters (prefix : string) (s : Sequential)
  : list (string * Param) :=
  '(key, m) ← s; module_parameters (prefix +:+ "." +:+ key) m.

(** [self.named_parameters()] *)
Definition named_parameters (self : AlexNet) : list (string * Param) :=
  sequential_parameters "features" (features self)
  ++ sequential_parameters "classifier" (classifier self).

(** [for param in self.parameters(): param = body(param)], where the body
    updates the parameter in place. *)
Definition on_module (body : Param -> Param) (m : Module_) : Module_ :=
  (fun '(name, param) => (name, body param)) <$> m.

Definition on_sequential (body : Param -> Param) (s : Sequential) : Sequential :=
  (fun '(key, m) => (key, on_module body m)) <$> s.

Definition for_parameters (body : Param -> Param) (self : AlexNet) : AlexNet :=
  {| features := on_sequential body (features self);
     classifier := on_sequential body (classifier self) |}.

Inductive IndexError : Type := index_out_of_range (idx : Z).

(** [self[idx] = module] on a [nn.Sequential]: the child at position [idx]
    (counted from the end when negative) is replaced under its key. *)
Definition setitem (self : Sequential) (idx : Z) (module : Module_)
  : IndexError + Sequential :=
  let size := Z.of_nat (length self) in
  if decide (- size ≤ idx < size)
  then inr (alter (fun '(key, _) => (key, module)) (Z.to_nat (idx mod size)) self)
  else inl (index_out_of_range idx).

Section Finetune.
Context `{Kernels}.

(** [nn.Linear(in_features=..., out_features=..., bias=True)]: a new layer
    on the CPU; its parameters have [requires_grad=True]. *)
Definition Linear (in_features out_features : Z) (g : Generator) : Module_ * Generator :=
  let wshape := [out_features; in_features] in
  let '(w, b, g') := reset_parameters_kernel wshape [out_features] g in
  ([("weight", {| value := mkTensor wshape w cpu; requires_grad := true |});
    ("bias", {| value := mkTensor [out_features] b cpu; requires_grad := true |})],
   g').

(** The cell: the loop over [alex_pretrained.parameters()], then
    [alex_pretrained.classifier[6] = nn.Linear(in_features=4096,
    out_features=1000, bias=True)].  The right-hand side is evaluated before
    the assignment; the loop has run when the assignment raises. *)
Definition finetune_cell (alex_pretrained : AlexNet) (g : Generator)
  : (IndexError + unit) * AlexNet * Generator :=
  let alex_pretrained :=
    for_parameters (fun param => {| value := value param; requires_grad := false |})
                   alex_pretrained in
  let '(linear, g') := Linear 4096 1000 g in
  match setitem (classifier alex_pretrained) 6 linear with
  | inr classifier' =>
      (inr tt,
       {| features := features alex_pretrained; classifier := classifier' |}, g')
  | inl e => (inl e, alex_pretrained, g')
  end.
End Finetune.

(** [f'{name: <20}']: [name], filled with spaces on the right up to 20
    characters. *)
Fixpoint spaces (n : nat) : string :=
  match n with
  | O => EmptyString
  | S n' => " " +:+ spaces n'
  end.

Definition ljust (s : string) (width : nat) : string :=
  s +:+ spaces (width - String.length s).

Definition str (b : bool) : string := if b then "True" else "False".

(** [for name, param in alex_pretrained.named_parameters():
    print(f'{name: <20}: {param.requires_grad}')]: the lines printed. *)
Definition print_cell (alex_pretrained : AlexNet) : list string :=
  (fun '(name, param) => ljust name 20 +:+ ": " +:+ str (requires_grad param))
    <$> named_parameters alex_pretrained.
End Finetune.

(** ** Notebook 3: the parameters of [LeNet] by name *)

(** The names [LeNet().named_parameters()] yields. *)
Definition LeNet_parameter_names : list string :=
  ["conv1.weight"; "conv1.bias"; "conv2.weight"; "conv2.bias";
   "fc1.weight"; "fc1.bias"; "fc2.weight"; "fc2.bias"].

(** ** More values to run the definitions on *)

Module Examples.
(** Two images with three labels. *)
Definition a_misfit_batch : Notebook3.Batch :=
  (Sample.ones [2; 1; 28; 28] cpu, {| lshape := [3]; ldata := fun i => i; ldev := cpu |}).

(** The world after the setup cells, with a gradient left for one
    parameter, and another value for that gradient. *)
Definition a_world_with_gradient : Notebook3.World (H := Sample.kernels) :=
  Notebook3.set_grad Sample.a_world {[ "fc2.bias" := Sample.ones [10] cpu ]}.

Definition another_gradient : gmap string Tensor :=
  {[ "fc2.bias" := {| shape := [10]; data := fun i => 7 + i; dev := cpu |} ]}.

(** An optimizer that has taken a step on the weight. *)
Definition a_stepped_optimizer : Notebook4.Optimizer :=
  {| Notebook4.param_groups :=
       [{| Notebook4.lr := 0x3BA3D70A; Notebook4.params := ["fc.weight"; "fc.bias"] |}];
     Notebook4.state :=
       {[ "fc.weight" := {| step_count := 1; exp_avg := fun i => i;
                            exp_avg_sq := fun i => i * i |} ]} |}.

Definition a_resuming_world : Notebook4.World :=
  {| Notebook4.files := ∅; Notebook4.model := Sample.trained_model;
     Notebook4.optimizer := a_stepped_optimizer |}.

(** A world whose file holds the state of a model that fits
    [Sample.fresh_model] and of an optimizer over one parameter, while the
    optimizer at hand is over two. *)
Definition a_record : gmap string Notebook4.value :=
  {[ "epoch" := Notebook4.Int 30;
     "state_dict" := Notebook4.StateDict (Notebook4.parameters Sample.trained_model);
     "optimizer" :=
       Notebook4.OptimizerStateDict
         {| Notebook4.saved_groups := [(0x3BA3D70A, 1%nat)];
            Notebook4.saved_state := ∅ |} ]}.

Definition a_world_to_load : Notebook4.World :=
  {| Notebook4.files := {[ Notebook4.PATH_2 := Notebook4.Dict a_record ]};
     Notebook4.model := Sample.fresh_model;
     Notebook4.optimizer := Sample.an_optimizer 0 |}.

(** A small model of the form of [AlexNet]: one convolution in [features],
    and a classifier of seven children, of which the second, fifth and
    seventh are linear layers. *)
Definition a_param (size : list Z) : Finetune.Param :=
  {| Finetune.value := Sample.ones size cpu; Finetune.requires_grad := true |}.

Definition a_layer (wsize bsize : list Z) : list (string * Finetune.Param) :=
  [("weight", a_param wsize); ("bias", a_param bsize)].

Definition an_AlexNet : Finetune.AlexNet :=
  {| Finetune.features := [("0", a_layer [64; 3; 11; 11] [64]); ("1", []); ("2", [])];
     Finetune.classifier :=
       [("0", []); ("1", a_layer [4096; 9216] [4096]); ("2", []);
        ("3", []); ("4", a_layer [4096; 4096] [4096]); ("5", []);
        ("6", a_layer [1000; 4096] [1000])] |}.
End Examples.

(** ** Notebook 3, from the setup cells to the accuracy *)

Section notebook3.
Context `{Kernels}.

(** The cells of notebook 3 from [model = LeNet().to(device)] on, in
    order: setup, training, [model = model.eval()], evaluation.  The value
    is the count [correct] of the evaluation cell. *)
Definition notebook3_cells (device : device) (train_data_loader : Z -> list Notebook3.Batch)
    (test_data_loader : list Notebook3.Batch) (len_MNIST_test : Z) (g : Generator)
  : result (Z * Notebook3.World) :=
  match Notebook3.setup_cells device g with
  | Ok w =>
      match (_ ← run Notebook3.handle (Notebook3.training_cell device train_data_loader);
             _ ← Notebook3.eval_cell;
             run Notebook3.handle
               (Notebook3.evaluation_cell device test_data_loader len_MNIST_test)) w with
      | (Ok correct, w') => Ok (correct, w')
      | (Raise e, _) => Raise e
      end
  | Raise e => Raise e
  end.
End notebook3.

(** A data set of the form of [CustomDataset] whose arrays are sequences
    of integers given by their length and their elements, to run
    [__len__] and [__getitem__] on. *)
Module Arrays.
Record array : Type := mkArray {
  size : Z;
  item : Z -> Z
}.

(** A position is an array of one element. *)
Definition index (a : array) (ind : Z) : result array :=
  Ok {| size := 1; item := fun _ => item a ind |}.

Definition len (a : array) : result Z := Ok (size a).

Definition a_dataset : CustomDataset.instance array :=
  {| CustomDataset.x := {| size := 3; item := fun i => 10 * i |};
     CustomDataset.y := {| size := 3; item := fun i => i mod 10 |} |}.
End Arrays.

(** * Results *)

(** ** Stepping through monadic code *)

Lemma M_bind_Ok_inv {S A B} (m : M S A) (f : A -> M S B) s b s2 :
  (m ≫= f) s = (Ok b, s2) ->
  exists a s1, m s = (Ok a, s1) /\ f a s1 = (Ok b, s2).
Proof.
  unfold mbind, M_bind. destruct (m s) as [[a|e] s1]; [eauto | discriminate].
Qed.

Lemma lift_Ok_inv {S A} (r : result A) (s s' : S) a :
  lift r s = (Ok a, s') -> r = Ok a /\ s' = s.
Proof. unfold lift. intros [= -> ->]. done. Qed.

Lemma result_bind_Ok_inv {A B} (r : result A) (f : A -> result B) b :
  r ≫= f = Ok b -> exists a, r = Ok a /\ f a = Ok b.
Proof. destruct r; [eauto | discriminate]. Qed.

(** ** Shapes through the functional layer *)

Section shapes.
Context `{Kernels}.

Lemma convolution_Ok_inv x w b s p y :
  F.convolution x w b s p = Ok y ->
  exists n c h wd o kh kw,
    shape x = [n; c; h; wd] /\ shape w = [o; c; kh; kw] /\
    dev x = dev w /\ 0 < s /\ 0 ≤ p /\ kh ≤ h + 2 * p /\ kw ≤ wd + 2 * p /\
    shape y = [n; o; F.conv_out h kh s p; F.conv_out wd kw s p] /\
    dev y = dev x.
Proof.
  unfold F.convolution. intros Hy.
  destruct (shape x) as [|n [|c [|h [|wd [|]]]]]; try discriminate.
  destruct (shape w) as [|o [|i [|kh [|kw [|]]]]]; try discriminate.
  case_decide as Hc; [|discriminate].
  destruct Hc as (-> & ? & ? & ? & ? & ?). injection Hy as <-.
  exists n, i, h, wd, o, kh, kw. done.
Qed.

Lemma convolution_Ok x w b s p n c h wd o kh kw :
  shape x = [n; c; h; wd] -> shape w = [o; c; kh; kw] ->
  dev x = dev w -> 0 < s -> 0 ≤ p -> kh ≤ h + 2 * p -> kw ≤ wd + 2 * p ->
  exists y, F.convolution x w b s p = Ok y /\
    shape y = [n; o; F.conv_out h kh s p; F.conv_out wd kw s p] /\
    dev y = dev x.
Proof.
  intros Hx Hw ? ? ? ? ?. unfold F.convolution. rewrite Hx, Hw.
  rewrite decide_True by done. eauto.
Qed.

(** The input of a convolution or of a pooling is [batch ++ [c; h; w]]:
    [batch] is [[n]] for a batch of [n] images, and empty for one image
    without a batch dimension. *)
Lemma conv2d_Ok_inv x w b s p y :
  F.conv2d x w b s p = Ok y ->
  exists batch c h wd o kh kw,
    shape x = batch ++ [c; h; wd] /\ (length batch ≤ 1)%nat /\
    shape w = [o; c; kh; kw] /\
    dev x = dev w /\ 0 < s /\ 0 ≤ p /\ kh ≤ h + 2 * p /\ kw ≤ wd + 2 * p /\
    shape y = batch ++ [o; F.conv_out h kh s p; F.conv_out wd kw s p] /\
    dev y = dev x.
Proof.
  unfold F.conv2d. intros Hy.
  destruct (shape x) as [|d1 [|d2 [|d3 [|d4 [|]]]]] eqn:Hx; try discriminate.
  - apply result_bind_Ok_inv in Hy as (y' & Hy' & [= <-]).
    apply convolution_Ok_inv in Hy'
      as (n & c & h & wd & o & kh & kw & Hx' & Hw & Hd & ? & ? & ? & ? & Hs & He).
    cbn [unsqueeze shape dev] in Hx', Hd, He. rewrite Hx in Hx'.
    injection Hx' as <- <- <- <-.
    exists [], d1, d2, d3, o, kh, kw. unfold squeeze. cbn [shape dev]. rewrite Hs.
    repeat split; try done; cbn; lia.
  - apply convolution_Ok_inv in Hy
      as (n & c & h & wd & o & kh & kw & Hx' & Hw & Hd & ? & ? & ? & ? & Hs & He).
    rewrite Hx in Hx'. injection Hx' as <- <- <- <-.
    exists [d1], d2, d3, d4, o, kh, kw. repeat split; try done; cbn; lia.
Qed.

Lemma conv2d_Ok_batch x w b s p batch c h wd o kh kw :
  shape x = batch ++ [c; h; wd] -> (length batch ≤ 1)%nat -> shape w = [o; c; kh; kw] ->
  dev x = dev w -> 0 < s -> 0 ≤ p -> kh ≤ h + 2 * p -> kw ≤ wd + 2 * p ->
  exists y, F.conv2d x w b s p = Ok y /\
    shape y = batch ++ [o; F.conv_out h kh s p; F.conv_out wd kw s p] /\
    dev y = dev x.
Proof.
  intros Hx Hb Hw ? ? ? ? ?. unfold F.conv2d.
  destruct batch as [|n [|]]; cbn in Hx, Hb; [| |lia]; rewrite Hx.
  - destruct (convolution_Ok (unsqueeze x) w b s p 1 c h wd o kh kw)
      as (y' & Hy' & Hs & He); try done.
    { cbn. by rewrite Hx. }
    rewrite Hy'. cbn. eexists. split; [reflexivity|].
    unfold squeeze. cbn [shape dev]. by rewrite Hs.
  - destruct (convolution_Ok x w b s p n c h wd o kh kw)
      as (y & Hy & Hs & He); try done.
    exists y. done.
Qed.

Lemma conv2d_Ok x w b s p n c h wd o kh kw :
  shape x = [n; c; h; wd] -> shape w = [o; c; kh; kw] ->
  dev x = dev w -> 0 < s -> 0 ≤ p -> kh ≤ h + 2 * p -> kw ≤ wd + 2 * p ->
  exists y, F.conv2d x w b s p = Ok y /\
    shape y = [n; o; F.conv_out h kh s p; F.conv_out wd kw s p] /\
    dev y = dev x.
Proof.
  intros Hx Hw. apply (conv2d_Ok_batch x w b s p [n] c h wd o kh kw); [done | cbn; lia | done].
Qed.

Lemma max_pool2d_Ok_inv x k s y :
  F.max_pool2d x k s = Ok y ->
  exists batch c h wd,
    shape x = batch ++ [c; h; wd] /\ (length batch ≤ 1)%nat /\
    0 < k /\ 0 < s /\ c ≠ 0 /\ k ≤ h /\ k ≤ wd /\
    shape y = batch ++ [c; F.conv_out h k s 0; F.conv_out wd k s 0] /\
    dev y = dev x.
Proof.
  unfold F.max_pool2d, F.pool. intros Hy.
  destruct (shape x) as [|d1 [|d2 [|d3 [|d4 [|]]]]]; try discriminate.
  - case_decide as Hc; [|discriminate].
    destruct Hc as (? & ? & ? & ? & ?). injection Hy as <-.
    exists [], d1, d2, d3. repeat split; try done; cbn; lia.
  - case_decide as Hc; [|discriminate].
    destruct Hc as (? & ? & ? & ? & ?). injection Hy as <-.
    exists [d1], d2, d3, d4. repeat split; try done; cbn; lia.
Qed.

Lemma max_pool2d_Ok_batch x k s batch c h wd :
  shape x = batch ++ [c; h; wd] -> (length batch ≤ 1)%nat ->
  0 < k -> 0 < s -> c ≠ 0 -> k ≤ h -> k ≤ wd ->
  exists y, F.max_pool2d x k s = Ok y /\
    shape y = batch ++ [c; F.conv_out h k s 0; F.conv_out wd k s 0] /\
    dev y = dev x.
Proof.
  intros Hx Hb ? ? ? ? ?. unfold F.max_pool2d, F.pool.
  destruct batch as [|n [|]]; cbn in Hx, Hb; [| |lia]; rewrite Hx;
    rewrite decide_True by done; eauto.
Qed.

Lemma max_pool2d_Ok x k s n c h wd :
  shape x = [n; c; h; wd] -> 0 < k -> 0 < s -> c ≠ 0 -> k ≤ h -> k ≤ wd ->
  exists y, F.max_pool2d x k s = Ok y /\
    shape y = [n; c; F.conv_out h k s 0; F.conv_out wd k s 0] /\
    dev y = dev x.
Proof.
  intros Hx. apply (max_pool2d_Ok_batch x k s [n] c h wd); [done | cbn; lia].
Qed.

(** Two inputs of the same shape have the same batch and the same
    planes. *)
Lemma batch_planes_inj (batch batch' : list Z) c h wd c' h' wd' :
  batch ++ [c; h; wd] = batch' ++ [c'; h'; wd'] ->
  batch = batch' /\ c = c' /\ h = h' /\ wd = wd'.
Proof.
  intros Heq. apply app_inj_2 in Heq as [-> [= -> -> ->]]; done.
Qed.

Lemma numel_app (l1 l2 : list Z) : numel (l1 ++ l2) = numel l1 * numel l2.
Proof.
  unfold numel. induction l1 as [|a l1 IH]; cbn [app foldr]; [lia|].
  rewrite IH. ring.
Qed.

Lemma numel_batch_planes (batch : list Z) c a b :
  numel (batch ++ [c; a; b]) = c * (numel batch * a * b).
Proof. rewrite numel_app. cbn [numel foldr]. ring. Qed.

Lemma linear_Ok_inv x w b y :
  F.linear x w b = Ok y ->
  exists k batch o,
    reverse (shape x) = k :: batch /\ shape w = [o; k] /\ dev x = dev w /\
    shape y = reverse (o :: batch) /\ dev y = dev x.
Proof.
  unfold F.linear. intros Hy.
  destruct (reverse (shape x)) as [|k batch]; try discriminate.
  destruct (shape w) as [|o [|i [|]]]; try discriminate.
  case_decide as Hc; [|discriminate].
  destruct Hc as (-> & ?). injection Hy as <-.
  exists i, batch, o. done.
Qed.

Lemma linear_Ok x w b m k o :
  shape x = [m; k] -> shape w = [o; k] -> dev x = dev w ->
  exists y, F.linear x w b = Ok y /\ shape y = [m; o] /\ dev y = dev x.
Proof.
  intros Hx Hw ?. unfold F.linear. rewrite Hx, Hw. simpl.
  rewrite decide_True by done. eauto.
Qed.

Lemma log_softmax_Ok_inv x dim y :
  F.log_softmax x dim = Ok y -> shape y = shape x /\ dev y = dev x.
Proof.
  unfold F.log_softmax. case_decide; [|discriminate]. intros [= <-]. done.
Qed.

Lemma log_softmax_Ok x m c :
  shape x = [m; c] ->
  exists y, F.log_softmax x 1 = Ok y /\ shape y = [m; c] /\ dev y = dev x.
Proof.
  intros Hx. unfold F.log_softmax. rewrite Hx.
  rewrite decide_True by (simpl; lia). eauto.
Qed.
End shapes.

(** [x.view(-1, k)] keeps the elements and infers the leading dimension:
    the number of elements divided by [k]. *)
Lemma infer_size_rows total k :
  k ≠ -1 ->
  infer_size total [-1; k] =
    if decide (0 < k ∧ 0 ≤ total ∧ total mod k = 0)
    then Ok [total / k; k]
    else Raise (RuntimeError "shape is invalid for input size").
Proof.
  intros Hk. unfold infer_size. cbn [filter list_filter].
  rewrite (decide_True (P := -1 = -1)), (decide_False (P := -1 ≠ -1)) by auto.
  rewrite (decide_False (P := k = -1)), (decide_True (P := k ≠ -1)) by auto.
  cbn [length numel foldr fmap list_fmap].
  replace (k * 1) with k by lia.
  rewrite (decide_True (P := -1 = -1)), (decide_False (P := k = -1)) by done.
  done.
Qed.

Lemma view_rows_Ok_inv x k y :
  k ≠ -1 -> view x [-1; k] = Ok y ->
  0 < k /\ 0 ≤ numel (shape x) /\ numel (shape x) mod k = 0 /\
  shape y = [numel (shape x) / k; k] /\ dev y = dev x /\ data y = data x.
Proof.
  intros Hk. unfold view. rewrite infer_size_rows by done.
  case_decide as Hc; [|discriminate].
  intros [= <-]. simpl. destruct Hc as (? & ? & ?). done.
Qed.

Lemma view_rows_Ok x k :
  k ≠ -1 -> 0 < k -> 0 ≤ numel (shape x) -> numel (shape x) mod k = 0 ->
  exists y, view x [-1; k] = Ok y /\
    shape y = [numel (shape x) / k; k] /\ dev y = dev x /\ data y = data x.
Proof.
  intros Hk ? ? ?. unfold view. rewrite infer_size_rows by done.
  rewrite decide_True by done. eexists. split; [reflexivity|]. done.
Qed.

(** ** What an architecture says about the registered layers *)

Lemma signature_meta t size d :
  signature t = meta size d -> shape t = size /\ dev t = d.
Proof. unfold signature, meta. intros [= -> ->]. done. Qed.

Lemma layer_signature_Conv2d m i o k s p wsize bsize d :
  layer_signature m = nn.Conv2d i o k s p (meta wsize d) (meta bsize d) ->
  exists w b, m = nn.Conv2d i o k s p w b /\
    shape w = wsize /\ dev w = d /\ shape b = bsize /\ dev b = d.
Proof.
  destruct m as [i' o' k' s' p' w b| | |]; try discriminate.
  cbn. unfold signature, meta. intros Heq. injection Heq. intros. subst.
  exists w, b. auto.
Qed.

Lemma layer_signature_Linear m i o wsize bsize d :
  layer_signature m = nn.Linear i o (meta wsize d) (meta bsize d) ->
  exists w b, m = nn.Linear i o w b /\
    shape w = wsize /\ dev w = d /\ shape b = bsize /\ dev b = d.
Proof.
  destruct m as [|i' o' w b| |]; try discriminate.
  cbn. unfold signature, meta. intros Heq. injection Heq. intros. subst.
  exists w, b. auto.
Qed.

Lemma layer_signature_other m m' :
  layer_signature m = m' -> nn.weight m' = Raise (AttributeError "weight") -> m = m'.
Proof. destruct m; cbn; intros <-; cbn; done. Qed.

Lemma LeNet_architecture_inv net d :
  architecture net = LeNet_architecture d ->
  exists w1 b1 w2 b2 w3 b3 w4 b4,
    nn._modules net =
      [("conv1", nn.Conv2d 1 20 5 1 0 w1 b1);
       ("conv2", nn.Conv2d 20 50 5 1 0 w2 b2);
       ("fc1", nn.Linear (4*4*50) 500 w3 b3);
       ("fc2", nn.Linear 500 10 w4 b4)] /\
    (shape w1 = [20; 1; 5; 5] /\ dev w1 = d /\ shape b1 = [20] /\ dev b1 = d) /\
    (shape w2 = [50; 20; 5; 5] /\ dev w2 = d /\ shape b2 = [50] /\ dev b2 = d) /\
    (shape w3 = [500; 4*4*50] /\ dev w3 = d /\ shape b3 = [500] /\ dev b3 = d) /\
    (shape w4 = [10; 500] /\ dev w4 = d /\ shape b4 = [10] /\ dev b4 = d).
Proof.
  unfold architecture, LeNet_architecture. destruct net as [ms tr]. cbn [nn._modules].
  intros Harch.
  do 4 (destruct ms as [|[? ?] ms]; [discriminate|]).
  destruct ms; [|discriminate].
  cbn in Harch. injection Harch as -> H1 -> H2 -> H3 -> H4.
  apply layer_signature_Conv2d in H1 as (w1 & b1 & -> & ?).
  apply layer_signature_Conv2d in H2 as (w2 & b2 & -> & ?).
  apply layer_signature_Linear in H3 as (w3 & b3 & -> & ?).
  apply layer_signature_Linear in H4 as (w4 & b4 & -> & ?).
  exists w1, b1, w2, b2, w3, b3, w4, b4. done.
Qed.

Lemma SimpleNet_architecture_inv net num_classes d :
  architecture net = SimpleNet_architecture num_classes d ->
  exists w1 b1 w2 b2,
    nn._modules net =
      [("conv1", nn.Conv2d 3 64 11 4 2 w1 b1);
       ("pool1", nn.MaxPool2d 3 2);
       ("dropout1", nn.Dropout p_0_3);
       ("fc1", nn.Linear (64*2*2) num_classes w2 b2)] /\
    (shape w1 = [64; 3; 11; 11] /\ dev w1 = d /\ shape b1 = [64] /\ dev b1 = d) /\
    (shape w2 = [num_classes; 64*2*2] /\ dev w2 = d /\
     shape b2 = [num_classes] /\ dev b2 = d).
Proof.
  unfold architecture, SimpleNet_architecture. destruct net as [ms tr]. cbn [nn._modules].
  intros Harch.
  do 4 (destruct ms as [|[? ?] ms]; [discriminate|]).
  destruct ms; [|discriminate].
  cbn in Harch. injection Harch as -> H1 -> H2 -> H3 -> H4.
  apply layer_signature_Conv2d in H1 as (w1 & b1 & -> & ?).
  apply layer_signature_other in H2 as ->; [|done].
  apply layer_signature_other in H3 as ->; [|done].
  apply layer_signature_Linear in H4 as (w2 & b2 & -> & ?).
  exists w1, b1, w2, b2. done.
Qed.

Lemma M_bind_lift_Ok {S A B} (a : A) (f : A -> M S B) s :
  (lift (Ok a) ≫= f) s = f a s.
Proof. reflexivity. Qed.

Lemma M_bind_lift_Raise {S A B} e (f : A -> M S B) s :
  (lift (Raise e) ≫= f) s = (Raise e, s).
Proof. reflexivity. Qed.

Lemma LeNet_getattr net w1 b1 w2 b2 w3 b3 w4 b4 :
  nn._modules net =
    [("conv1", nn.Conv2d 1 20 5 1 0 w1 b1);
     ("conv2", nn.Conv2d 20 50 5 1 0 w2 b2);
     ("fc1", nn.Linear (4*4*50) 500 w3 b3);
     ("fc2", nn.Linear 500 10 w4 b4)] ->
  nn.getattr net "conv1" = Ok (nn.Conv2d 1 20 5 1 0 w1 b1) /\
  nn.getattr net "conv2" = Ok (nn.Conv2d 20 50 5 1 0 w2 b2) /\
  nn.getattr net "fc1" = Ok (nn.Linear (4*4*50) 500 w3 b3) /\
  nn.getattr net "fc2" = Ok (nn.Linear 500 10 w4 b4).
Proof. unfold nn.getattr. intros ->. repeat split; reflexivity. Qed.

Lemma SimpleNet_getattr net num_classes w1 b1 w2 b2 :
  nn._modules net =
    [("conv1", nn.Conv2d 3 64 11 4 2 w1 b1);
     ("pool1", nn.MaxPool2d 3 2);
     ("dropout1", nn.Dropout p_0_3);
     ("fc1", nn.Linear (64*2*2) num_classes w2 b2)] ->
  nn.getattr net "conv1" = Ok (nn.Conv2d 3 64 11 4 2 w1 b1) /\
  nn.getattr net "pool1" = Ok (nn.MaxPool2d 3 2) /\
  nn.getattr net "dropout1" = Ok (nn.Dropout p_0_3) /\
  nn.getattr net "fc1" = Ok (nn.Linear (64*2*2) num_classes w2 b2).
Proof. unfold nn.getattr. intros ->. repeat split; reflexivity. Qed.

Ltac conv_out_compute H :=
  repeat match type of H with
         | context [F.conv_out ?a ?b ?c ?d] =>
             let v := eval vm_compute in (F.conv_out a b c d) in
             change (F.conv_out a b c d) with v in H
         end.

Ltac conv_out_lia :=
  unfold LeNet_feature_side, SimpleNet_feature_side, F.conv_out in *;
  Z.to_euclidean_division_equations; lia.

Lemma features_nonneg n a b : 0 ≤ n -> 0 < a -> 0 < b -> 0 ≤ n * a * b.
Proof. intros. apply Z.mul_nonneg_nonneg; [apply Z.mul_nonneg_nonneg|]; lia. Qed.

Lemma features_nonneg_inv n a b : 0 ≤ n * a * b -> 0 < a -> 0 < b -> 0 ≤ n.
Proof. intros. nia. Qed.

Section forward_shapes.
Context `{Kernels}.

(** [LeNet.forward] on images of one channel and size [h x w], on the
    device of the parameters: every stage goes through when the images are
    at least 16 x 16 and the feature elements of the input fill whole rows
    of [4*4*50]. *)
Lemma LeNet_forward_Ok net d x g batch h w :
  architecture net = LeNet_architecture d ->
  shape x = batch ++ [1; h; w] -> (length batch ≤ 1)%nat -> dev x = d ->
  0 ≤ numel batch -> 16 ≤ h -> 16 ≤ w ->
  (numel batch * LeNet_feature_side h * LeNet_feature_side w) mod 16 = 0 ->
  exists y, LeNet.forward net x g = (Ok y, g) /\
    shape y = [numel batch * LeNet_feature_side h * LeNet_feature_side w / 16; 10] /\
    dev y = d.
Proof.
  intros Harch Hx Hb Hd Hn Hh Hw Hrows.
  apply LeNet_architecture_inv in Harch
    as (w1 & b1 & w2 & b2 & w3 & b3 & w4 & b4 & Hms &
        (Hw1 & Hd1 & _) & (Hw2 & Hd2 & _) & (Hw3 & Hd3 & _) & (Hw4 & Hd4 & _)).
  apply LeNet_getattr in Hms as (Hc1 & Hc2 & Hf1 & Hf2).
  unfold LeNet.forward. rewrite Hc1, Hc2, Hf1, Hf2. clear Hc1 Hc2 Hf1 Hf2.
  (* conv1, relu, max_pool2d *)
  destruct (conv2d_Ok_batch x w1 b1 1 0 batch 1 h w 20 5 5) as (y1 & Hy1 & Hs1 & He1);
    [done | done | done | congruence | lia..|].
  rewrite M_bind_lift_Ok. cbn [nn.call]. rewrite Hy1, M_bind_lift_Ok.
  destruct (max_pool2d_Ok_batch (F.relu y1) 2 2 batch 20
              (F.conv_out h 5 1 0) (F.conv_out w 5 1 0))
    as (y2 & Hy2 & Hs2 & He2); [done | done | lia | lia | lia | conv_out_lia..|].
  rewrite Hy2, !M_bind_lift_Ok. cbn [nn.call].
  (* conv2, relu, max_pool2d *)
  destruct (conv2d_Ok_batch y2 w2 b2 1 0 batch 20 _ _ 50 5 5 Hs2 Hb Hw2)
    as (y3 & Hy3 & Hs3 & He3); [cbn in *; congruence | lia | lia | conv_out_lia..|].
  rewrite Hy3, M_bind_lift_Ok.
  destruct (max_pool2d_Ok_batch (F.relu y3) 2 2 batch _ _ _ Hs3 Hb)
    as (y4 & Hy4 & Hs4 & He4); [lia | lia | lia | conv_out_lia..|].
  rewrite Hy4, M_bind_lift_Ok.
  fold (LeNet_feature_side h) (LeNet_feature_side w) in Hs4.
  (* view *)
  assert (0 < LeNet_feature_side h /\ 0 < LeNet_feature_side w) as [Hfh Hfw]
    by (split; conv_out_lia).
  pose proof (features_nonneg (numel batch) _ _ Hn Hfh Hfw) as Hnonneg.
  assert (Hnumel : numel (shape y4)
                   = 50 * (numel batch * LeNet_feature_side h * LeNet_feature_side w)).
  { rewrite Hs4. apply numel_batch_planes. }
  destruct (view_rows_Ok y4 (4*4*50)) as (y5 & Hy5 & Hs5 & He5 & _);
    [done | done | lia | rewrite Hnumel; Z.to_euclidean_division_equations; lia |].
  assert (numel (shape y4) / (4*4*50)
          = numel batch * LeNet_feature_side h * LeNet_feature_side w / 16)
    as Hdiv by (rewrite Hnumel; Z.to_euclidean_division_equations; lia).
  rewrite Hdiv in Hs5.
  rewrite Hy5, !M_bind_lift_Ok. cbn [nn.call].
  (* fc1, relu, fc2, log_softmax *)
  destruct (linear_Ok y5 w3 b3 _ (4*4*50) 500 Hs5 Hw3) as (y6 & Hy6 & Hs6 & He6);
    [cbn in *; congruence |].
  rewrite Hy6, !M_bind_lift_Ok. cbn [nn.call].
  destruct (linear_Ok (F.relu y6) w4 b4 _ 500 10 Hs6 Hw4) as (y7 & Hy7 & Hs7 & He7);
    [cbn in *; congruence |].
  rewrite Hy7, M_bind_lift_Ok.
  destruct (log_softmax_Ok y7 _ 10 Hs7) as (y & Hy & Hs & He).
  rewrite Hy. exists y. split; [done|]. split; [done|].
  cbn in *. congruence.
Qed.

Lemma LeNet_forward_28 net d x n g :
  architecture net = LeNet_architecture d ->
  shape x = [n; 1; 28; 28] -> 0 ≤ n -> dev x = d ->
  exists y, LeNet.forward net x g = (Ok y, g) /\ shape y = [n; 10] /\ dev y = d.
Proof.
  intros Harch Hx Hn Hd.
  assert (numel [n] = n) as Hnumel by (cbn [numel foldr]; lia).
  destruct (LeNet_forward_Ok net d x g [n] 28 28 Harch Hx) as (y & Hy & Hs & He);
    [cbn; lia | done | lia | lia | lia | |].
  { rewrite Hnumel. vm_compute LeNet_feature_side.
    Z.to_euclidean_division_equations; lia. }
  exists y. split; [done|]. split; [|done].
  rewrite Hs, Hnumel. do 2 f_equal. vm_compute LeNet_feature_side.
  Z.to_euclidean_division_equations; lia.
Qed.

(** Whatever input [LeNet.forward] accepts: a batch, or one image without
    a batch dimension, of one channel and at least 16 x 16, whose feature
    elements fill whole rows.  The result has two dimensions, the second one
    is 10, and the first one is what [view] inferred. *)
Lemma LeNet_forward_Ok_inv net d x g y g' :
  architecture net = LeNet_architecture d ->
  LeNet.forward net x g = (Ok y, g') ->
  exists batch h wd,
    shape x = batch ++ [1; h; wd] /\ (length batch ≤ 1)%nat /\
    dev x = d /\ g' = g /\ dev y = d /\
    0 ≤ numel batch /\ 16 ≤ h /\ 16 ≤ wd /\
    (numel batch * LeNet_feature_side h * LeNet_feature_side wd) mod 16 = 0 /\
    shape y = [numel batch * LeNet_feature_side h * LeNet_feature_side wd / 16; 10].
Proof.
  intros Harch Hfwd.
  apply LeNet_architecture_inv in Harch
    as (w1 & b1 & w2 & b2 & w3 & b3 & w4 & b4 & Hms &
        (Hw1 & Hd1 & _) & (Hw2 & Hd2 & _) & (Hw3 & Hd3 & _) & (Hw4 & Hd4 & _)).
  apply LeNet_getattr in Hms as (Hc1 & Hc2 & Hf1 & Hf2).
  unfold LeNet.forward in Hfwd. rewrite Hc1, Hc2, Hf1, Hf2 in Hfwd.
  clear Hc1 Hc2 Hf1 Hf2.
  rewrite M_bind_lift_Ok in Hfwd. cbn [nn.call] in Hfwd.
  apply M_bind_Ok_inv in Hfwd as (y1 & g1 & Hy1 & Hfwd).
  apply lift_Ok_inv in Hy1 as [Hy1 ->].
  apply conv2d_Ok_inv in Hy1
    as (batch & c & h & wd & o & kh & kw & Hx & Hb & Hw & Hdx & _ & _ & Hk1 & Hk1' & Hs1 & He1).
  rewrite Hw1 in Hw. injection Hw as <- <- <- <-.
  apply M_bind_Ok_inv in Hfwd as (y2 & g2 & Hy2 & Hfwd).
  apply lift_Ok_inv in Hy2 as [Hy2 ->].
  apply max_pool2d_Ok_inv in Hy2
    as (batch2 & c2 & h2 & wd2 & Hx2 & _ & _ & _ & _ & Hk2 & Hk2' & Hs2 & He2).
  cbn [F.relu shape dev] in Hx2, He2. rewrite Hs1 in Hx2.
  apply batch_planes_inj in Hx2 as (<- & <- & <- & <-).
  rewrite M_bind_lift_Ok in Hfwd. cbn [nn.call] in Hfwd.
  apply M_bind_Ok_inv in Hfwd as (y3 & g3 & Hy3 & Hfwd).
  apply lift_Ok_inv in Hy3 as [Hy3 ->].
  apply conv2d_Ok_inv in Hy3
    as (batch3 & c3 & h3 & wd3 & o3 & kh3 & kw3 & Hx3 & _ & Hw & _ & _ & _ & Hk3 & Hk3' &
        Hs3 & He3).
  rewrite Hw2 in Hw. injection Hw as <- <- <- <-.
  rewrite Hs2 in Hx3. apply batch_planes_inj in Hx3 as (<- & _ & <- & <-).
  apply M_bind_Ok_inv in Hfwd as (y4 & g4 & Hy4 & Hfwd).
  apply lift_Ok_inv in Hy4 as [Hy4 ->].
  apply max_pool2d_Ok_inv in Hy4
    as (batch4 & c4 & h4 & wd4 & Hx4 & _ & _ & _ & _ & Hk4 & Hk4' & Hs4 & He4).
  cbn [F.relu shape dev] in Hx4, He4. rewrite Hs3 in Hx4.
  apply batch_planes_inj in Hx4 as (<- & <- & <- & <-).
  fold (LeNet_feature_side h) (LeNet_feature_side wd) in Hs4.
  apply M_bind_Ok_inv in Hfwd as (y5 & g5 & Hy5 & Hfwd).
  apply lift_Ok_inv in Hy5 as [Hy5 ->].
  apply view_rows_Ok_inv in Hy5 as (_ & Hnonneg & Hrows & Hs5 & He5 & _); [|done].
  rewrite Hs4, numel_batch_planes in Hnonneg, Hrows, Hs5.
  rewrite M_bind_lift_Ok in Hfwd. cbn [nn.call] in Hfwd.
  apply M_bind_Ok_inv in Hfwd as (y6 & g6 & Hy6 & Hfwd).
  apply lift_Ok_inv in Hy6 as [Hy6 ->].
  apply linear_Ok_inv in Hy6 as (k6 & batch6 & o6 & Hx6 & Hw & _ & Hs6 & He6).
  rewrite Hw3 in Hw. injection Hw as <- <-.
  rewrite Hs5 in Hx6. cbn in Hx6. injection Hx6 as <-. cbn in Hs6.
  rewrite M_bind_lift_Ok in Hfwd. cbn [nn.call] in Hfwd.
  apply M_bind_Ok_inv in Hfwd as (y7 & g7 & Hy7 & Hfwd).
  apply lift_Ok_inv in Hy7 as [Hy7 ->].
  apply linear_Ok_inv in Hy7 as (k7 & batch7 & o7 & Hx7 & Hw & _ & Hs7 & He7).
  rewrite Hw4 in Hw. injection Hw as <- <-.
  cbn [F.relu shape dev] in Hx7, He7. rewrite Hs6 in Hx7. cbn in Hx7.
  injection Hx7 as <-. cbn in Hs7.
  apply lift_Ok_inv in Hfwd as [Hy ->].
  apply log_softmax_Ok_inv in Hy as [Hs He].
  assert (16 ≤ h /\ 16 ≤ wd) as [Hh Hwd] by (split; conv_out_lia).
  assert (0 < LeNet_feature_side h /\ 0 < LeNet_feature_side wd) as [Hfh Hfw]
    by (split; conv_out_lia).
  exists batch, h, wd. split; [done|]. split; [done|]. split; [congruence|].
  split; [done|]. split; [congruence|].
  split; [apply (features_nonneg_inv _ (LeNet_feature_side h) (LeNet_feature_side wd));
          [lia | done | done]|].
  split; [done|]. split; [done|].
  revert Hrows Hs Hs7.
  generalize (numel batch * LeNet_feature_side h * LeNet_feature_side wd).
  intros rows Hrows Hs Hs7. split; [Z.to_euclidean_division_equations; lia|].
  rewrite Hs, Hs7. f_equal. Z.to_euclidean_division_equations; lia.
Qed.

Lemma dropout_Ok x p tr g :
  exists y g', F.dropout x p tr g = (Ok y, g') /\
    shape y = shape x /\ dev y = dev x /\ (tr = false -> y = x /\ g' = g).
Proof.
  unfold F.dropout. destruct tr.
  - destruct (dropout_kernel p x g) as [dd g'].
    eexists _, _. split; [reflexivity|]. done.
  - exists x, g. done.
Qed.

(** [SimpleNet.forward] on images of three channels and size [h x w]:
    every stage goes through when the images are at least 15 x 15 and the
    feature elements of the input fill whole rows of [64*2*2]. *)
Lemma SimpleNet_forward_Ok net num_classes d x g batch h w :
  architecture net = SimpleNet_architecture num_classes d ->
  shape x = batch ++ [3; h; w] -> (length batch ≤ 1)%nat -> dev x = d ->
  0 ≤ numel batch -> 15 ≤ h -> 15 ≤ w ->
  (numel batch * SimpleNet_feature_side h * SimpleNet_feature_side w) mod 4 = 0 ->
  exists y g', SimpleNet.forward net x g = (Ok y, g') /\
    shape y = [numel batch * SimpleNet_feature_side h * SimpleNet_feature_side w / 4;
               num_classes] /\
    dev y = d.
Proof.
  intros Harch Hx Hb Hd Hn Hh Hw Hrows.
  apply SimpleNet_architecture_inv in Harch
    as (w1 & b1 & w2 & b2 & Hms & (Hw1 & Hd1 & _) & (Hw2 & Hd2 & _)).
  apply SimpleNet_getattr in Hms as (Hc1 & Hp1 & Hdr & Hf1).
  unfold SimpleNet.forward. rewrite Hc1, Hp1, Hdr, Hf1. clear Hc1 Hp1 Hdr Hf1.
  destruct (conv2d_Ok_batch x w1 b1 4 2 batch 3 h w 64 11 11) as (y1 & Hy1 & Hs1 & He1);
    [done | done | done | congruence | lia..|].
  rewrite M_bind_lift_Ok. cbn [nn.call]. rewrite Hy1, !M_bind_lift_Ok. cbn [nn.call].
  destruct (max_pool2d_Ok_batch (F.relu y1) 3 2 batch _ _ _ Hs1 Hb)
    as (y2 & Hy2 & Hs2 & He2); [lia | lia | lia | conv_out_lia..|].
  rewrite Hy2, M_bind_lift_Ok.
  fold (SimpleNet_feature_side h) (SimpleNet_feature_side w) in Hs2.
  assert (0 < SimpleNet_feature_side h /\ 0 < SimpleNet_feature_side w) as [Hfh Hfw]
    by (split; conv_out_lia).
  pose proof (features_nonneg (numel batch) _ _ Hn Hfh Hfw) as Hnonneg.
  assert (Hnumel : numel (shape y2)
                   = 64 * (numel batch * SimpleNet_feature_side h * SimpleNet_feature_side w)).
  { rewrite Hs2. apply numel_batch_planes. }
  destruct (view_rows_Ok y2 (64*2*2)) as (y3 & Hy3 & Hs3 & He3 & _);
    [done | done | lia | rewrite Hnumel; Z.to_euclidean_division_equations; lia |].
  assert (numel (shape y2) / (64*2*2)
          = numel batch * SimpleNet_feature_side h * SimpleNet_feature_side w / 4)
    as Hdiv by (rewrite Hnumel; Z.to_euclidean_division_equations; lia).
  rewrite Hdiv in Hs3.
  rewrite Hy3, !M_bind_lift_Ok. cbn [nn.call].
  destruct (dropout_Ok y3 p_0_3 (nn.training net) g) as (y4 & g' & Hy4 & Hs4 & He4 & _).
  unfold mbind at 1, M_bind at 1. rewrite Hy4.
  rewrite M_bind_lift_Ok. cbn [nn.call].
  rewrite Hs3 in Hs4.
  destruct (linear_Ok y4 w2 b2 _ (64*2*2) num_classes Hs4 Hw2) as (y & Hy & Hs & He);
    [cbn in *; congruence |].
  rewrite Hy, M_bind_lift_Ok. exists y, g'. split; [done|]. split; [done|].
  cbn in *. congruence.
Qed.

Lemma SimpleNet_forward_23 net num_classes d x n g :
  architecture net = SimpleNet_architecture num_classes d ->
  shape x = [n; 3; 23; 23] -> 0 ≤ n -> dev x = d ->
  exists y g', SimpleNet.forward net x g = (Ok y, g') /\
    shape y = [n; num_classes] /\ dev y = d.
Proof.
  intros Harch Hx Hn Hd.
  assert (numel [n] = n) as Hnumel by (cbn [numel foldr]; lia).
  destruct (SimpleNet_forward_Ok net num_classes d x g [n] 23 23 Harch Hx)
    as (y & g' & Hy & Hs & He); [cbn; lia | done | lia | lia | lia | |].
  { rewrite Hnumel. vm_compute SimpleNet_feature_side.
    Z.to_euclidean_division_equations; lia. }
  exists y, g'. split; [done|]. split; [|done].
  rewrite Hs, Hnumel. do 2 f_equal. vm_compute SimpleNet_feature_side.
  Z.to_euclidean_division_equations; lia.
Qed.

(** Whatever input [SimpleNet.forward] accepts. *)
Lemma SimpleNet_forward_Ok_inv net num_classes d x g y g' :
  architecture net = SimpleNet_architecture num_classes d ->
  SimpleNet.forward net x g = (Ok y, g') ->
  exists batch h wd,
    shape x = batch ++ [3; h; wd] /\ (length batch ≤ 1)%nat /\
    dev x = d /\ dev y = d /\
    0 ≤ numel batch /\ 15 ≤ h /\ 15 ≤ wd /\
    (numel batch * SimpleNet_feature_side h * SimpleNet_feature_side wd) mod 4 = 0 /\
    shape y = [numel batch * SimpleNet_feature_side h * SimpleNet_feature_side wd / 4;
               num_classes].
Proof.
  intros Harch Hfwd.
  apply SimpleNet_architecture_inv in Harch
    as (w1 & b1 & w2 & b2 & Hms & (Hw1 & Hd1 & _) & (Hw2 & Hd2 & _)).
  apply SimpleNet_getattr in Hms as (Hc1 & Hp1 & Hdr & Hf1).
  unfold SimpleNet.forward in Hfwd. rewrite Hc1, Hp1, Hdr, Hf1 in Hfwd.
  clear Hc1 Hp1 Hdr Hf1.
  rewrite M_bind_lift_Ok in Hfwd. cbn [nn.call] in Hfwd.
  apply M_bind_Ok_inv in Hfwd as (y1 & g1 & Hy1 & Hfwd).
  apply lift_Ok_inv in Hy1 as [Hy1 ->].
  apply conv2d_Ok_inv in Hy1
    as (batch & c & h & wd & o & kh & kw & Hx & Hb & Hw & Hdx & _ & _ & Hk1 & Hk1' & Hs1 & He1).
  rewrite Hw1 in Hw. injection Hw as <- <- <- <-.
  rewrite M_bind_lift_Ok in Hfwd. cbn [nn.call] in Hfwd.
  apply M_bind_Ok_inv in Hfwd as (y2 & g2 & Hy2 & Hfwd).
  apply lift_Ok_inv in Hy2 as [Hy2 ->].
  apply max_pool2d_Ok_inv in Hy2
    as (batch2 & c2 & h2 & wd2 & Hx2 & _ & _ & _ & _ & Hk2 & Hk2' & Hs2 & He2).
  cbn [F.relu shape dev] in Hx2, He2. rewrite Hs1 in Hx2.
  apply batch_planes_inj in Hx2 as (<- & <- & <- & <-).
  fold (SimpleNet_feature_side h) (SimpleNet_feature_side wd) in Hs2.
  apply M_bind_Ok_inv in Hfwd as (y3 & g3 & Hy3 & Hfwd).
  apply lift_Ok_inv in Hy3 as [Hy3 ->].
  apply view_rows_Ok_inv in Hy3 as (_ & Hnonneg & Hrows & Hs3 & He3 & _); [|done].
  rewrite Hs2, numel_batch_planes in Hnonneg, Hrows, Hs3.
  rewrite M_bind_lift_Ok in Hfwd. cbn [nn.call] in Hfwd.
  apply M_bind_Ok_inv in Hfwd as (y4 & g4 & Hy4 & Hfwd).
  destruct (dropout_Ok y3 p_0_3 (nn.training net) g) as (y4' & g4' & Hy4' & Hs4 & He4 & _).
  rewrite Hy4' in Hy4. injection Hy4 as <- <-.
  rewrite M_bind_lift_Ok in Hfwd. cbn [nn.call] in Hfwd.
  apply M_bind_Ok_inv in Hfwd as (y5 & g5 & Hy5 & Hfwd).
  apply lift_Ok_inv in Hy5 as [Hy5 ->].
  apply linear_Ok_inv in Hy5 as (k5 & batch5 & o5 & Hx5 & Hw & _ & Hs5 & He5).
  rewrite Hw2 in Hw. injection Hw as <- <-.
  rewrite Hs4, Hs3 in Hx5. cbn in Hx5. injection Hx5 as <-. cbn in Hs5.
  injection Hfwd as <- <-.
  assert (15 ≤ h /\ 15 ≤ wd) as [Hh Hwd] by (split; conv_out_lia).
  assert (0 < SimpleNet_feature_side h /\ 0 < SimpleNet_feature_side wd) as [Hfh Hfw]
    by (split; conv_out_lia).
  exists batch, h, wd. split; [done|]. split; [done|]. split; [congruence|].
  split; [congruence|].
  split; [apply (features_nonneg_inv _ (SimpleNet_feature_side h)
                   (SimpleNet_feature_side wd)); [lia | done | done]|].
  split; [done|]. split; [done|].
  revert Hrows Hs5.
  generalize (numel batch * SimpleNet_feature_side h * SimpleNet_feature_side wd).
  intros rows Hrows Hs5. split; [Z.to_euclidean_division_equations; lia|].
  rewrite Hs5. f_equal. Z.to_euclidean_division_equations; lia.
Qed.
End forward_shapes.

(** ** Construction *)

Lemma M_bind_Ok {S A B} (m : M S A) (f : A -> M S B) s a s1 :
  m s = (Ok a, s1) -> (m ≫= f) s = f a s1.
Proof. unfold mbind, M_bind. intros ->. done. Qed.

Lemma M_bind_Raise {S A B} (m : M S A) (f : A -> M S B) s e s1 :
  m s = (Raise e, s1) -> (m ≫= f) s = (Raise e, s1).
Proof. unfold mbind, M_bind. intros ->. done. Qed.

Section construction.
Context `{Kernels}.

Lemma new_tensor_Ok size elements :
  Forall (fun d => 0 ≤ d) size -> nn.new_tensor size elements = Ok (mkTensor size elements cpu).
Proof. intros Hsize. unfold nn.new_tensor. by rewrite decide_True. Qed.

Lemma Conv2d_new_Ok i o k s p g :
  0 ≤ i ∧ 0 ≤ o ∧ 0 ≤ k ->
  exists w b g',
    nn.Conv2d_new i o k s p g = (Ok (nn.Conv2d i o k s p w b), g') /\
    shape w = [o; i; k; k] /\ dev w = cpu /\ shape b = [o] /\ dev b = cpu.
Proof.
  intros (Hi & Ho & Hk). unfold nn.Conv2d_new.
  destruct (reset_parameters_kernel [o; i; k; k] [o] g) as [[w b] g'].
  rewrite !new_tensor_Ok by (repeat constructor; lia).
  eexists _, _, _. split; [reflexivity|]. done.
Qed.

Lemma Linear_new_Ok i o g :
  0 ≤ i ∧ 0 ≤ o ->
  exists w b g',
    nn.Linear_new i o g = (Ok (nn.Linear i o w b), g') /\
    shape w = [o; i] /\ dev w = cpu /\ shape b = [o] /\ dev b = cpu.
Proof.
  intros (Hi & Ho). unfold nn.Linear_new.
  destruct (reset_parameters_kernel [o; i] [o] g) as [[w b] g'].
  rewrite !new_tensor_Ok by (repeat constructor; lia).
  eexists _, _, _. split; [reflexivity|]. done.
Qed.

(** A layer with a negative number of output features cannot be built:
    the tensor of its weight cannot. *)
Lemma Linear_new_negative i o g :
  o < 0 ->
  exists msg, nn.Linear_new i o g = (Raise (RuntimeError msg), g).
Proof.
  intros Ho. unfold nn.Linear_new, nn.new_tensor.
  destruct (reset_parameters_kernel [o; i] [o] g) as [[w b] g'].
  rewrite (decide_False (P := Forall _ [o; i])).
  2:{ intros Hsize. apply Forall_cons in Hsize as [? _]. lia. }
  by eexists.
Qed.

Lemma kaiming_normal__Ok t nl g :
  exists t' g',
    nn.kaiming_normal_ t nl g = (Ok t', g') /\
    shape t' = shape t /\ dev t' = dev t /\ kaiming_initialised nl t'.
Proof.
  unfold nn.kaiming_normal_, kaiming_initialised.
  destruct (kaiming_normal_kernel nl (shape t) g) as [d g'] eqn:Hk.
  eexists _, _. split; [reflexivity|]. cbn. repeat split.
  exists g. by rewrite Hk.
Qed.

Lemma fill__zero b : is_zero (fill_ b zero) /\
  shape (fill_ b zero) = shape b /\ dev (fill_ b zero) = dev b.
Proof. done. Qed.

(** The loop [for m in self.modules()] runs its body once per registered
    layer, in order; no iteration fails when the body does not. *)
Lemma for_modules_Ok (body : nn.Layer -> M Generator nn.Layer) (P : nn.Layer -> nn.Layer -> Prop) :
  (forall m g, exists m' g', body m g = (Ok m', g') /\ P m m') ->
  forall ms g, exists ms' g',
    nn.for_modules body ms g = (Ok ms', g') /\
    Forall2 (fun nm nm' => nm.1 = nm'.1 /\ P nm.2 nm'.2) ms ms'.
Proof.
  intros Hbody ms. induction ms as [|[name m] ms IH]; intros g.
  - exists [], g. split; [reflexivity | constructor].
  - cbn [nn.for_modules].
    destruct (Hbody m g) as (m' & g1 & Hm & HP).
    destruct (IH g1) as (ms' & g2 & Hms & HF).
    rewrite (M_bind_Ok _ _ _ _ _ Hm), (M_bind_Ok _ _ _ _ _ Hms).
    exists ((name, m') :: ms'), g2. split; [reflexivity|].
    constructor; [done | exact HF].
Qed.

Lemma SimpleNet_body_Ok m g :
  exists m' g',
    (if decide (nn.type_of m ∈ [nn.Conv2d_t; nn.Linear_t]) then
       w ← lift (nn.weight m);
       w ← nn.kaiming_normal_ w relu_nl;
       b ← lift (nn.bias m);
       mret (nn.set_bias (nn.set_weight m w) (fill_ b zero))
     else mret m) g = (Ok m', g') /\ reinitialised relu_nl m m'.
Proof.
  destruct m as [i o k s p w b|i o w b|k s|p]; cbn [nn.type_of].
  - rewrite decide_True by (rewrite !elem_of_cons; auto). cbn [nn.weight nn.bias].
    rewrite M_bind_lift_Ok.
    destruct (kaiming_normal__Ok w relu_nl g) as (w' & g' & Hk & ?).
    rewrite (M_bind_Ok _ _ _ _ _ Hk), M_bind_lift_Ok.
    eexists _, _. split; [reflexivity|]. exists w'. done.
  - rewrite decide_True by (rewrite !elem_of_cons; auto). cbn [nn.weight nn.bias].
    rewrite M_bind_lift_Ok.
    destruct (kaiming_normal__Ok w relu_nl g) as (w' & g' & Hk & ?).
    rewrite (M_bind_Ok _ _ _ _ _ Hk), M_bind_lift_Ok.
    eexists _, _. split; [reflexivity|]. exists w'. done.
  - rewrite decide_False by (rewrite !elem_of_cons, elem_of_nil; intuition discriminate). eexists _, _. done.
  - rewrite decide_False by (rewrite !elem_of_cons, elem_of_nil; intuition discriminate). eexists _, _. done.
Qed.

Lemma LeNet_body_Ok m g :
  exists m' g',
    (if decide (nn.type_of m ∈ [nn.Linear_t; nn.Conv2d_t]) then
       w ← lift (nn.weight m);
       w ← nn.kaiming_normal_ w leaky_relu_nl;
       b ← lift (nn.bias m);
       mret (nn.set_bias (nn.set_weight m w) (fill_ b zero))
     else mret m) g = (Ok m', g') /\ reinitialised leaky_relu_nl m m'.
Proof.
  destruct m as [i o k s p w b|i o w b|k s|p]; cbn [nn.type_of].
  - rewrite decide_True by (rewrite !elem_of_cons; auto). cbn [nn.weight nn.bias].
    rewrite M_bind_lift_Ok.
    destruct (kaiming_normal__Ok w leaky_relu_nl g) as (w' & g' & Hk & ?).
    rewrite (M_bind_Ok _ _ _ _ _ Hk), M_bind_lift_Ok.
    eexists _, _. split; [reflexivity|]. exists w'. done.
  - rewrite decide_True by (rewrite !elem_of_cons; auto). cbn [nn.weight nn.bias].
    rewrite M_bind_lift_Ok.
    destruct (kaiming_normal__Ok w leaky_relu_nl g) as (w' & g' & Hk & ?).
    rewrite (M_bind_Ok _ _ _ _ _ Hk), M_bind_lift_Ok.
    eexists _, _. split; [reflexivity|]. exists w'. done.
  - rewrite decide_False by (rewrite !elem_of_cons, elem_of_nil; intuition discriminate). eexists _, _. done.
  - rewrite decide_False by (rewrite !elem_of_cons, elem_of_nil; intuition discriminate). eexists _, _. done.
Qed.

Lemma reinitialised_Conv2d nl i o k s p w b m' :
  reinitialised nl (nn.Conv2d i o k s p w b) m' ->
  exists w', m' = nn.Conv2d i o k s p w' (fill_ b zero) /\
    shape w' = shape w /\ dev w' = dev w /\ kaiming_initialised nl w'.
Proof. done. Qed.

Lemma reinitialised_Linear nl i o w b m' :
  reinitialised nl (nn.Linear i o w b) m' ->
  exists w', m' = nn.Linear i o w' (fill_ b zero) /\
    shape w' = shape w /\ dev w' = dev w /\ kaiming_initialised nl w'.
Proof. done. Qed.

(** The layers [LeNet.__init__] registers, as the loop leaves them. *)
Lemma LeNet_init_layers g :
  exists w1 b1 w2 b2 w3 b3 w4 b4 g',
    LeNet.__init__ g =
      (Ok {| nn._modules :=
               [("conv1", nn.Conv2d 1 20 5 1 0 w1 (fill_ b1 zero));
                ("conv2", nn.Conv2d 20 50 5 1 0 w2 (fill_ b2 zero));
                ("fc1", nn.Linear (4*4*50) 500 w3 (fill_ b3 zero));
                ("fc2", nn.Linear 500 10 w4 (fill_ b4 zero))];
             nn.training := true |}, g') /\
    (shape w1 = [20; 1; 5; 5] /\ dev w1 = cpu /\ shape b1 = [20] /\ dev b1 = cpu /\
     kaiming_initialised leaky_relu_nl w1) /\
    (shape w2 = [50; 20; 5; 5] /\ dev w2 = cpu /\ shape b2 = [50] /\ dev b2 = cpu /\
     kaiming_initialised leaky_relu_nl w2) /\
    (shape w3 = [500; 4*4*50] /\ dev w3 = cpu /\ shape b3 = [500] /\ dev b3 = cpu /\
     kaiming_initialised leaky_relu_nl w3) /\
    (shape w4 = [10; 500] /\ dev w4 = cpu /\ shape b4 = [10] /\ dev b4 = cpu /\
     kaiming_initialised leaky_relu_nl w4).
Proof.
  unfold LeNet.__init__.
  destruct (Conv2d_new_Ok 1 20 5 1 0 g ltac:(lia)) as (w1 & b1 & g1 & Hnew1 & ? & ? & ? & ?).
  rewrite (M_bind_Ok _ _ _ _ _ Hnew1).
  destruct (Conv2d_new_Ok 20 50 5 1 0 g1 ltac:(lia)) as (w2 & b2 & g2 & Hnew2 & ? & ? & ? & ?).
  rewrite (M_bind_Ok _ _ _ _ _ Hnew2).
  destruct (Linear_new_Ok (4*4*50) 500 g2 ltac:(lia)) as (w3 & b3 & g3 & Hnew3 & ? & ? & ? & ?).
  rewrite (M_bind_Ok _ _ _ _ _ Hnew3).
  destruct (Linear_new_Ok 500 10 g3 ltac:(lia)) as (w4 & b4 & g4 & Hnew4 & ? & ? & ? & ?).
  rewrite (M_bind_Ok _ _ _ _ _ Hnew4).
  match goal with
  | |- context [nn.for_modules ?body ?ms] =>
      destruct (for_modules_Ok body (reinitialised leaky_relu_nl) LeNet_body_Ok ms g4)
        as (ms' & g' & Hloop & HF)
  end.
  rewrite (M_bind_Ok _ _ _ _ _ Hloop).
  repeat match goal with
         | HF : Forall2 _ (_ :: _) _ |- _ =>
             apply Forall2_cons_inv_l in HF as ([? ?] & ? & [? ?] & HF & ->)
         | HF : Forall2 _ [] _ |- _ => apply Forall2_nil_inv_l in HF as ->
         end.
  cbn [fst snd] in *. subst.
  repeat match goal with
         | Hr : reinitialised _ (nn.Conv2d _ _ _ _ _ _ _) _ |- _ =>
             apply reinitialised_Conv2d in Hr as (? & -> & ? & ? & ?)
         | Hr : reinitialised _ (nn.Linear _ _ _ _) _ |- _ =>
             apply reinitialised_Linear in Hr as (? & -> & ? & ? & ?)
         end.
  eexists _, b1, _, b2, _, b3, _, b4, g'. split; [reflexivity|].
  repeat split; congruence.
Qed.

(** The layers [SimpleNet.__init__] registers, as the loop leaves them. *)
Lemma SimpleNet_init_layers num_classes g :
  0 ≤ num_classes ->
  exists w1 b1 w2 b2 g',
    SimpleNet.__init__ num_classes g =
      (Ok {| nn._modules :=
               [("conv1", nn.Conv2d 3 64 11 4 2 w1 (fill_ b1 zero));
                ("pool1", nn.MaxPool2d 3 2);
                ("dropout1", nn.Dropout p_0_3);
                ("fc1", nn.Linear (64*2*2) num_classes w2 (fill_ b2 zero))];
             nn.training := true |}, g') /\
    (shape w1 = [64; 3; 11; 11] /\ dev w1 = cpu /\ shape b1 = [64] /\ dev b1 = cpu /\
     kaiming_initialised relu_nl w1) /\
    (shape w2 = [num_classes; 64*2*2] /\ dev w2 = cpu /\
     shape b2 = [num_classes] /\ dev b2 = cpu /\
     kaiming_initialised relu_nl w2).
Proof.
  intros Hnum. unfold SimpleNet.__init__.
  destruct (Conv2d_new_Ok 3 64 11 4 2 g ltac:(lia)) as (w1 & b1 & g1 & Hnew1 & ? & ? & ? & ?).
  rewrite (M_bind_Ok _ _ _ _ _ Hnew1). cbv zeta.
  destruct (Linear_new_Ok (64*2*2) num_classes g1 ltac:(lia)) as (w2 & b2 & g2 & Hnew2 & ? & ? & ? & ?).
  rewrite (M_bind_Ok _ _ _ _ _ Hnew2).
  match goal with
  | |- context [nn.for_modules ?body ?ms] =>
      destruct (for_modules_Ok body (reinitialised relu_nl) SimpleNet_body_Ok ms g2)
        as (ms' & g' & Hloop & HF)
  end.
  rewrite (M_bind_Ok _ _ _ _ _ Hloop).
  repeat match goal with
         | HF : Forall2 _ (_ :: _) _ |- _ =>
             apply Forall2_cons_inv_l in HF as ([? ?] & ? & [? ?] & HF & ->)
         | HF : Forall2 _ [] _ |- _ => apply Forall2_nil_inv_l in HF as ->
         end.
  cbn [fst snd] in *. subst.
  repeat match goal with
         | Hr : reinitialised _ (nn.Conv2d _ _ _ _ _ _ _) _ |- _ =>
             apply reinitialised_Conv2d in Hr as (? & -> & ? & ? & ?)
         | Hr : reinitialised _ (nn.Linear _ _ _ _) _ |- _ =>
             apply reinitialised_Linear in Hr as (? & -> & ? & ? & ?)
         | Hr : reinitialised _ (nn.MaxPool2d _ _) _ |- _ => cbn in Hr; subst
         | Hr : reinitialised _ (nn.Dropout _) _ |- _ => cbn in Hr; subst
         end.
  eexists _, b1, _, b2, g'. split; [reflexivity|].
  repeat split; congruence.
Qed.
End construction.


(** ** Inference without the random generator *)

Lemma stateless_lift {S A} (r : result A) : stateless (lift (S := S) r).
Proof. exists r. done. Qed.

Lemma stateless_ret {S A} (a : A) : stateless (mret (M := M S) a).
Proof. exists (Ok a). done. Qed.

Lemma stateless_bind {S A B} (m : M S A) (f : A -> M S B) :
  stateless m -> (forall a, stateless (f a)) -> stateless (m ≫= f).
Proof.
  intros [[a|e] Hm] Hf.
  - destruct (Hf a) as [r Hr]. exists r. intros s.
    by rewrite (M_bind_Ok _ _ _ _ _ (Hm s)).
  - exists (Raise e). intros s. by rewrite (M_bind_Raise _ _ _ _ _ (Hm s)).
Qed.

Lemma stateless_run {S A} (m : M S A) s s' :
  stateless m -> (m s).2 = s /\ (m s').1 = (m s).1.
Proof. intros [r Hr]. by rewrite !Hr. Qed.

Section inference.
Context `{Kernels}.

Lemma call_eval_stateless m x : stateless (nn.call m false x).
Proof. destruct m; cbn [nn.call F.dropout]; first [apply stateless_lift | apply stateless_ret]. Qed.

(** No layer other than dropout looks at the mode flag or the generator. *)
Lemma call_stateless m tr x :
  nn.type_of m ≠ nn.Dropout_t -> stateless (nn.call m tr x).
Proof. destruct m; cbn [nn.call nn.type_of]; try done; intros _; apply stateless_lift. Qed.

Lemma SimpleNet_forward_eval_stateless net x :
  stateless (SimpleNet.forward (nn.eval net) x).
Proof.
  unfold SimpleNet.forward. cbn [nn.eval nn.training].
  repeat first
    [ apply stateless_ret
    | apply stateless_lift
    | apply call_eval_stateless
    | apply stateless_bind; [|intros ?] ].
Qed.

Lemma LeNet_forward_eval_stateless net x :
  stateless (LeNet.forward (nn.eval net) x).
Proof.
  unfold LeNet.forward. cbn [nn.eval nn.training].
  repeat first
    [ apply stateless_ret
    | apply stateless_lift
    | apply call_eval_stateless
    | apply stateless_bind; [|intros ?] ].
Qed.
End inference.

(** ** Claims about the models of notebooks 2 and 3 *)

Section models.
Context `{Kernels}.

Lemma LeNet_init_architecture g :
  exists net g',
    LeNet.__init__ g = (Ok net, g') /\ nn.training net = true /\
    forall d, architecture (nn.net_to net d) = LeNet_architecture d.
Proof.
  destruct (LeNet_init_layers g)
    as (w1 & b1 & w2 & b2 & w3 & b3 & w4 & b4 & g' & Hinit &
        (Hw1 & _ & Hb1 & _) & (Hw2 & _ & Hb2 & _) &
        (Hw3 & _ & Hb3 & _) & (Hw4 & _ & Hb4 & _)).
  eexists _, g'. split; [exact Hinit|]. split; [done|]. intros d.
  destruct w1, b1, w2, b2, w3, b3, w4, b4. cbn in *. by subst.
Qed.

Lemma SimpleNet_init_architecture num_classes g :
  0 ≤ num_classes ->
  exists net g',
    SimpleNet.__init__ num_classes g = (Ok net, g') /\ nn.training net = true /\
    forall d, architecture (nn.net_to net d) = SimpleNet_architecture num_classes d.
Proof.
  intros Hnum.
  destruct (SimpleNet_init_layers num_classes g Hnum)
    as (w1 & b1 & w2 & b2 & g' & Hinit & (Hw1 & _ & Hb1 & _) & (Hw2 & _ & Hb2 & _)).
  eexists _, g'. split; [exact Hinit|]. split; [done|]. intros d.
  destruct w1, b1, w2, b2. cbn in *. by subst.
Qed.

(** With fewer than zero classes the last layer cannot be built: the
    constructor raises once the convolution exists. *)
Lemma SimpleNet_init_negative num_classes g :
  num_classes < 0 ->
  exists msg g', SimpleNet.__init__ num_classes g = (Raise (RuntimeError msg), g').
Proof.
  intros Hnum. unfold SimpleNet.__init__.
  destruct (Conv2d_new_Ok 3 64 11 4 2 g ltac:(lia)) as (w1 & b1 & g1 & Hnew1 & _).
  rewrite (M_bind_Ok _ _ _ _ _ Hnew1). cbv zeta.
  destruct (Linear_new_negative (64*2*2) num_classes g1 Hnum) as [msg Hnew2].
  rewrite (M_bind_Raise _ _ _ _ _ Hnew2). by exists msg, g1.
Qed.


(** The rows [view] infers, for a batch [[n]] and for one image. *)
Lemma batch_rows (batch : list Z) (c a b k : Z) :
  (length batch ≤ 1)%nat -> 0 < c -> k = 16 \/ k = 4 ->
  exists n,
    (batch = [n] \/ batch = [] /\ n = 1) /\
    numel batch * a * b / k = n * c * a * b / (k * c) /\
    (a * b = k -> numel batch * a * b / k = n).
Proof.
  intros Hb Hc Hk.
  assert (exists n, (batch = [n] \/ batch = [] /\ n = 1) /\ numel batch = n) as (n & Hn & ->).
  { destruct batch as [|n [|]]; cbn in Hb; [| |lia].
    - exists 1. split; [by right | done].
    - exists n. split; [by left | cbn [numel foldr]; lia]. }
  exists n. split; [done|]. split.
  - replace (n * c * a * b) with (c * (n * a * b)) by ring.
    generalize (n * a * b). intros rows.
    destruct Hk as [-> | ->]; Z.to_euclidean_division_equations; nia.
  - intros Hside. replace (n * a * b) with (n * (a * b)) by ring.
    rewrite Hside. destruct Hk as [-> | ->]; by apply Z_div_mult.
Qed.


(** After [model.eval()], a second inference on the same input, run from
    the generator state the first one left, returns what the first one
    returned, and neither moves the generator. *)
Lemma eval_inference_repeats net x g :
  let model := nn.eval net in
  (SimpleNet.forward model x (SimpleNet.forward model x g).2).1 =
    (SimpleNet.forward model x g).1 /\
  (SimpleNet.forward model x g).2 = g /\
  (LeNet.forward model x (LeNet.forward model x g).2).1 =
    (LeNet.forward model x g).1 /\
  (LeNet.forward model x g).2 = g.
Proof.
  intros model.
  pose proof (SimpleNet_forward_eval_stateless net x) as HS.
  pose proof (LeNet_forward_eval_stateless net x) as HL.
  split; [apply (stateless_run _ g _ HS)|].
  split; [apply (stateless_run _ g g HS)|].
  split; [apply (stateless_run _ g _ HL)|].
  apply (stateless_run _ g g HL).
Qed.
End models.




(** C5.  In evaluation mode two successive inferences on the same input
    return the same result, for [SimpleNet] (which has a dropout layer) and
    for [LeNet], whatever the kernels compute.  In training mode this is not
    guaranteed: there are kernels, a freshly built [SimpleNet], an input and a
    generator state for which the two results differ. *)
Theorem eval_mode_inference_is_deterministic :
  (forall (K : Kernels) net x g,
      let model := nn.eval net in
      (SimpleNet.forward model x (SimpleNet.forward model x g).2).1 =
        (SimpleNet.forward model x g).1 /\
      (LeNet.forward model x (LeNet.forward model x g).2).1 =
        (LeNet.forward model x g).1) /\
  (exists (K : Kernels) net x g,
      nn.training net = true /\
      (SimpleNet.forward net x (SimpleNet.forward net x g).2).1 <>
        (SimpleNet.forward net x g).1).
Proof.
  split.
  - intros K net x g model.
    destruct (eval_inference_repeats net x g) as (HS & _ & HL & _). done.
  - exists Sample.kernels, Sample.a_SimpleNet, (Sample.ones [1; 3; 23; 23] cpu), 0.
    split; [reflexivity|]. intros Heq.
    apply (f_equal (fun r => match r with Ok y => data y 0 | Raise _ => 0 end)) in Heq.
    vm_compute in Heq. discriminate.
Qed.

(** ** Running scripts *)

Section scripts.
Context {E : Type -> Type} {W : Type}.
Variable h : forall X, E X -> M W X.

Lemma run_bind {A B} (p : prog E A) (f : A -> prog E B) w :
  run h (p ≫= f) w = (run h p ≫= fun a => run h (f a)) w.
Proof.
  revert w. induction p as [a|X e k IH]; intros w; [reflexivity|].
  change (Vis e k ≫= f) with (Vis e (fun x => k x ≫= f)).
  cbn [run]. unfold mbind at 1 3 4, M_bind.
  destruct (h X e w) as [[x|err] w']; [|reflexivity].
  rewrite IH. reflexivity.
Qed.

Lemma calls_bind {N A B} (name : forall X, E X -> N) (p : prog E A) (f : A -> prog E B) w :
  calls h name (p ≫= f) w =
    calls h name p w ++
    match run h p w with
    | (Ok a, w') => calls h name (f a) w'
    | (Raise _, _) => []
    end.
Proof.
  change (p ≫= f) with (prog_bind f p).
  revert w. induction p as [a|X e k IH]; intros w; [reflexivity|].
  cbn [prog_bind calls run]. unfold mbind, M_bind.
  destruct (h X e w) as [[x|err] w']; [|reflexivity].
  rewrite IH. reflexivity.
Qed.

Lemma run_trigger {X} (e : E X) w : run h (trigger e) w = h X e w.
Proof.
  unfold trigger. cbn [run]. unfold mbind, M_bind.
  destruct (h X e w) as [[x|err] w']; reflexivity.
Qed.
End scripts.

(** ** The training cell *)

Section training_order.
Import Notebook3.
Context {W : Type}.
Variable h : forall X, torchE X -> M W X.
Variable device : device.

Lemma steps_bind {A B} (p : prog torchE A) (f : A -> prog torchE B) w :
  steps h (p ≫= f) w =
    steps h p w ++
    match run h p w with
    | (Ok a, w') => steps h (f a) w'
    | (Raise _, _) => []
    end.
Proof.
  unfold Notebook3.steps. rewrite calls_bind, filter_app.
  by destruct (run h p w) as [[a|e] w'].
Qed.

Lemma train_batch_steps epoch total batch_ind batch w :
  match run h (train_batch device epoch total batch_ind batch) w with
  | (Ok _, _) => steps h (train_batch device epoch total batch_ind batch) w = per_batch_steps
  | (Raise _, _) =>
      steps h (train_batch device epoch total batch_ind batch) w `prefix_of` per_batch_steps
  end.
Proof.
  destruct batch as [input_data target_data]. unfold train_batch, Notebook3.steps.
  destruct (decide (batch_ind mod print_every = 0));
    cbn [mbind prog_mbind prog_bind trigger run calls];
    unfold mbind, M_bind;
    repeat match goal with
           | |- context [h ?X ?e ?w'] => destruct (h X e w') as [[?|?] ?]
           end;
    cbn [step_of]; first [reflexivity | by eexists].
Qed.

(** What a loop performs: the steps of its iterations one after the
    other; if an iteration raises, the loop stops there. *)
Lemma for_each_steps {A} (xs : list A) (body : A -> prog torchE unit)
    (per : A -> list step) :
  (forall x w,
      match run h (body x) w with
      | (Ok _, _) => steps h (body x) w = per x
      | (Raise _, _) => steps h (body x) w `prefix_of` per x
      end) ->
  forall w,
    match run h (for_each xs body) w with
    | (Ok _, _) => steps h (for_each xs body) w = flat_map per xs
    | (Raise _, _) => steps h (for_each xs body) w `prefix_of` flat_map per xs
    end.
Proof.
  intros Hbody. induction xs as [|x xs IH]; intros w; [reflexivity|].
  cbn [for_each flat_map]. rewrite run_bind, steps_bind.
  specialize (Hbody x w). unfold mbind at 1, M_bind at 1.
  destruct (run h (body x) w) as [[[]|e] w1].
  - rewrite Hbody. specialize (IH w1).
    destruct (run h (for_each xs body) w1) as [[[]|e] w2].
    + by rewrite IH.
    + by apply prefix_app.
  - rewrite app_nil_r. by apply prefix_app_r.
Qed.

Lemma flat_map_const_length {A B C} (l : list C) (xs : list A) (ys : list B) :
  length xs = length ys ->
  flat_map (fun _ => l) xs = flat_map (fun _ => l) ys.
Proof.
  revert ys. induction xs as [|x xs IH]; intros [|y ys] Hlen; try done.
  cbn. f_equal. apply IH. by injection Hlen.
Qed.

Lemma length_enumerate {A} (xs : list A) : length (enumerate xs) = length xs.
Proof. unfold enumerate. rewrite length_zip, length_seqZ. lia. Qed.

Lemma epoch_steps (train_data_loader : Z -> list Batch) epoch w :
  let body :=
    (let batches := train_data_loader epoch in
     _ ← for_each (enumerate batches) (fun '(batch_ind, batch) =>
            train_batch device epoch (Z.of_nat (length batches)) batch_ind batch);
     trigger (print empty_line)) in
  let expected := flat_map (fun _ => per_batch_steps) (train_data_loader epoch) in
  match run h body w with
  | (Ok _, _) => steps h body w = expected
  | (Raise _, _) => steps h body w `prefix_of` expected
  end.
Proof.
  cbv zeta. rewrite run_bind, steps_bind.
  rewrite <- (flat_map_const_length per_batch_steps
                (enumerate (train_data_loader epoch)) (train_data_loader epoch))
    by apply length_enumerate.
  match goal with
  | |- context [for_each ?xs ?body] =>
      pose proof (for_each_steps xs body (fun _ => per_batch_steps)) as Hloop
  end.
  cbv beta in Hloop. specialize (Hloop (fun '(i, b) w' => train_batch_steps _ _ i b w') w).
  unfold mbind at 1, M_bind at 1.
  match type of Hloop with
  | context [run h ?p w] => destruct (run h p w) as [[[]|e] w1]
  end.
  - rewrite Hloop, run_trigger. unfold Notebook3.steps, trigger. cbn [calls step_of].
    destruct (h () (print empty_line) w1) as [[[]|e] w2]; cbn; by rewrite app_nil_r.
  - by rewrite app_nil_r.
Qed.
End training_order.

Section training_cell.
Import Notebook3.

Lemma training_cell_steps {W} (h : forall X, torchE X -> M W X) device
    (train_data_loader : Z -> list Batch) w :
  let expected :=
    flat_map (fun epoch => flat_map (fun _ => per_batch_steps) (train_data_loader epoch))
             (seqZ 0 epochs) in
  match run h (training_cell device train_data_loader) w with
  | (Ok _, _) => steps h (training_cell device train_data_loader) w = expected
  | (Raise _, _) =>
      steps h (training_cell device train_data_loader) w `prefix_of` expected
  end.
Proof.
  cbv zeta. unfold training_cell.
  apply (for_each_steps h (seqZ 0 epochs) _
           (fun epoch => flat_map (fun _ => per_batch_steps) (train_data_loader epoch))).
  intros epoch w'. apply (epoch_steps h device train_data_loader epoch w').
Qed.

Context `{Kernels}.

(** No call of the cells changes the optimizer's learning rate. *)
Lemma handle_keeps_lr X (e : torchE X) w :
  lr (optimizer (handle X e w).2) = lr (optimizer w).
Proof.
  destruct e; cbn [handle]; try reflexivity.
  - unfold do_model_call. by destruct (LeNet.forward _ _ _).
  - unfold do_cross_entropy.
    destruct (shape output) as [|? [|? [|]]]; try reflexivity;
      destruct (lshape target) as [|? [|]]; try reflexivity.
    by repeat case_decide.
  - unfold do_backward. by destruct (graph w) as [[? ?]|].
  - unfold do_argmax. by case_decide.
  - unfold do_eq_view_as_sum. by case_decide.
Qed.

Lemma run_invariant {R} (P : World -> Prop) (p : prog torchE R) w :
  (forall X (e : torchE X) w', P w' -> P (handle X e w').2) ->
  P w -> P (run handle p w).2.
Proof.
  intros Hh. revert w. induction p as [r|X e k IH]; intros w Hw; [done|].
  cbn [run]. unfold mbind, M_bind.
  specialize (Hh X e w Hw).
  destruct (handle X e w) as [[x|err] w']; [by apply IH | done].
Qed.
End training_cell.

(** C1.  Whatever the library calls return, the training cell performs,
    for every batch the loader yields, the per-batch steps in this order:
    move the input and the target to the device, forward the input through
    the model, compute the loss, clear the gradients, propagate backward,
    update the parameters.  If a call raises, the cell stops there, having
    performed a prefix of that sequence; if the cell completes, it has
    performed exactly the whole sequence.  The update is the one of the
    [optim.Adam] built by the setup cells, whose learning rate is and stays
    0.001. *)
Theorem training_cell_step_order :
  (forall (W : Type) (h : forall X, Notebook3.torchE X -> M W X) device
          (train_data_loader : Z -> list Notebook3.Batch) w,
      let performed :=
        Notebook3.steps h (Notebook3.training_cell device train_data_loader) w in
      let expected :=
        flat_map (fun epoch =>
                    flat_map (fun _ => Notebook3.per_batch_steps) (train_data_loader epoch))
                 (seqZ 0 Notebook3.epochs) in
      performed `prefix_of` expected /\
      ((run h (Notebook3.training_cell device train_data_loader) w).1 = Ok tt ->
       performed = expected)) /\
  (forall (K : Kernels) device g,
      match Notebook3.setup_cells device g with
      | Ok w =>
          Notebook3.lr (Notebook3.optimizer w) = Notebook3.lr_0_001 /\
          forall train_data_loader,
            Notebook3.lr (Notebook3.optimizer
              (run Notebook3.handle
                 (Notebook3.training_cell device train_data_loader) w).2)
            = Notebook3.lr_0_001
      | Raise _ => False
      end).
Proof.
  split.
  - intros W h device loader w performed expected.
    pose proof (training_cell_steps h device loader w) as Hsteps. cbv zeta in Hsteps.
    fold performed expected in Hsteps.
    destruct (run h (Notebook3.training_cell device loader) w) as [[[]|e] w'].
    + split; [by rewrite Hsteps | done].
    + split; [done | discriminate].
  - intros K device g. unfold Notebook3.setup_cells.
    destruct (LeNet_init_architecture g) as (net & g' & -> & _).
    split; [reflexivity|]. intros loader.
    apply (run_invariant (fun w => Notebook3.lr (Notebook3.optimizer w) = Notebook3.lr_0_001));
      [|reflexivity].
    intros X e w' Hw'. by rewrite handle_keeps_lr.
Qed.

Lemma training_cell_step_order_witness :
  let loader := fun _ : Z => [Sample.a_batch; Sample.a_batch] in
  Notebook3.steps (Notebook3.handle (H := Sample.kernels))
    (Notebook3.training_cell cpu loader) Sample.a_world
  = Notebook3.per_batch_steps ++ Notebook3.per_batch_steps.
Proof.
  intros loader.
  destruct training_cell_step_order as [Horder _].
  destruct (Horder _ (Notebook3.handle (H := Sample.kernels)) cpu loader Sample.a_world)
    as [_ Hcomplete].
  apply Hcomplete. vm_compute. reflexivity.
Defined.

(** ** The evaluation cell *)

Section never.
Context {E : Type -> Type}.
Variable bad : forall X, E X -> Prop.

Lemma never_bind {A B} (p : prog E A) (f : A -> prog E B) :
  never bad p -> (forall a, never bad (f a)) -> never bad (p ≫= f).
Proof.
  change (p ≫= f) with (prog_bind f p).
  intros Hp Hf. induction p as [a|X e k IH]; cbn [prog_bind never]; [done|].
  destruct Hp as [He Hk]. split; [done|]. intros x. by apply IH.
Qed.

Lemma never_trigger {X} (e : E X) : ¬ bad X e -> never bad (trigger e).
Proof. intros He. by split. Qed.

Lemma never_for_fold {A B} (xs : list A) (acc : B) (body : B -> A -> prog E B) :
  (forall acc x, never bad (body acc x)) -> never bad (for_fold xs acc body).
Proof.
  intros Hbody. revert acc. induction xs as [|x xs IH]; intros acc; [done|].
  cbn [for_fold]. apply never_bind; [apply Hbody|]. intros acc'. apply IH.
Qed.
End never.

Section evaluation_cell.
Import Notebook3.
Context `{Kernels}.

Lemma evaluation_cell_never_trains device test_data_loader len_MNIST_test :
  never (@trains) (evaluation_cell device test_data_loader len_MNIST_test).
Proof.
  unfold evaluation_cell.
  repeat first
    [ apply never_trigger; cbn; tauto
    | apply never_for_fold; intros ? [? ?]; unfold test_batch
    | apply never_bind; [|intros ?]
    | exact I ].
Qed.

(** A call that does not train leaves the model, the gradients and the
    optimizer as they are. *)
Lemma handle_frame X (e : torchE X) w :
  ¬ trains e ->
  model (handle X e w).2 = model w /\
  grad (handle X e w).2 = grad w /\
  optimizer (handle X e w).2 = optimizer w.
Proof.
  destruct e; cbn [trains handle]; try tauto; intros _; try done.
  - unfold do_model_call. by destruct (LeNet.forward _ _ _).
  - unfold do_cross_entropy.
    destruct (shape output) as [|? [|? [|]]]; try done;
      destruct (lshape target) as [|? [|]]; try done.
    by repeat case_decide.
  - unfold do_argmax. by case_decide.
  - unfold do_eq_view_as_sum. by case_decide.
Qed.

Lemma run_frame {R} (p : prog torchE R) w :
  never (@trains) p ->
  model (run handle p w).2 = model w /\
  grad (run handle p w).2 = grad w /\
  optimizer (run handle p w).2 = optimizer w.
Proof.
  revert w. induction p as [r|X e k IH]; intros w Hp; [done|].
  destruct Hp as [He Hk]. cbn [run]. unfold mbind, M_bind.
  pose proof (handle_frame X e w He) as (Hm & Hg & Ho).
  destruct (handle X e w) as [[x|err] w']; [|done].
  destruct (IH x w' (Hk x)) as (Hm' & Hg' & Ho').
  cbn [snd] in *. repeat split; congruence.
Qed.

(** C8.  The evaluation cell changes no parameter: when it ends, by
    completing or by a raised error, the model (every layer with its
    weight and bias, and the mode flag) is the one it started with, and so
    are the gradients and the optimizer.  The cell makes no call to
    [zero_grad], [backward] or [step]. *)
Theorem evaluation_cell_keeps_parameters device test_data_loader len_MNIST_test w :
  let cell := evaluation_cell device test_data_loader len_MNIST_test in
  let w' := (run handle cell w).2 in
  never (@trains) cell /\
  model w' = model w /\
  nn.named_parameters (model w') = nn.named_parameters (model w) /\
  grad w' = grad w /\
  optimizer w' = optimizer w.
Proof.
  intros cell w'.
  pose proof (evaluation_cell_never_trains device test_data_loader len_MNIST_test) as Hn.
  destruct (run_frame cell w Hn) as (Hm & Hg & Ho). fold w' in Hm, Hg, Ho.
  split; [done|]. split; [done|]. split; [by rewrite Hm | done].
Qed.
End evaluation_cell.

(** ** [CustomDataset] *)

Lemma np_dtype_unbound :
  ("np" ∉ CustomDataset.notebook_names) /\ ("dtype" ∉ CustomDataset.notebook_names).
Proof. split; vm_compute; intros Hin; discriminate Hin. Qed.



(** ** Checkpoints *)

Section checkpoints.
Import Notebook4.

(** An entry of the shape of its parameter is compared and copied as it
    is. *)
Lemma input_param_for_same_shape (param input_param : Tensor) :
  shape input_param = shape param ->
  input_param_for param input_param = Ok input_param.
Proof.
  intros Hs. unfold input_param_for. rewrite decide_False; [done|].
  rewrite Hs. lia.
Qed.

(** What the entry becomes depends on the parameter through its shape
    only. *)
Lemma input_param_for_shape (param param' input_param : Tensor) :
  shape param' = shape param ->
  input_param_for param' input_param = input_param_for param input_param.
Proof. unfold input_param_for. by intros ->. Qed.

Lemma loads_same_shape (param input_param : Tensor) :
  shape input_param = shape param -> loads param (Some input_param).
Proof. intros Hs. cbn. by rewrite input_param_for_same_shape. Qed.

Lemma load_parameter_same_shape (param input_param : Tensor) :
  shape input_param = shape param ->
  load_parameter param (Some input_param) = copy_ param input_param.
Proof.
  intros Hs. cbn. rewrite input_param_for_same_shape by done. by rewrite decide_True.
Qed.

Lemma load_parameter_layout (param : Tensor) (entry : option Tensor) :
  shape (load_parameter param entry) = shape param /\
  dev (load_parameter param entry) = dev param.
Proof.
  unfold load_parameter. destruct entry as [input_param|]; [|done].
  destruct (input_param_for param input_param); [|done]. by case_decide.
Qed.

(** A load that takes no first element, or only of entries that have one,
    visits every parameter. *)
Lemma visit_all (sd ps : gmap string Tensor) (names : list string) :
  (forall name, stops sd ps name = None) -> visit sd ps names = (names, None).
Proof.
  intros Hstops. induction names as [|name names IH]; [done|].
  cbn [visit]. by rewrite Hstops, IH.
Qed.

Lemma stops_same_shapes (sd : gmap string Tensor) (self : Model) name :
  shape <$> sd = shape <$> parameters self -> stops sd (parameters self) name = None.
Proof.
  intros Heq. unfold stops.
  destruct (parameters self !! name) as [param|] eqn:Hp; [|done].
  destruct (sd !! name) as [input_param|] eqn:Hq; [|done].
  apply (f_equal (fun m => m !! name)) in Heq. rewrite !lookup_fmap, Hp, Hq in Heq.
  injection Heq as Heq. by rewrite input_param_for_same_shape.
Qed.

(** The record fits the model when it has the same keys, each entry of the
    shape of the parameter. *)
Lemma fits_same_shapes (sd : gmap string Tensor) (self : Model) :
  shape <$> sd = shape <$> parameters self ->
  map_Forall (fun key param => loads param (sd !! key)) (parameters self)
    ∧ dom sd ⊆ dom (parameters self).
Proof.
  intros Heq. split.
  - intros key p Hp.
    assert ((shape <$> sd) !! key = Some (shape p)) as Hs.
    { by rewrite Heq, lookup_fmap, Hp. }
    rewrite lookup_fmap in Hs. destruct (sd !! key) as [q|]; [|done].
    injection Hs as Hs. by apply loads_same_shape.
  - rewrite <- (dom_fmap_L shape sd), Heq, dom_fmap_L. done.
Qed.

(** The load when no first element is missing: every parameter is
    visited, and the error, if any, is raised at the end. *)
Lemma load_state_dict_result (sd : gmap string Tensor) (self : Model) :
  (forall name, stops sd (parameters self) name = None) ->
  load_state_dict sd self =
    (if decide (map_Forall (fun key param => loads param (sd !! key)) (parameters self)
                ∧ dom sd ⊆ dom (parameters self))
     then Ok tt
     else Raise (RuntimeError "Error(s) in loading state_dict"),
     {| parameters :=
          map_imap (fun key param => Some (load_parameter param (sd !! key)))
                   (parameters self);
        names := names self |}).
Proof.
  intros Hstops. unfold load_state_dict. rewrite (visit_all _ _ _ Hstops).
  by case_decide.
Qed.

Lemma lookup_loaded (sd : gmap string Tensor) (self : Model) key :
  (forall name, stops sd (parameters self) name = None) ->
  parameters (load_state_dict sd self).2 !! key =
    (fun param => load_parameter param (sd !! key)) <$> parameters self !! key.
Proof.
  intros Hstops. rewrite load_state_dict_result by done. cbn. rewrite map_lookup_imap.
  by destruct (parameters self !! key).
Qed.

(** Whatever the record, a parameter is left as it was or loaded from its
    entry, and the order of the names stays. *)
Lemma lookup_loaded_cases (sd : gmap string Tensor) (self : Model) key :
  parameters (load_state_dict sd self).2 !! key = parameters self !! key \/
  parameters (load_state_dict sd self).2 !! key =
    (fun param => load_parameter param (sd !! key)) <$> parameters self !! key.
Proof.
  unfold load_state_dict.
  destruct (visit sd (parameters self) (names self)) as [visited [e|]].
  - cbn. rewrite map_lookup_imap.
    destruct (parameters self !! key) as [param|]; [|by left]. cbn.
    case_decide; [by right | by left].
  - right. case_decide; cbn; rewrite map_lookup_imap;
      by destruct (parameters self !! key).
Qed.

(** Loading what a model of the same architecture saved gives its values. *)
Lemma load_state_dict_same_architecture (saved fresh : Model) :
  same_architecture saved fresh ->
  (load_state_dict (state_dict saved) fresh).1 = Ok tt /\
  parameter_values (load_state_dict (state_dict saved) fresh).2 = parameter_values saved.
Proof.
  unfold same_architecture, state_dict. intros Harch.
  pose proof (fun name => stops_same_shapes (parameters saved) fresh name Harch) as Hstops.
  split.
  - rewrite load_state_dict_result by done. cbn.
    rewrite decide_True; [done|]. by apply fits_same_shapes.
  - apply map_eq. intros key. unfold parameter_values.
    rewrite !lookup_fmap, lookup_loaded by done.
    assert (shape <$> parameters saved !! key = shape <$> parameters fresh !! key) as Hk.
    { by rewrite <- !lookup_fmap, Harch. }
    destruct (parameters fresh !! key) as [p|], (parameters saved !! key) as [q|];
      try done.
    cbn in Hk. injection Hk as Hk.
    cbn [fmap option_fmap option_map]. rewrite load_parameter_same_shape by done.
    cbn. by rewrite Hk.
Qed.

Lemma save_state_cell_run w :
  save_state_cell w =
    (Ok tt,
     {| files :=
          <[PATH_2 := Dict {[ "epoch" := Int 30;
                              "state_dict" := StateDict (state_dict (model w));
                              "optimizer" :=
                                OptimizerStateDict (optimizer_state_dict (optimizer w)) ]}]>
            (files w);
        model := model w; optimizer := optimizer w |}).
Proof. reflexivity. Qed.

(** C6.  The state-only save always succeeds and writes, under its path,
    a mapping with exactly three keys: ['state_dict'] holds the parameter
    values of the model, ['optimizer'] the state of the optimizer, and
    ['epoch'] the number 30.  The model and the optimizer are not changed
    by saving. *)
Theorem state_only_save_record w :
  let w' := (save_state_cell w).2 in
  (save_state_cell w).1 = Ok tt /\
  model w' = model w /\ optimizer w' = optimizer w /\
  exists record,
    files w' !! PATH_2 = Some (Dict record) /\
    record !! "state_dict" = Some (StateDict (state_dict (model w))) /\
    record !! "optimizer" = Some (OptimizerStateDict (optimizer_state_dict (optimizer w))) /\
    record !! "epoch" = Some (Int 30) /\
    dom record = {[ "state_dict"; "optimizer"; "epoch" ]}.
Proof.
  intros w'. subst w'. rewrite save_state_cell_run. cbn [fst snd files model optimizer].
  split; [done|]. split; [done|]. split; [done|].
  eexists. split; [apply lookup_insert_eq|].
  split; [reflexivity|]. split; [reflexivity|]. split; [reflexivity|].
  rewrite !dom_insert_L, dom_singleton_L. set_solver.
Qed.

(** The load cell on a record of the expected form: the model is
    loaded first; the optimizer only if that did not raise. *)
Lemma load_cell_run w record sd osd :
  files w !! PATH_2 = Some (Dict record) ->
  record !! "state_dict" = Some (StateDict sd) ->
  record !! "optimizer" = Some (OptimizerStateDict osd) ->
  load_cell w =
    match load_state_dict sd (model w) with
    | (Ok _, m') =>
        (fun ro => (ro.1, {| files := files w; model := m'; optimizer := ro.2 |}))
          (optimizer_load_state_dict osd (optimizer w))
    | (Raise e, m') =>
        (Raise e, {| files := files w; model := m'; optimizer := optimizer w |})
    end.
Proof.
  intros Hfile Hsd Hosd. unfold load_cell.
  assert (load PATH_2 w = (Ok (Dict record), w)) as Hload.
  { unfold load. by rewrite Hfile. }
  rewrite (M_bind_Ok _ _ _ _ _ Hload).
  cbn [getitem]. rewrite Hsd, Hosd, M_bind_lift_Ok.
  unfold mbind at 1, M_bind at 1. unfold on_model.
  destruct (load_state_dict sd (model w)) as [[[]|e] m']; [|reflexivity].
  rewrite M_bind_lift_Ok. unfold on_optimizer. cbn [model files optimizer].
  by destruct (optimizer_load_state_dict osd (optimizer w)).
Qed.

Lemma save_then_load_run w fresh_model fresh_optimizer :
  save_then_load fresh_model fresh_optimizer w =
    load_cell
      {| files :=
           <[PATH_2 := Dict {[ "epoch" := Int 30;
                               "state_dict" := StateDict (state_dict (model w));
                               "optimizer" :=
                                 OptimizerStateDict (optimizer_state_dict (optimizer w)) ]}]>
             (files w);
         model := fresh_model; optimizer := fresh_optimizer |}.
Proof. reflexivity. Qed.

Lemma loaded_learning_rates (groups saved : list ParamGroup) :
  length groups = length saved ->
  lr <$> zip_with (fun g sg => {| lr := sg.1; params := params g |}) groups
           ((fun g => (lr g, length (params g))) <$> saved)
  = lr <$> saved.
Proof.
  revert saved. induction groups as [|g groups IH]; intros [|s saved] Hlen; try done.
  cbn. f_equal. apply IH. by injection Hlen.
Qed.



(** The comparison of an entry with its parameter, spelled out: the entry
    loads when it has the shape of the parameter, or when the parameter has
    no dimension and the entry has one, with a first element. *)
Lemma loads_iff (param input_param : Tensor) :
  loads param (Some input_param) <->
  shape input_param = shape param \/
  shape param = [] /\ exists k, shape input_param = [k] /\ 0 < k.
Proof.
  cbn. unfold input_param_for, first_element.
  destruct (shape param) as [|d ds] eqn:Hp.
  - destruct (shape input_param) as [|k [|k' ks]] eqn:Hq.
    + rewrite decide_False by (cbn; lia). rewrite Hq. split; [by left | done].
    + rewrite decide_True by done. case_decide; cbn.
      * split; [|done]. intros _. right. split; [done|]. by exists k.
      * split; [done|]. intros [|(_ & k0 & [= ->] & ?)]; [done | lia].
    + rewrite decide_False by (cbn; lia). rewrite Hq.
      split; [done|]. intros [|(_ & k0 & ? & _)]; done.
  - rewrite decide_False by (cbn; lia). split; [by left|].
    intros [|(? & _)]; done.
Qed.



End checkpoints.

(** * Further results *)

(** ** Which inputs the models accept *)

Section domains.
Context `{Kernels}.

Lemma convolution_raises x w b s p : runtime_error_only (F.convolution x w b s p).
Proof.
  unfold F.convolution, runtime_error_only.
  repeat case_match; simplify_eq; eauto.
Qed.

Lemma conv2d_raises x w b s p : runtime_error_only (F.conv2d x w b s p).
Proof.
  unfold F.conv2d.
  destruct (shape x) as [|d1 [|d2 [|d3 [|d4 [|]]]]]; try (cbn; by eauto).
  - pose proof (convolution_raises (unsqueeze x) w b s p) as Hr.
    by destruct (F.convolution (unsqueeze x) w b s p).
  - apply convolution_raises.
Qed.

Lemma max_pool2d_raises x k s : runtime_error_only (F.max_pool2d x k s).
Proof.
  unfold F.max_pool2d, F.pool, runtime_error_only.
  repeat case_match; simplify_eq; eauto.
Qed.

Lemma linear_raises x w b : runtime_error_only (F.linear x w b).
Proof.
  unfold F.linear, runtime_error_only.
  repeat case_match; simplify_eq; eauto.
Qed.

Lemma log_softmax_raises x dim : runtime_error_only (F.log_softmax x dim).
Proof.
  unfold F.log_softmax, runtime_error_only.
  repeat case_match; simplify_eq; eauto.
Qed.

Lemma view_rows_raises x k : k ≠ -1 -> runtime_error_only (view x [-1; k]).
Proof.
  intros Hk. unfold view, runtime_error_only. rewrite infer_size_rows by done.
  case_decide; cbn; eauto.
Qed.

(** One fallible stage of a forward pass, followed by the rest. *)
Lemma lift_stage {A B} (r : result A) (f : A -> M Generator B) g :
  runtime_error_only r ->
  (forall a, r = Ok a ->
     (exists b g', f a g = (Ok b, g')) \/
     (exists msg, f a g = (Raise (RuntimeError msg), g))) ->
  (exists b g', (lift r ≫= f) g = (Ok b, g')) \/
  (exists msg, (lift r ≫= f) g = (Raise (RuntimeError msg), g)).
Proof.
  intros Hr Hf. destruct r as [a|e].
  - rewrite M_bind_lift_Ok. by apply Hf.
  - destruct Hr as [msg ->]. right. by exists msg.
Qed.

(** [LeNet.forward] on a batch of [n] images of one channel and size
    [h x w], on the device of the parameters: every stage goes through when
    the images are at least 16 x 16 and the feature elements of the batch
    fill whole rows of [4*4*50]. *)
Lemma LeNet_forward_accepts net d x g n h w :
  architecture net = LeNet_architecture d ->
  shape x = [n; 1; h; w] -> dev x = d -> 0 < n -> 16 ≤ h -> 16 ≤ w ->
  (n * LeNet_feature_side h * LeNet_feature_side w) mod 16 = 0 ->
  exists y, LeNet.forward net x g = (Ok y, g) /\
    shape y = [n * LeNet_feature_side h * LeNet_feature_side w / 16; 10] /\ dev y = d.
Proof.
  intros Harch Hx Hd Hn Hh Hw Hrows.
  assert (numel [n] = n) as Hnumel by (cbn [numel foldr]; lia).
  destruct (LeNet_forward_Ok net d x g [n] h w Harch Hx) as (y & Hy & Hs & He);
    [cbn; lia | done | lia | done | done | by rewrite Hnumel |].
  exists y. by rewrite Hnumel in Hs.
Qed.

(** What an accepted batch of [LeNet.forward] looks like. *)
Lemma LeNet_forward_Ok_domain net d x g y g' n c h w :
  architecture net = LeNet_architecture d ->
  shape x = [n; c; h; w] ->
  LeNet.forward net x g = (Ok y, g') ->
  c = 1 /\ dev x = d /\ 16 ≤ h /\ 16 ≤ w /\
  (n * LeNet_feature_side h * LeNet_feature_side w) mod 16 = 0.
Proof.
  intros Harch Hx Hfwd.
  destruct (LeNet_forward_Ok_inv net d x g y g' Harch Hfwd)
    as (batch & h' & w' & Hx' & Hb & Hd & _ & _ & _ & Hh & Hw & Hrows & _).
  rewrite Hx in Hx'. destruct batch as [|n' [|]]; cbn in Hx', Hb; [discriminate | | lia].
  injection Hx' as -> -> -> ->. cbn [numel foldr] in Hrows.
  rewrite Z.mul_1_r in Hrows. done.
Qed.

(** A forward pass of [LeNet] returns, or raises [RuntimeError]; the random
    generator is not used. *)
Lemma LeNet_forward_raises net d x g :
  architecture net = LeNet_architecture d ->
  (exists y g', LeNet.forward net x g = (Ok y, g')) \/
  (exists msg, LeNet.forward net x g = (Raise (RuntimeError msg), g)).
Proof.
  intros Harch.
  apply LeNet_architecture_inv in Harch
    as (w1 & b1 & w2 & b2 & w3 & b3 & w4 & b4 & Hms & _).
  apply LeNet_getattr in Hms as (Hc1 & Hc2 & Hf1 & Hf2).
  unfold LeNet.forward. rewrite Hc1, Hc2, Hf1, Hf2. clear Hc1 Hc2 Hf1 Hf2.
  rewrite M_bind_lift_Ok. cbn [nn.call].
  apply lift_stage; [apply conv2d_raises|]. intros y1 _.
  apply lift_stage; [apply max_pool2d_raises|]. intros y2 _.
  rewrite M_bind_lift_Ok. cbn [nn.call].
  apply lift_stage; [apply conv2d_raises|]. intros y3 _.
  apply lift_stage; [apply max_pool2d_raises|]. intros y4 _.
  apply lift_stage; [by apply view_rows_raises|]. intros y5 _.
  rewrite M_bind_lift_Ok. cbn [nn.call].
  apply lift_stage; [apply linear_raises|]. intros y6 _.
  rewrite M_bind_lift_Ok. cbn [nn.call].
  apply lift_stage; [apply linear_raises|]. intros y7 _.
  pose proof (log_softmax_raises y7 1) as Hr.
  destruct (F.log_softmax y7 1) as [y|e].
  - left. by exists y, g.
  - destruct Hr as [msg ->]. right. by exists msg.
Qed.

(** [SimpleNet.forward] on a batch of [n] images of three channels and
    size [h x w]: every stage goes through when the images are at least
    15 x 15 and the feature elements of the batch fill whole rows of
    [64*2*2]. *)
Lemma SimpleNet_forward_accepts net num_classes d x g n h w :
  architecture net = SimpleNet_architecture num_classes d ->
  shape x = [n; 3; h; w] -> dev x = d -> 0 < n -> 15 ≤ h -> 15 ≤ w ->
  (n * SimpleNet_feature_side h * SimpleNet_feature_side w) mod 4 = 0 ->
  exists y g', SimpleNet.forward net x g = (Ok y, g') /\
    shape y = [n * SimpleNet_feature_side h * SimpleNet_feature_side w / 4; num_classes] /\
    dev y = d.
Proof.
  intros Harch Hx Hd Hn Hh Hw Hrows.
  assert (numel [n] = n) as Hnumel by (cbn [numel foldr]; lia).
  destruct (SimpleNet_forward_Ok net num_classes d x g [n] h w Harch Hx)
    as (y & g' & Hy & Hs & He);
    [cbn; lia | done | lia | done | done | by rewrite Hnumel |].
  exists y, g'. by rewrite Hnumel in Hs.
Qed.

(** What an accepted batch of [SimpleNet.forward] looks like. *)
Lemma SimpleNet_forward_Ok_domain net num_classes d x g y g' n c h w :
  architecture net = SimpleNet_architecture num_classes d ->
  shape x = [n; c; h; w] ->
  SimpleNet.forward net x g = (Ok y, g') ->
  c = 3 /\ dev x = d /\ 15 ≤ h /\ 15 ≤ w /\
  (n * SimpleNet_feature_side h * SimpleNet_feature_side w) mod 4 = 0.
Proof.
  intros Harch Hx Hfwd.
  destruct (SimpleNet_forward_Ok_inv net num_classes d x g y g' Harch Hfwd)
    as (batch & h' & w' & Hx' & Hb & Hd & _ & _ & Hh & Hw & Hrows & _).
  rewrite Hx in Hx'. destruct batch as [|n' [|]]; cbn in Hx', Hb; [discriminate | | lia].
  injection Hx' as -> -> -> ->. cbn [numel foldr] in Hrows.
  rewrite Z.mul_1_r in Hrows. done.
Qed.

(** A forward pass of [SimpleNet] returns, or raises [RuntimeError] from
    the state of the random generator it started in. *)
Lemma SimpleNet_forward_raises net num_classes d x g :
  architecture net = SimpleNet_architecture num_classes d ->
  (exists y g', SimpleNet.forward net x g = (Ok y, g')) \/
  (exists msg, SimpleNet.forward net x g = (Raise (RuntimeError msg), g)).
Proof.
  intros Harch.
  pose proof Harch as Harch'.
  apply SimpleNet_architecture_inv in Harch
    as (w1 & b1 & w2 & b2 & Hms & (Hw1 & Hd1 & _) & (Hw2 & Hd2 & _)).
  apply SimpleNet_getattr in Hms as (Hc1 & Hp1 & Hdr & Hf1).
  unfold SimpleNet.forward. rewrite Hc1, Hp1, Hdr, Hf1.
  rewrite M_bind_lift_Ok. cbn [nn.call].
  apply lift_stage; [apply conv2d_raises|]. intros y1 Hy1.
  rewrite M_bind_lift_Ok. cbn [nn.call].
  apply lift_stage; [apply max_pool2d_raises|]. intros y2 Hy2.
  apply lift_stage; [by apply view_rows_raises|]. intros y3 Hy3.
  rewrite M_bind_lift_Ok. cbn [nn.call].
  (* once [view] has returned, nothing raises *)
  left.
  apply view_rows_Ok_inv in Hy3 as (_ & _ & _ & Hs3 & He3 & _); [|done].
  apply max_pool2d_Ok_inv in Hy2
    as (batch2 & c2 & h2 & wd2 & _ & _ & _ & _ & _ & _ & _ & _ & He2).
  apply conv2d_Ok_inv in Hy1
    as (batch & c & h & wd & o & kh & kw & _ & _ & _ & Hdx & _ & _ & _ & _ & _ & He1).
  destruct (dropout_Ok y3 p_0_3 (nn.training net) g) as (y4 & g' & Hy4 & Hs4 & He4 & _).
  unfold mbind at 1, M_bind at 1. rewrite Hy4.
  rewrite M_bind_lift_Ok. cbn [nn.call].
  rewrite Hs3 in Hs4.
  destruct (linear_Ok y4 w2 b2 _ (64*2*2) num_classes Hs4 Hw2) as (y & Hy & _);
    [cbn in *; congruence |].
  rewrite Hy, M_bind_lift_Ok. by exists y, g'.
Qed.

(** X1.  Which batches [LeNet.forward] accepts.  On a batch of [n >= 1]
    images with [c] channels and size [h x w], the forward pass returns
    exactly when the images have one channel and are at least 16 x 16, the
    batch is on the device of the parameters, and its feature elements fill
    whole rows of [4*4*50] ([n] times the two sides of the last feature map
    is a multiple of 16).  In every other case it raises [RuntimeError].
    The random generator is left as it was either way. *)
Theorem LeNet_forward_domain net d x g n c h w :
  architecture net = LeNet_architecture d ->
  shape x = [n; c; h; w] -> 0 < n ->
  let accepted :=
    c = 1 /\ dev x = d /\ 16 ≤ h /\ 16 ≤ w /\
    (n * LeNet_feature_side h * LeNet_feature_side w) mod 16 = 0 in
  ((exists y, LeNet.forward net x g = (Ok y, g)) <-> accepted) /\
  ((exists msg, LeNet.forward net x g = (Raise (RuntimeError msg), g)) <-> ¬ accepted).
Proof.
  intros Harch Hx Hn accepted.
  assert ((exists y, LeNet.forward net x g = (Ok y, g)) <-> accepted) as Hok.
  { split.
    - intros [y Hy].
      exact (LeNet_forward_Ok_domain net d x g y g n c h w Harch Hx Hy).
    - intros (-> & Hd & Hh & Hw & Hrows).
      destruct (LeNet_forward_accepts net d x g n h w) as (y & Hy & _); by eauto. }
  split; [exact Hok|]. split.
  - intros [msg Hraise] Hacc. apply Hok in Hacc as [y Hy]. congruence.
  - intros Hrej. destruct (LeNet_forward_raises net d x g Harch) as [(y & g' & Hy)|Hraise];
      [|done].
    destruct Hrej.
    exact (LeNet_forward_Ok_domain net d x g y g' n c h w Harch Hx Hy).
Qed.

(** X2.  Which batches [SimpleNet.forward] accepts.  On a batch of
    [n >= 1] images with [c] channels and size [h x w], the forward pass
    returns exactly when the images have three channels and are at least
    15 x 15, the batch is on the device of the parameters, and its feature
    elements fill whole rows of [64*2*2] ([n] times the two sides of the
    pooled feature map is a multiple of 4).  In every other case it raises
    [RuntimeError], without drawing from the random generator. *)
Theorem SimpleNet_forward_domain net num_classes d x g n c h w :
  architecture net = SimpleNet_architecture num_classes d ->
  shape x = [n; c; h; w] -> 0 < n ->
  let accepted :=
    c = 3 /\ dev x = d /\ 15 ≤ h /\ 15 ≤ w /\
    (n * SimpleNet_feature_side h * SimpleNet_feature_side w) mod 4 = 0 in
  ((exists y g', SimpleNet.forward net x g = (Ok y, g')) <-> accepted) /\
  ((exists msg, SimpleNet.forward net x g = (Raise (RuntimeError msg), g)) <-> ¬ accepted).
Proof.
  intros Harch Hx Hn accepted.
  assert ((exists y g', SimpleNet.forward net x g = (Ok y, g')) <-> accepted) as Hok.
  { split.
    - intros (y & g' & Hy).
      exact (SimpleNet_forward_Ok_domain net num_classes d x g y g' n c h w Harch Hx Hy).
    - intros (-> & Hd & Hh & Hw & Hrows).
      destruct (SimpleNet_forward_accepts net num_classes d x g n h w)
        as (y & g' & Hy & _); by eauto. }
  split; [exact Hok|]. split.
  - intros [msg Hraise] Hacc. apply Hok in Hacc as (y & g' & Hy). congruence.
  - intros Hrej.
    destruct (SimpleNet_forward_raises net num_classes d x g Harch) as [Hy|Hraise]; [|done].
    by apply Hok in Hy.
Qed.
End domains.

Lemma LeNet_forward_domain_witness :
  (exists y,
      LeNet.forward (H := Sample.kernels) Sample.a_LeNet
        (Sample.ones [16; 1; 16; 16] cpu) 0 = (Ok y, 0)) /\
  (exists msg,
      LeNet.forward (H := Sample.kernels) Sample.a_LeNet
        (Sample.ones [1; 1; 28; 28] cuda) 0 = (Raise (RuntimeError msg), 0)).
Proof.
  split.
  - apply (LeNet_forward_domain (H := Sample.kernels) Sample.a_LeNet cpu
             (Sample.ones [16; 1; 16; 16] cpu) 0 16 1 16 16
             eq_refl eq_refl); [lia|].
    repeat split; try reflexivity; lia.
  - apply (LeNet_forward_domain (H := Sample.kernels) Sample.a_LeNet cpu
             (Sample.ones [1; 1; 28; 28] cuda) 0 1 1 28 28
             eq_refl eq_refl); [lia|].
    intros (_ & Hd & _). discriminate Hd.
Defined.

Lemma SimpleNet_forward_domain_witness :
  (exists y g',
      SimpleNet.forward (H := Sample.kernels) Sample.a_SimpleNet
        (Sample.ones [4; 3; 15; 15] cpu) 0 = (Ok y, g')) /\
  (exists msg,
      SimpleNet.forward (H := Sample.kernels) Sample.a_SimpleNet
        (Sample.ones [1; 3; 14; 14] cpu) 0 = (Raise (RuntimeError msg), 0)).
Proof.
  split.
  - apply (SimpleNet_forward_domain (H := Sample.kernels) Sample.a_SimpleNet 10 cpu
             (Sample.ones [4; 3; 15; 15] cpu) 0 4 3 15 15 eq_refl eq_refl); [lia|].
    repeat split; try reflexivity; lia.
  - apply (SimpleNet_forward_domain (H := Sample.kernels) Sample.a_SimpleNet 10 cpu
             (Sample.ones [1; 3; 14; 14] cpu) 0 1 3 14 14 eq_refl eq_refl); [lia|].
    intros (_ & _ & Hh & _). lia.
Defined.

(** ** Notebook 2: the layer, the function and [nn.Sequential] *)

Section notebook2.
Context `{Kernels}.
Variable randn_kernel : list Z -> Generator -> storage * Generator.
Variable conv2d_no_bias_kernel : Tensor -> Tensor -> Z -> Z -> storage.

Lemma same_outcome_convolution x w b w' s p :
  shape w = shape w' -> dev w = dev w' ->
  same_outcome (F.convolution x w b s p)
               (Notebook2.convolution_no_bias conv2d_no_bias_kernel x w' s p).
Proof.
  intros Hs Hd. unfold F.convolution, Notebook2.convolution_no_bias.
  rewrite <- Hs, <- Hd.
  unfold same_outcome. repeat case_match; simplify_eq; done.
Qed.

Lemma same_outcome_conv2d x w b w' s p :
  shape w = shape w' -> dev w = dev w' ->
  same_outcome (F.conv2d x w b s p)
               (Notebook2.conv2d_no_bias conv2d_no_bias_kernel x w' s p).
Proof.
  intros Hs Hd. unfold F.conv2d, Notebook2.conv2d_no_bias.
  destruct (shape x) as [|d1 [|d2 [|d3 [|d4 [|]]]]]; try done.
  - pose proof (same_outcome_convolution (unsqueeze x) w b w' s p Hs Hd) as Hc.
    destruct (F.convolution (unsqueeze x) w b s p) as [y|e],
      (Notebook2.convolution_no_bias conv2d_no_bias_kernel (unsqueeze x) w' s p) as [z|e'];
      try done.
    destruct Hc as [Hsy Hdy]. cbn. unfold squeeze. cbn. by rewrite Hsy.
  - by apply same_outcome_convolution.
Qed.

Lemma same_outcome_max_pool2d y z k s :
  shape y = shape z -> dev y = dev z ->
  same_outcome (F.max_pool2d y k s) (F.max_pool2d z k s).
Proof.
  intros Hs Hd. unfold F.max_pool2d, F.pool. rewrite <- Hs, <- Hd.
  unfold same_outcome. repeat case_match; simplify_eq; done.
Qed.

(** X3.  The [nn.Sequential] of convolution, [nn.ReLU] and pooling and the
    two function calls with the all-zero filter have the same inputs they
    accept, and on those they give tensors of the same shape on the same
    device: the layer brings its own weight of the shape of the filter, and
    [nn.ReLU] changes no shape.  On any other input both raise
    [RuntimeError]. *)
Theorem sequential_agrees_with_functions X g :
  same_outcome (Notebook2.simple_model_cell X g).1
               (Notebook2.zero_conv_cell conv2d_no_bias_kernel X).
Proof.
  unfold Notebook2.simple_model_cell, Notebook2.simple_model, Notebook2.zero_conv_cell.
  destruct (Conv2d_new_Ok 3 64 11 4 2 g ltac:(lia)) as (w & b & g1 & Hnew & Hw & Hdw & _).
  rewrite (M_bind_Ok _ _ _ _ _ (M_bind_Ok _ _ _ _ _ Hnew)).
  cbn [Notebook2.Sequential_call Notebook2.module_call nn.call].
  pose proof (same_outcome_conv2d X w b (Notebook2.zeros [64; 3; 11; 11]) 4 2 Hw Hdw) as Hconv.
  destruct (F.conv2d X w b 4 2) as [y|e],
    (Notebook2.conv2d_no_bias conv2d_no_bias_kernel X
       (Notebook2.zeros [64; 3; 11; 11]) 4 2) as [z|e']; try done.
  - destruct Hconv as [Hs Hd]. rewrite M_bind_lift_Ok.
    cbn [mbind result_bind].
    pose proof (same_outcome_max_pool2d (F.relu y) z 3 2 Hs Hd) as Hpool.
    change ((mret (F.relu y) ≫= fun x =>
               lift (F.max_pool2d x 3 2) ≫= fun x => mret x) g1)
      with ((lift (F.max_pool2d (F.relu y) 3 2) ≫= fun x => mret x) g1).
    destruct (F.max_pool2d (F.relu y) 3 2) as [y'|e]; exact Hpool.
  - destruct e; done.
Qed.

(** A [SimpleNet] is built on the CPU. *)
Lemma SimpleNet_init_cpu num_classes g :
  0 ≤ num_classes ->
  exists net g',
    SimpleNet.__init__ num_classes g = (Ok net, g') /\
    architecture net = SimpleNet_architecture num_classes cpu.
Proof.
  intros Hnum.
  destruct (SimpleNet_init_layers num_classes g Hnum)
    as (w1 & b1 & w2 & b2 & g' & Hinit & (Hw1 & Hd1 & Hb1 & He1 & _) &
        (Hw2 & Hd2 & Hb2 & He2 & _)).
  eexists _, g'. split; [exact Hinit|].
  destruct w1, b1, w2, b2. cbn in *. by subst.
Qed.

Lemma conv2d_no_bias_Ok x w s p n c h wd o kh kw :
  shape x = [n; c; h; wd] -> shape w = [o; c; kh; kw] ->
  dev x = dev w -> 0 < s -> 0 ≤ p -> kh ≤ h + 2 * p -> kw ≤ wd + 2 * p ->
  exists y, Notebook2.conv2d_no_bias conv2d_no_bias_kernel x w s p = Ok y /\
    shape y = [n; o; F.conv_out h kh s p; F.conv_out wd kw s p] /\
    dev y = dev x.
Proof.
  intros Hx Hw ? ? ? ? ?.
  unfold Notebook2.conv2d_no_bias, Notebook2.convolution_no_bias. rewrite Hx, Hw.
  rewrite decide_True by done. eauto.
Qed.

End notebook2.


(** ** Notebook 3: a batch through the training loop *)

Section training_run.
Import Notebook3.
Context `{Kernels}.

Lemma run_call_Ok {X R} (e : torchE X) (k : X -> prog torchE R) w x w1 :
  handle X e w = (Ok x, w1) ->
  run handle (trigger e ≫= k) w = run handle (k x) w1.
Proof.
  intros He. rewrite run_bind.
  erewrite M_bind_Ok; [reflexivity | by rewrite run_trigger].
Qed.

Lemma run_call_Raise {X R} (e : torchE X) (k : X -> prog torchE R) w err w1 :
  handle X e w = (Raise err, w1) ->
  run handle (trigger e ≫= k) w = (Raise err, w1).
Proof.
  intros He. rewrite run_bind.
  erewrite M_bind_Raise; [reflexivity | by rewrite run_trigger].
Qed.

Lemma adam_update_signature o gr name p :
  signature (adam_update o gr name p) = signature p.
Proof. unfold adam_update. by destruct (gr !! name). Qed.

Lemma update_layer_signature o gr name m :
  layer_signature (update_layer o gr name m) = layer_signature m.
Proof. destruct m; cbn; by rewrite ?adam_update_signature. Qed.

(** [optimizer.step()] replaces elements only. *)
Lemma do_step_architecture w :
  architecture (model (do_step w).2) = architecture (model w) /\
  nn.training (model (do_step w).2) = nn.training (model w).
Proof.
  split; [|done]. unfold architecture. cbn.
  rewrite <- list_fmap_compose. apply list_fmap_ext.
  intros i [name m] _. cbn. by rewrite update_layer_signature.
Qed.

Lemma train_batch_run device epoch total batch_ind input_data target_data w n :
  architecture (model w) = LeNet_architecture device ->
  grad_enabled w = true ->
  0 < n -> shape input_data = [n; 1; 28; 28] -> lshape target_data = [n] ->
  exists w',
    run handle (train_batch device epoch total batch_ind (input_data, target_data)) w
      = (Ok tt, w') /\
    architecture (model w') = LeNet_architecture device /\
    grad_enabled w' = true /\
    nn.training (model w') = nn.training (model w).
Proof.
  intros Harch Hge Hn Hx Ht. unfold train_batch.
  erewrite run_call_Ok by reflexivity.
  erewrite run_call_Ok by reflexivity.
  destruct (LeNet_forward_28 (model w) device (to input_data device) n (generator w))
    as (y & Hy & Hs & Hd); [done | done | lia | done |].
  erewrite run_call_Ok; [|cbn [handle]; unfold do_model_call; rewrite Hy, Hge; reflexivity].
  erewrite run_call_Ok.
  2:{ cbn [handle]. unfold do_cross_entropy. rewrite Hs. cbn [lto lshape ldev]. rewrite Ht.
      rewrite decide_False by (intros Hne; by apply Hne).
      rewrite decide_False by (intros Hne; by apply Hne). reflexivity. }
  erewrite run_call_Ok by reflexivity.
  erewrite run_call_Ok by reflexivity.
  match goal with
  | |- context [run handle _ ?w4] =>
      erewrite (run_call_Ok optimizer_step _ w4 tt (do_step w4).2) by reflexivity;
      destruct (do_step_architecture w4) as [Harch5 Htr5];
      set (w5 := (do_step w4).2) in *
  end.
  assert (grad_enabled w5 = true) as Hge5 by exact Hge.
  change (architecture (model w5) = architecture (model w)) in Harch5.
  change (nn.training (model w5) = nn.training (model w)) in Htr5.
  clearbody w5.
  case_decide.
  - erewrite run_call_Ok by reflexivity. rewrite run_trigger.
    eexists. split; [reflexivity|]. split; [by rewrite <- Harch|]. done.
  - eexists. split; [reflexivity|]. split; [by rewrite <- Harch|]. done.
Qed.

(** A loop whose iterations return, from a state of the world that every
    iteration keeps, returns. *)
Lemma for_each_run_Ok {A} (Inv : World -> Prop) (ok : A -> Prop)
    (xs : list A) (body : A -> prog torchE unit) :
  (forall x w, ok x -> Inv w -> exists w', run handle (body x) w = (Ok tt, w') /\ Inv w') ->
  Forall ok xs ->
  forall w, Inv w -> exists w', run handle (for_each xs body) w = (Ok tt, w') /\ Inv w'.
Proof.
  intros Hbody Hxs. induction Hxs as [|x xs Hx Hxs IH]; intros w Hw.
  - by exists w.
  - cbn [for_each]. rewrite run_bind.
    destruct (Hbody x w Hx Hw) as (w1 & Hrun & Hw1).
    rewrite (M_bind_Ok _ _ _ _ _ Hrun). by apply IH.
Qed.

Lemma elem_of_enumerate {A} (xs : list A) i x :
  (i, x) ∈ enumerate xs -> x ∈ xs.
Proof. unfold enumerate. apply elem_of_zip_r. Qed.

(** What the training loop needs of a batch: [n >= 1] images of
    [1 x 28 x 28] and [n] labels. *)
Lemma training_cell_run device (train_data_loader : Z -> list Batch) w :
  (forall epoch input_data target_data,
      (input_data, target_data) ∈ train_data_loader epoch ->
      exists n, 0 < n /\ shape input_data = [n; 1; 28; 28] /\ lshape target_data = [n]) ->
  architecture (model w) = LeNet_architecture device ->
  grad_enabled w = true ->
  exists w',
    run handle (training_cell device train_data_loader) w = (Ok tt, w') /\
    architecture (model w') = LeNet_architecture device /\
    grad_enabled w' = true /\
    nn.training (model w') = nn.training (model w).
Proof.
  intros Hbatches Harch Hge.
  set (Inv := fun w' : World =>
         architecture (model w') = LeNet_architecture device /\
         grad_enabled w' = true /\
         nn.training (model w') = nn.training (model w)).
  change (exists w', run handle (training_cell device train_data_loader) w = (Ok tt, w')
                     /\ Inv w').
  unfold training_cell.
  apply (for_each_run_Ok Inv (fun _ => True)); [| by apply Forall_true | done].
  intros epoch w0 _ Hw0. rewrite run_bind.
  edestruct (for_each_run_Ok Inv
               (fun ib : Z * Batch => ib.2 ∈ train_data_loader epoch)
               (enumerate (train_data_loader epoch))) as (w1 & Hloop & Hw1);
    [| | exact Hw0 | rewrite (M_bind_Ok _ _ _ _ _ Hloop)].
  - intros [batch_ind [input_data target_data]] w1 Hin (Harch1 & Hge1 & Htr1).
    destruct (Hbatches epoch input_data target_data Hin) as (n & Hn & Hx & Ht).
    destruct (train_batch_run device epoch
                (Z.of_nat (length (train_data_loader epoch))) batch_ind
                input_data target_data w1 n Harch1 Hge1 Hn Hx Ht)
      as (w2 & Hrun & Harch2 & Hge2 & Htr2).
    exists w2. split; [exact Hrun|]. split; [done|]. split; [done | congruence].
  - apply Forall_forall. intros [i b] Hin. by apply elem_of_enumerate in Hin.
  - rewrite run_trigger. eexists. split; [reflexivity|]. exact Hw1.
Qed.

(** X5.  The training cell runs through.  From the world the setup cells
    leave (a [LeNet] moved to the device, in training mode, with its
    optimizer), on a loader whose batches have [n >= 1] images of
    [1 x 28 x 28] and [n] labels each, every label one of the ten classes,
    wherever the batches are stored, no call raises: every batch passes the
    forward pass, the loss, the backward pass and the update.  The model
    that comes out has the layers, parameter shapes and device it started
    with and is still in training mode. *)
Theorem training_cell_completes device g (train_data_loader : Z -> list Batch) :
  (forall epoch input_data target_data,
      (input_data, target_data) ∈ train_data_loader epoch ->
      exists n, 0 < n /\ shape input_data = [n; 1; 28; 28] /\ lshape target_data = [n] /\
        forall i, 0 ≤ i < n -> 0 ≤ ldata target_data i < 10) ->
  exists w w',
    setup_cells device g = Ok w /\
    run handle (training_cell device train_data_loader) w = (Ok tt, w') /\
    architecture (model w') = LeNet_architecture device /\
    nn.training (model w') = true.
Proof.
  intros Hbatches. unfold setup_cells.
  destruct (LeNet_init_architecture g) as (net & g' & -> & _ & Harch).
  set (w := {| model := nn.train (nn.net_to net device); grad := ∅;
               optimizer := {| lr := lr_0_001; state := ∅ |}; generator := g';
               grad_enabled := true; graph := None; stdout := []; pbar := None |}).
  destruct (training_cell_run device train_data_loader w)
    as (w' & Hrun & Harch' & _ & Htr').
  - intros epoch input_data target_data Hin.
    destruct (Hbatches epoch input_data target_data Hin) as (n & Hn & Hx & Ht & _).
    by exists n.
  - exact (Harch device).
  - reflexivity.
  - by exists w, w'.
Qed.

Lemma do_backward_frame loss w :
  model (do_backward loss w).2 = model w /\
  optimizer (do_backward loss w).2 = optimizer w.
Proof. unfold do_backward. by destruct (graph w) as [[params input]|]. Qed.

(** X6.  A batch that fails changes no parameter.  Whatever the batch,
    when a call of the loop body raises (the forward pass, the loss or the
    backward pass; nothing after the update can), the model and the
    optimizer are the ones the batch started with: the update is the last
    call that can fail, and it is never reached.  Gradients may have been
    cleared by then. *)
Theorem failed_batch_keeps_parameters device epoch total batch_ind batch w e :
  let after := run handle (train_batch device epoch total batch_ind batch) w in
  after.1 = Raise e ->
  model after.2 = model w /\ optimizer after.2 = optimizer w.
Proof.
  destruct batch as [input_data target_data]. cbv zeta. unfold train_batch.
  erewrite run_call_Ok by reflexivity.
  erewrite run_call_Ok by reflexivity.
  match goal with
  | |- context [trigger (model_call ?x)] =>
      pose proof (handle_frame _ (model_call x) w) as Hframe1;
      destruct (handle _ (model_call x) w) as [[output|err] w1] eqn:Hcall1
  end.
  2:{ erewrite run_call_Raise by exact Hcall1. intros _.
      destruct Hframe1 as (Hm1 & _ & Ho1); [cbn; tauto|]. done. }
  erewrite run_call_Ok by exact Hcall1.
  destruct Hframe1 as (Hm1 & _ & Ho1); [cbn; tauto|]. cbn [snd] in Hm1, Ho1.
  match goal with
  | |- context [trigger (cross_entropy ?o ?t)] =>
      pose proof (handle_frame _ (cross_entropy o t) w1) as Hframe2;
      destruct (handle _ (cross_entropy o t) w1) as [[loss|err] w2] eqn:Hcall2
  end.
  2:{ erewrite run_call_Raise by exact Hcall2. intros _.
      destruct Hframe2 as (Hm2 & _ & Ho2); [cbn; tauto|]. cbn [snd] in *. split; congruence. }
  erewrite run_call_Ok by exact Hcall2.
  destruct Hframe2 as (Hm2 & _ & Ho2); [cbn; tauto|]. cbn [snd] in Hm2, Ho2.
  erewrite run_call_Ok by reflexivity.
  match goal with
  | |- context [run handle _ ?w3] =>
      pose proof (do_backward_frame loss w3) as [Hm4 Ho4];
      change (handle _ (loss_backward loss) w3) with (do_backward loss w3);
      destruct (do_backward loss w3) as [[[]|err] w4] eqn:Hcall4
  end.
  2:{ erewrite run_call_Raise by exact Hcall4. intros _.
      change (model w4 = model w2) in Hm4. change (optimizer w4 = optimizer w2) in Ho4.
      cbn [snd]. split; congruence. }
  erewrite run_call_Ok by exact Hcall4.
  erewrite run_call_Ok by reflexivity.
  case_decide.
  - erewrite run_call_Ok by reflexivity. rewrite run_trigger. discriminate.
  - discriminate.
Qed.

Lemma do_cross_entropy_stateless output target :
  stateless (do_cross_entropy output target).
Proof.
  unfold do_cross_entropy.
  repeat case_match; first [apply stateless_ret | by eexists].
Qed.

(** X7.  Gradients left over from an earlier batch do not reach the
    update.  Start one batch of the training loop from two worlds that differ
    only in the elements of the gradients already stored (the same
    parameters have one, of the same shape on the same device) and in the
    graph recorded last: the batch ends the same way, with the same model
    and the same optimizer, and when it completes the two worlds are equal.
    [optimizer.zero_grad()] comes before [loss.backward()]. *)
Theorem leftover_gradients_do_not_matter device epoch total batch_ind batch w gr gph :
  signature <$> gr = signature <$> grad w ->
  let w' := set_inference (set_grad w gr) (generator w) gph in
  let after := run handle (train_batch device epoch total batch_ind batch) w in
  let after' := run handle (train_batch device epoch total batch_ind batch) w' in
  after'.1 = after.1 /\
  model after'.2 = model after.2 /\
  optimizer after'.2 = optimizer after.2 /\
  (after.1 = Ok tt -> after'.2 = after.2).
Proof.
  intros Hgr w'. destruct batch as [input_data target_data]. cbv zeta.
  unfold train_batch.
  do 2 (erewrite (run_call_Ok _ _ w) by reflexivity).
  do 2 (erewrite (run_call_Ok _ _ w') by reflexivity).
  (* the forward pass *)
  assert (forall X (k : Tensor -> prog torchE X),
            run handle (trigger (model_call (to input_data device)) ≫= k) w' =
            match LeNet.forward (model w) (to input_data device) (generator w) with
            | (Ok output, g1) =>
                run handle (k output)
                  (set_inference w' g1
                     (if grad_enabled w
                      then Some (nn.named_parameters (model w), to input_data device)
                      else None))
            | (Raise err, g1) =>
                (Raise err,
                 set_inference w' g1
                   (if grad_enabled w
                    then Some (nn.named_parameters (model w), to input_data device)
                    else None))
            end) as Hcall'.
  { intros X k. rewrite run_bind. unfold mbind, M_bind. rewrite run_trigger.
    cbn [handle]. unfold do_model_call.
    change (model w') with (model w). change (generator w') with (generator w).
    change (grad_enabled w') with (grad_enabled w).
    by destruct (LeNet.forward (model w) (to input_data device) (generator w)) as [[?|?] ?]. }
  assert (forall X (k : Tensor -> prog torchE X),
            run handle (trigger (model_call (to input_data device)) ≫= k) w =
            match LeNet.forward (model w) (to input_data device) (generator w) with
            | (Ok output, g1) =>
                run handle (k output)
                  (set_inference w g1
                     (if grad_enabled w
                      then Some (nn.named_parameters (model w), to input_data device)
                      else None))
            | (Raise err, g1) =>
                (Raise err,
                 set_inference w g1
                   (if grad_enabled w
                    then Some (nn.named_parameters (model w), to input_data device)
                    else None))
            end) as Hcall.
  { intros X k. rewrite run_bind. unfold mbind, M_bind. rewrite run_trigger.
    cbn [handle]. unfold do_model_call.
    by destruct (LeNet.forward (model w) (to input_data device) (generator w)) as [[?|?] ?]. }
  rewrite Hcall, Hcall'. clear Hcall Hcall'.
  destruct (LeNet.forward (model w) (to input_data device) (generator w))
    as [[output|err] g1]; [|done].
  set (gph1 := if grad_enabled w
               then Some (nn.named_parameters (model w), to input_data device)
               else None).
  (* the loss *)
  destruct (do_cross_entropy_stateless output (lto target_data device)) as [[loss|err] Hloss].
  2:{ erewrite (run_call_Raise _ _ (set_inference w g1 gph1)) by apply Hloss.
      erewrite (run_call_Raise _ _ (set_inference w' g1 gph1)) by apply Hloss. done. }
  erewrite (run_call_Ok _ _ (set_inference w g1 gph1)) by apply Hloss.
  erewrite (run_call_Ok _ _ (set_inference w' g1 gph1)) by apply Hloss.
  (* the gradients are cleared *)
  erewrite (run_call_Ok _ _ (set_inference w g1 gph1)) by reflexivity.
  erewrite (run_call_Ok _ _ (set_inference w' g1 gph1)) by reflexivity.
  match goal with
  | |- context [run handle ?p (set_grad (set_inference w' g1 gph1) ?z')] =>
      replace (set_grad (set_inference w' g1 gph1) z')
        with (set_grad (set_inference w g1 gph1)
                ((fun t => fill_ t zero) <$> grad (set_inference w g1 gph1)))
  end.
  - done.
  - unfold set_grad, set_inference, w'. cbn. f_equal. symmetry. exact Hgr.
Qed.
End training_run.

(** ** Notebook 3: the progress lines *)

Section progress.
Import Notebook3.
Context {W : Type}.
Variable h : forall X, torchE X -> M W X.
Variable device : device.

Lemma lines_bind {A B} (p : prog torchE A) (f : A -> prog torchE B) w :
  lines h (p ≫= f) w =
    lines h p w ++
    match run h p w with
    | (Ok a, w') => lines h (f a) w'
    | (Raise _, _) => []
    end.
Proof.
  unfold lines. rewrite calls_bind, omap_app.
  by destruct (run h p w) as [[a|e] w'].
Qed.

Lemma for_each_lines {A} (xs : list A) (body : A -> prog torchE unit)
    (per : A -> list line) :
  (forall x w,
      match run h (body x) w with
      | (Ok _, _) => lines h (body x) w = per x
      | (Raise _, _) => lines h (body x) w `prefix_of` per x
      end) ->
  forall w,
    match run h (for_each xs body) w with
    | (Ok _, _) => lines h (for_each xs body) w = flat_map per xs
    | (Raise _, _) => lines h (for_each xs body) w `prefix_of` flat_map per xs
    end.
Proof.
  intros Hbody. induction xs as [|x xs IH]; intros w; [reflexivity|].
  cbn [for_each flat_map]. rewrite run_bind, lines_bind.
  specialize (Hbody x w). unfold mbind at 1, M_bind at 1.
  destruct (run h (body x) w) as [[[]|e] w1].
  - rewrite Hbody. specialize (IH w1).
    destruct (run h (for_each xs body) w1) as [[[]|e] w2].
    + by rewrite IH.
    + by apply prefix_app.
  - rewrite app_nil_r. by apply prefix_app_r.
Qed.

(** With [print_every = 1] every batch prints its progress line. *)
Lemma train_batch_lines epoch total batch_ind batch w :
  let expected := [train_log (epoch + 1) epochs zero (batch_ind + 1) total] in
  match run h (train_batch device epoch total batch_ind batch) w with
  | (Ok _, _) => lines h (train_batch device epoch total batch_ind batch) w = expected
  | (Raise _, _) =>
      lines h (train_batch device epoch total batch_ind batch) w `prefix_of` expected
  end.
Proof.
  destruct batch as [input_data target_data]. unfold train_batch, lines.
  destruct (decide (batch_ind mod print_every = 0)) as [_|Hne];
    [|by destruct Hne; apply Z.mod_1_r].
  cbn [mbind prog_mbind prog_bind trigger run calls].
  unfold mbind, M_bind;
    repeat match goal with
           | |- context [h ?X ?e ?w'] => destruct (h X e w') as [[?|?] ?]
           end;
    cbn [printed omap id item]; first [reflexivity | by eexists].
Qed.

Lemma flat_map_enumerate {A B} (f : Z -> B) (xs : list A) :
  flat_map (fun ix : Z * A => [f ix.1]) (enumerate xs)
  = f <$> seqZ 0 (Z.of_nat (length xs)).
Proof.
  unfold enumerate. generalize 0 as start.
  induction xs as [|x xs IH]; intros start; [reflexivity|].
  cbn [length]. rewrite Nat2Z.inj_succ, seqZ_cons by lia.
  cbn [zip zip_with flat_map fmap list_fmap app fst].
  replace (Z.pred (Z.succ (Z.of_nat (length xs)))) with (Z.of_nat (length xs)) by lia.
  f_equal. apply IH.
Qed.

Lemma epoch_lines (train_data_loader : Z -> list Batch) epoch w :
  let total := Z.of_nat (length (train_data_loader epoch)) in
  let body :=
    (_ ← for_each (enumerate (train_data_loader epoch)) (fun '(batch_ind, batch) =>
            train_batch device epoch total batch_ind batch);
     trigger (print empty_line)) in
  let expected :=
    ((fun batch_ind => train_log (epoch + 1) epochs zero (batch_ind + 1) total)
       <$> seqZ 0 total) ++ [empty_line] in
  match run h body w with
  | (Ok _, _) => lines h body w = expected
  | (Raise _, _) => lines h body w `prefix_of` expected
  end.
Proof.
  cbv zeta. rewrite run_bind, lines_bind.
  rewrite <- (flat_map_enumerate
                (fun batch_ind => train_log (epoch + 1) epochs zero (batch_ind + 1)
                                    (Z.of_nat (length (train_data_loader epoch))))
                (train_data_loader epoch)).
  match goal with
  | |- context [for_each ?xs ?body] =>
      pose proof (for_each_lines xs body
                    (fun ix => [train_log (epoch + 1) epochs zero (ix.1 + 1)
                                  (Z.of_nat (length (train_data_loader epoch)))])) as Hloop
  end.
  cbv beta in Hloop.
  specialize (Hloop (fun '(i, b) w' => train_batch_lines epoch _ i b w') w).
  unfold mbind at 1, M_bind at 1.
  match type of Hloop with
  | context [run h ?p w] => destruct (run h p w) as [[[]|e] w1]
  end.
  - rewrite Hloop, run_trigger. unfold lines, trigger. cbn [calls printed].
    destruct (h () (print empty_line) w1) as [[[]|e] w2]; by cbn.
  - rewrite app_nil_r. by apply prefix_app_r.
Qed.
End progress.

(** X8.  What the training cell prints.  Whatever the library calls
    return: with [print_every = 1] the cell prints a progress line after
    every batch, and an empty line after the last batch of the epoch.  The
    line of batch [i] (counted from 0) of [total] shows epoch 1 of 1 and batch
    [i + 1] of [total].  If a call raises, the lines printed so far are a
    prefix of these. *)
Theorem training_cell_progress_lines :
  forall (W : Type) (h : forall X, Notebook3.torchE X -> M W X) device
         (train_data_loader : Z -> list Notebook3.Batch) w,
    let shown := lines h (Notebook3.training_cell device train_data_loader) w in
    let expected :=
      flat_map (fun epoch =>
                  let total := Z.of_nat (length (train_data_loader epoch)) in
                  ((fun batch_ind =>
                      Notebook3.train_log (epoch + 1) Notebook3.epochs zero
                        (batch_ind + 1) total) <$> seqZ 0 total)
                  ++ [Notebook3.empty_line])
               (seqZ 0 Notebook3.epochs) in
    let total := Z.of_nat (length (train_data_loader 0)) in
    shown `prefix_of` expected /\
    ((run h (Notebook3.training_cell device train_data_loader) w).1 = Ok tt ->
     shown = expected) /\
    expected =
      ((fun batch_ind => Notebook3.train_log 1 1 zero (batch_ind + 1) total) <$> seqZ 0 total)
      ++ [Notebook3.empty_line].
Proof.
  intros W h device loader w shown expected total.
  pose proof (for_each_lines h (seqZ 0 Notebook3.epochs)
                (fun epoch =>
                   let batches := loader epoch in
                   _ ← for_each (enumerate batches) (fun '(batch_ind, batch) =>
                          Notebook3.train_batch device epoch (Z.of_nat (length batches))
                            batch_ind batch);
                   trigger (Notebook3.print Notebook3.empty_line))
                (fun epoch =>
                   let total := Z.of_nat (length (loader epoch)) in
                   ((fun batch_ind =>
                       Notebook3.train_log (epoch + 1) Notebook3.epochs zero
                         (batch_ind + 1) total) <$> seqZ 0 total)
                   ++ [Notebook3.empty_line])
                (fun epoch w' => epoch_lines h device loader epoch w') w) as Hcell.
  change (match run h (Notebook3.training_cell device loader) w with
          | (Ok _, _) => shown = expected
          | (Raise _, _) => shown `prefix_of` expected
          end) in Hcell.
  split; [|split].
  - destruct (run h (Notebook3.training_cell device loader) w) as [[[]|e] w'];
      [by rewrite Hcell | done].
  - destruct (run h (Notebook3.training_cell device loader) w) as [[[]|e] w'];
      [done | discriminate].
  - subst expected total. unfold Notebook3.epochs. change (seqZ 0 1) with [0].
    cbn [flat_map]. by rewrite app_nil_r.
Qed.

(** ** Notebook 3: the evaluation cell runs through *)

Section evaluation_run.
Import Notebook3.
Context `{Kernels}.

Lemma for_fold_run_Ok {A B} (Inv : World -> Prop) (ok : A -> Prop)
    (xs : list A) (body : B -> A -> prog torchE B) :
  (forall acc x w, ok x -> Inv w ->
     exists acc' w', run handle (body acc x) w = (Ok acc', w') /\ Inv w') ->
  Forall ok xs ->
  forall acc w, Inv w ->
    exists acc' w', run handle (for_fold xs acc body) w = (Ok acc', w') /\ Inv w'.
Proof.
  intros Hbody Hxs. induction Hxs as [|x xs Hx Hxs IH]; intros acc w Hw.
  - by exists acc, w.
  - cbn [for_fold]. rewrite run_bind.
    destruct (Hbody acc x w Hx Hw) as (acc1 & w1 & Hrun & Hw1).
    rewrite (M_bind_Ok _ _ _ _ _ Hrun). by apply IH.
Qed.

(** One batch of the evaluation loop, with gradients switched off. *)
Lemma test_batch_run device correct input_data target_data w n :
  architecture (model w) = LeNet_architecture device ->
  grad_enabled w = false ->
  0 < n -> shape input_data = [n; 1; 28; 28] -> lshape target_data = [n] ->
  exists correct' w',
    run handle (test_batch device correct (input_data, target_data)) w = (Ok correct', w') /\
    model w' = model w /\ generator w' = generator w /\
    grad_enabled w' = false /\ stdout w' = stdout w.
Proof.
  intros Harch Hge Hn Hx Ht. unfold test_batch.
  erewrite run_call_Ok by reflexivity.
  erewrite run_call_Ok by reflexivity.
  destruct (LeNet_forward_28 (model w) device (to input_data device) n (generator w))
    as (y & Hy & Hs & Hd); [done | done | lia | done |].
  erewrite run_call_Ok; [|cbn [handle]; unfold do_model_call; rewrite Hy, Hge; reflexivity].
  erewrite run_call_Ok.
  2:{ cbn [handle]. unfold do_argmax. rewrite Hs.
      rewrite decide_True by (cbn; lia). reflexivity. }
  erewrite run_call_Ok.
  2:{ cbn [handle]. unfold do_eq_view_as_sum. cbn [lshape ldev lto delete list_delete Z.to_nat Pos.to_nat Pos.iter_op].
      rewrite Ht. rewrite decide_True by done. reflexivity. }
  erewrite run_call_Ok by reflexivity.
  eexists _, _. split; [reflexivity|]. done.
Qed.

(** The evaluation cell on test batches of the shape of the data. *)
Lemma evaluation_cell_run device (test_data_loader : list Batch) len_MNIST_test w :
  architecture (model w) = LeNet_architecture device ->
  (forall input_data target_data,
      (input_data, target_data) ∈ test_data_loader ->
      exists n, 0 < n /\ shape input_data = [n; 1; 28; 28] /\ lshape target_data = [n]) ->
  exists correct w',
    run handle (evaluation_cell device test_data_loader len_MNIST_test) w
      = (Ok correct, w') /\
    grad_enabled w' = grad_enabled w /\
    generator w' = generator w /\
    pbar w' = None /\
    stdout w' = stdout w ++ [test_accuracy correct len_MNIST_test].
Proof.
  intros Harch Hbatches. unfold evaluation_cell.
  erewrite run_call_Ok by reflexivity.
  erewrite run_call_Ok by reflexivity.
  rewrite run_bind.
  set (Inv := fun w' : World =>
         model w' = model w /\ generator w' = generator w /\
         grad_enabled w' = false /\ stdout w' = stdout w).
  assert (forall acc x w0, x ∈ test_data_loader -> Inv w0 ->
            exists acc' w', run handle (test_batch device acc x) w0 = (Ok acc', w') /\ Inv w')
    as Hbody.
  { intros acc [input_data target_data] w0 Hin (Hm0 & Hg0 & Hge0 & Hout0).
    destruct (Hbatches input_data target_data Hin) as (n & Hn & Hx & Ht).
    destruct (test_batch_run device acc input_data target_data w0 n)
      as (acc' & w' & Hrun & Hm' & Hg' & Hge' & Hout'); [congruence | done..|].
    exists acc', w'. split; [exact Hrun|]. unfold Inv. repeat split; congruence. }
  destruct (for_fold_run_Ok Inv (fun b : Batch => b ∈ test_data_loader)
              test_data_loader (test_batch device) Hbody
              (proj2 (Forall_forall _ _) (fun b Hb => Hb)) 0
              (set_pbar (set_grad_enabled w false)
                 (Some (0, Z.of_nat (length test_data_loader)))))
    as (correct & w1 & Hloop & Hm1 & Hg1 & Hge1 & Hout1); [by unfold Inv|].
  rewrite (M_bind_Ok _ _ _ _ _ Hloop).
  erewrite run_call_Ok by reflexivity.
  erewrite run_call_Ok by reflexivity.
  erewrite run_call_Ok by reflexivity.
  eexists _, _. split; [reflexivity|]. cbn. rewrite Hout1. done.
Qed.


(** X10.  Notebook 3 runs through.  On training batches of [n >= 1]
    images of [1 x 28 x 28] with [n] labels among the ten classes, test
    batches of [n >= 1] such images with [n] labels, and a test set that is
    not empty, the cells from the setup to the evaluation all return.  The
    model that comes out is a [LeNet] on the device in evaluation mode,
    gradients are switched on again, and the last line printed is the
    accuracy line for the count the evaluation returns. *)
Theorem notebook3_cells_run device g (train_data_loader : Z -> list Batch)
    (test_data_loader : list Batch) len_MNIST_test :
  (forall epoch input_data target_data,
      (input_data, target_data) ∈ train_data_loader epoch ->
      exists n, 0 < n /\ shape input_data = [n; 1; 28; 28] /\ lshape target_data = [n] /\
        forall i, 0 ≤ i < n -> 0 ≤ ldata target_data i < 10) ->
  (forall input_data target_data,
      (input_data, target_data) ∈ test_data_loader ->
      exists n, 0 < n /\ shape input_data = [n; 1; 28; 28] /\ lshape target_data = [n]) ->
  0 < len_MNIST_test ->
  exists correct w',
    notebook3_cells device train_data_loader test_data_loader len_MNIST_test g
      = Ok (correct, w') /\
    architecture (model w') = LeNet_architecture device /\
    nn.training (model w') = false /\
    grad_enabled w' = true /\
    last (stdout w') = Some (test_accuracy correct len_MNIST_test).
Proof.
  intros Htrain Htest _. unfold notebook3_cells, setup_cells.
  destruct (LeNet_init_architecture g) as (net & g' & -> & _ & Harch).
  set (w := {| model := nn.train (nn.net_to net device); grad := ∅;
               optimizer := {| lr := lr_0_001; state := ∅ |}; generator := g';
               grad_enabled := true; graph := None; stdout := []; pbar := None |}).
  destruct (training_cell_run device train_data_loader w)
    as (w1 & Hrun1 & Harch1 & Hge1 & _).
  { intros epoch input_data target_data Hin.
    destruct (Htrain epoch input_data target_data Hin) as (n & Hn & Hx & Ht & _).
    by exists n. }
  { exact (Harch device). }
  { reflexivity. }
  rewrite (M_bind_Ok _ _ _ _ _ Hrun1).
  unfold eval_cell at 1. unfold mbind at 1, M_bind at 1.
  set (w2 := set_model w1 (nn.eval (model w1))).
  destruct (evaluation_cell_run device test_data_loader len_MNIST_test w2)
    as (correct & w' & Hrun2 & Hge2 & _ & _ & Hout2); [exact Harch1 | exact Htest |].
  destruct (run_frame (evaluation_cell device test_data_loader len_MNIST_test) w2
              (evaluation_cell_never_trains device test_data_loader len_MNIST_test))
    as (Hm2 & _).
  rewrite Hrun2 in Hm2 |- *. cbn [snd] in Hm2.
  exists correct, w'. split; [done|]. rewrite Hm2, Hge2, Hout2.
  split; [exact Harch1|]. split; [done|]. split; [exact Hge1|].
  apply last_snoc.
Qed.
End evaluation_run.

(** ** [CustomDataset]: the length and the items *)

(** X11.  What the assertion in [__len__] is good for.  Take arrays for
    which every position below the length can be read.  When [__len__]
    returns [n], both arrays have length [n], and [__getitem__] returns the
    pair of the two elements at every position below [n], which is what a
    loader asks for.  When the two arrays have different lengths,
    [__len__] raises [AssertionError]. *)
Theorem CustomDataset_items_below_length (object : Type)
    (index : object -> Z -> result object) (len : object -> result Z)
    (self : CustomDataset.instance object) :
  (forall o m, len o = Ok m -> forall ind, 0 ≤ ind < m -> exists v, index o ind = Ok v) ->
  (forall n, CustomDataset.__len__ object len self = Ok n ->
     len (CustomDataset.x object self) = Ok n /\
     len (CustomDataset.y object self) = Ok n /\
     forall ind, 0 ≤ ind < n ->
       exists xi yi,
         CustomDataset.__getitem__ object index self ind = Ok (xi, yi) /\
         index (CustomDataset.x object self) ind = Ok xi /\
         index (CustomDataset.y object self) ind = Ok yi) /\
  (forall nx ny,
     len (CustomDataset.x object self) = Ok nx ->
     len (CustomDataset.y object self) = Ok ny ->
     nx ≠ ny ->
     CustomDataset.__len__ object len self = Raise AssertionError).
Proof.
  intros Hseq. split.
  - intros n Hlen. unfold CustomDataset.__len__ in Hlen.
    destruct (len (CustomDataset.x object self)) as [nx|e] eqn:Hx; [|discriminate].
    destruct (len (CustomDataset.y object self)) as [ny|e] eqn:Hy; [|discriminate].
    cbn in Hlen. case_decide as Heq; [|discriminate].
    injection Hlen as ->. subst ny.
    split; [done|]. split; [done|]. intros ind Hind.
    destruct (Hseq _ _ Hx ind Hind) as [xi Hxi].
    destruct (Hseq _ _ Hy ind Hind) as [yi Hyi].
    exists xi, yi. unfold CustomDataset.__getitem__. rewrite Hxi, Hyi. done.
  - intros nx ny Hx Hy Hne. unfold CustomDataset.__len__. rewrite Hx, Hy. cbn.
    by rewrite decide_False.
Qed.

Lemma CustomDataset_items_below_length_witness :
  CustomDataset.__len__ Arrays.array Arrays.len Arrays.a_dataset = Ok 3 /\
  exists xi yi,
    CustomDataset.__getitem__ Arrays.array Arrays.index Arrays.a_dataset 2 = Ok (xi, yi) /\
    Arrays.item xi 0 = 20 /\ Arrays.item yi 0 = 2.
Proof.
  split; [reflexivity|].
  destruct (CustomDataset_items_below_length Arrays.array Arrays.index Arrays.len
              Arrays.a_dataset) as [Hitems _].
  - intros o m _ ind _. by eexists.
  - destruct (Hitems 3 eq_refl) as (_ & _ & Hget).
    destruct (Hget 2) as (xi & yi & Hitem & Hxi & Hyi); [lia|].
    exists xi, yi. split; [exact Hitem|].
    injection Hxi as <-. injection Hyi as <-. done.
Defined.

(** ** Notebook 3: which parameters a batch trains *)

Section coverage.
Import Notebook3.
Context `{Kernels}.

Lemma LeNet_named_parameters net d :
  architecture net = LeNet_architecture d ->
  (nn.named_parameters net).*1 = LeNet_parameter_names.
Proof.
  intros Harch.
  apply LeNet_architecture_inv in Harch
    as (w1 & b1 & w2 & b2 & w3 & b3 & w4 & b4 & Hms & _).
  unfold nn.named_parameters. rewrite Hms. reflexivity.
Qed.

Lemma dom_foldr_insert {A B} (f : string -> A -> B) (l : list (string * A))
    (m : gmap string B) :
  dom (foldr (fun '(name, p) gr => <[name := f name p]> gr) m l)
  = dom m ∪ list_to_set l.*1.
Proof.
  induction l as [|[name p] l IH]; cbn [foldr fmap list_fmap list_to_set fst].
  - by rewrite (right_id_L ∅ (∪)).
  - rewrite dom_insert_L, IH.
    by rewrite (assoc_L (∪)), (comm_L (∪) {[name]} (dom m)), <- (assoc_L (∪)).
Qed.

Lemma dom_adam_state o (gr : gmap string Tensor) (params : list (string * Tensor)) :
  (forall name, name ∈ params.*1 -> is_Some (gr !! name)) ->
  dom (adam_state o gr params) = dom (state o) ∪ list_to_set params.*1.
Proof.
  unfold adam_state. induction params as [|[name p] params IH]; intros Hgr;
    cbn [foldr fmap list_fmap list_to_set fst].
  - by rewrite (right_id_L ∅ (∪)).
  - destruct (Hgr name) as [g Hg]; [cbn; apply elem_of_cons; by left|].
    rewrite Hg, dom_insert_L, IH.
    + by rewrite (assoc_L (∪)), (comm_L (∪) {[name]} (dom (state o))), <- (assoc_L (∪)).
    + intros name' Hin. apply Hgr. cbn. apply elem_of_cons. by right.
Qed.

Lemma named_parameters_step o gr (m : nn.Net) :
  (nn.named_parameters
     {| nn._modules := (fun '(name, l) => (name, update_layer o gr name l)) <$> nn._modules m;
        nn.training := nn.training m |}).*1
  = (nn.named_parameters m).*1.
Proof.
  unfold nn.named_parameters. cbn [nn._modules].
  induction (nn._modules m) as [|[name l] ms IH]; [done|].
  rewrite fmap_cons, !bind_cons, !fmap_app, IH. f_equal.
  by destruct l.
Qed.

(** What a batch that goes through leaves: gradients and optimizer state
    for the parameters of the model, besides those there were. *)
Lemma train_batch_coverage device epoch total batch_ind input_data target_data w n :
  architecture (model w) = LeNet_architecture device ->
  grad_enabled w = true ->
  0 < n -> shape input_data = [n; 1; 28; 28] -> lshape target_data = [n] ->
  let w' := (run handle (train_batch device epoch total batch_ind
                           (input_data, target_data)) w).2 in
  dom (grad w') = dom (grad w) ∪ list_to_set LeNet_parameter_names /\
  dom (state (optimizer w')) = dom (state (optimizer w)) ∪ list_to_set LeNet_parameter_names /\
  (nn.named_parameters (model w')).*1 = LeNet_parameter_names.
Proof.
  intros Harch Hge Hn Hx Ht. cbv zeta. unfold train_batch.
  pose proof (LeNet_named_parameters _ _ Harch) as Hnames.
  erewrite run_call_Ok by reflexivity.
  erewrite run_call_Ok by reflexivity.
  destruct (LeNet_forward_28 (model w) device (to input_data device) n (generator w))
    as (y & Hy & Hs & Hd); [done | done | lia | done |].
  erewrite run_call_Ok; [|cbn [handle]; unfold do_model_call; rewrite Hy, Hge; reflexivity].
  erewrite run_call_Ok.
  2:{ cbn [handle]. unfold do_cross_entropy. rewrite Hs. cbn [lto lshape ldev]. rewrite Ht.
      rewrite decide_False by (intros Hne; by apply Hne).
      rewrite decide_False by (intros Hne; by apply Hne). reflexivity. }
  erewrite run_call_Ok by reflexivity.
  erewrite run_call_Ok by reflexivity.
  erewrite run_call_Ok by reflexivity.
  assert (forall (l : line) (w5 : World),
            let after :=
              (run handle
                 (if decide (batch_ind mod print_every = 0)
                  then _ ← trigger (print l); trigger stdout_flush
                  else Ret tt) w5).2 in
            grad after = grad w5 /\ optimizer after = optimizer w5 /\
            model after = model w5) as Hprint.
  { intros l w5. cbv zeta. case_decide; [|done].
    erewrite run_call_Ok by reflexivity. by rewrite run_trigger. }
  match goal with
  | |- context [run handle (if _ then _ ← trigger (print ?l); _ else _) ?w5] =>
      destruct (Hprint l w5) as (-> & -> & ->)
  end.
  cbn [grad optimizer model state set_optimizer set_model set_inference set_grad].
  match goal with
  | |- context [adam_state _ ?gr' _] =>
      assert (dom gr' = dom (grad w) ∪ list_to_set LeNet_parameter_names) as Hgr';
      [|set (gr := gr') in *]
  end.
  { rewrite (dom_foldr_insert
               (fun name p =>
                  accumulate (((fun t => fill_ t zero) <$> grad w) !! name) p
                    (grad_kernel (nn.named_parameters (model w)) (to input_data device)
                       (lto target_data device) name))).
    by rewrite dom_fmap_L, Hnames. }
  split; [exact Hgr'|]. split.
  - rewrite dom_adam_state, Hnames; [done|].
    intros name Hin. apply elem_of_dom. rewrite Hgr'.
    apply elem_of_union_r, elem_of_list_to_set. by rewrite <- Hnames.
  - by rewrite named_parameters_step.
Qed.

(** X12.  A batch trains every parameter.  A batch of [n >= 1] images of
    [1 x 28 x 28] with [n] labels among the ten classes goes through the
    loop body, and after it, starting from a [LeNet] in a world that holds
    gradients and optimizer state for no other names (as after the setup
    cells, where there are none), the parameters that have a gradient and
    the parameters [optim.Adam] keeps a state for are exactly the eight of
    the model: weight and bias of [conv1], [conv2], [fc1] and [fc2]. *)
Theorem batch_trains_every_parameter device epoch total batch_ind input_data target_data w n :
  architecture (model w) = LeNet_architecture device ->
  grad_enabled w = true ->
  0 < n -> shape input_data = [n; 1; 28; 28] -> lshape target_data = [n] ->
  (forall i, 0 ≤ i < n -> 0 ≤ ldata target_data i < 10) ->
  dom (grad w) ⊆ list_to_set LeNet_parameter_names ->
  dom (state (optimizer w)) ⊆ list_to_set LeNet_parameter_names ->
  let after := run handle (train_batch device epoch total batch_ind
                             (input_data, target_data)) w in
  after.1 = Ok tt /\
  dom (grad after.2) = list_to_set LeNet_parameter_names /\
  dom (state (optimizer after.2)) = list_to_set LeNet_parameter_names /\
  (nn.named_parameters (model after.2)).*1 = LeNet_parameter_names.
Proof.
  intros Harch Hge Hn Hx Ht _ Hgrad Hstate after. subst after.
  destruct (train_batch_coverage device epoch total batch_ind input_data target_data w n
              Harch Hge Hn Hx Ht) as (Hg & Hst & Hnames).
  destruct (train_batch_run device epoch total batch_ind input_data target_data w n
              Harch Hge Hn Hx Ht) as (w' & Hrun & _).
  rewrite Hrun in *. cbn [fst snd] in *.
  split; [done|]. split; [|split; [|done]].
  - rewrite Hg. by apply subseteq_union_1_L.
  - rewrite Hst. by apply subseteq_union_1_L.
Qed.
End coverage.

(** ** Notebook 4: the optimizer through save and load *)

Section optimizer_round_trip.
Import Notebook4.

(** The entries of a state dict by position, and of a loaded state by
    name. *)
Lemma elem_of_by_position {B} (f : nat -> string -> option B) (names : list string)
    (y : B) :
  y ∈ omap (fun '(i, name) => f i name) (imap (fun i name => (i, name)) names)
  <-> exists i name, names !! i = Some name /\ f i name = Some y.
Proof.
  rewrite list_elem_of_omap. split.
  - intros ([i name] & Hin & Hf). apply elem_of_lookup_imap in Hin as (i' & name' & Heq & Hl).
    injection Heq as -> ->. eauto.
  - intros (i & name & Hl & Hf). exists (i, name). split; [|done].
    apply elem_of_lookup_imap. eauto.
Qed.

Lemma lookup_saved_state (st : gmap string AdamState) (names : list string) i s :
  (list_to_map (omap (fun '(i, name) => (fun st => (i, st)) <$> st !! name)
                     (imap (fun i name => (i, name)) names)) : gmap nat AdamState) !! i
    = Some s
  <-> exists name, names !! i = Some name /\ st !! name = Some s.
Proof.
  assert (forall j s',
            (j, s') ∈ omap (fun '(i, name) => (fun st => (i, st)) <$> st !! name)
                           (imap (fun i name => (i, name)) names)
            <-> exists name, names !! j = Some name /\ st !! name = Some s') as Hin.
  { intros j s'.
    rewrite (elem_of_by_position (fun i name => (fun st => (i, st)) <$> st !! name)).
    split.
    - intros (i' & name & Hl & Hf). destruct (st !! name) as [s0|] eqn:Hs; [|done].
      injection Hf as -> ->. eauto.
    - intros (name & Hl & Hs). exists j, name. by rewrite Hs. }
  rewrite <- Hin. split; [apply elem_of_list_to_map_2|].
  intros Hs. apply elem_of_list_to_map_1'; [|done].
  intros s' Hs'. apply Hin in Hs as (name & Hl & Hs). apply Hin in Hs' as (name' & Hl' & Hs').
  congruence.
Qed.

Lemma lookup_loaded_state (saved : gmap nat AdamState) (names : list string) name s :
  NoDup names ->
  (list_to_map (omap (fun '(i, name) => (fun st => (name, st)) <$> saved !! i)
                     (imap (fun i name => (i, name)) names)) : gmap string AdamState) !! name
    = Some s
  <-> exists i, names !! i = Some name /\ saved !! i = Some s.
Proof.
  intros Hnodup.
  assert (forall name' s',
            (name', s') ∈ omap (fun '(i, name) => (fun st => (name, st)) <$> saved !! i)
                               (imap (fun i name => (i, name)) names)
            <-> exists i, names !! i = Some name' /\ saved !! i = Some s') as Hin.
  { intros name' s'.
    rewrite (elem_of_by_position (fun i name => (fun st => (name, st)) <$> saved !! i)).
    split.
    - intros (i & name0 & Hl & Hf). destruct (saved !! i) as [s0|] eqn:Hs; [|done].
      injection Hf as -> ->. eauto.
    - intros (i & Hl & Hs). exists i, name'. by rewrite Hs. }
  rewrite <- Hin. split; [apply elem_of_list_to_map_2|].
  intros Hs. apply elem_of_list_to_map_1'; [|done].
  intros s' Hs'. apply Hin in Hs as (i & Hl & Hs). apply Hin in Hs' as (i' & Hl' & Hs').
  assert (i = i') as <- by (by eapply NoDup_lookup). congruence.
Qed.

Lemma all_params_ext (groups groups' : list ParamGroup) st st' :
  params <$> groups = params <$> groups' ->
  all_params {| param_groups := groups; state := st |}
  = all_params {| param_groups := groups'; state := st' |}.
Proof.
  unfold all_params. cbn [param_groups].
  revert groups'. induction groups as [|g groups IH]; intros [|g' groups'] Heq; try done.
  cbn in *. injection Heq as Hg Heq. rewrite Hg. f_equal. by apply IH.
Qed.

Lemma loaded_groups (groups saved : list ParamGroup) :
  params <$> groups = params <$> saved ->
  zip_with (fun g sg => {| lr := sg.1; params := params g |}) groups
           ((fun g => (lr g, length (params g))) <$> saved)
  = saved.
Proof.
  revert saved. induction groups as [|g groups IH]; intros [|s saved] Heq; try done.
  cbn in *. injection Heq as Hg Heq. rewrite Hg. destruct s. cbn. f_equal. by apply IH.
Qed.

(** Loading into an optimizer over the same parameters what another one
    saved gives that one back. *)
Lemma optimizer_load_saved (saved fresh : Optimizer) :
  params <$> param_groups fresh = params <$> param_groups saved ->
  NoDup (all_params saved) ->
  dom (state saved) ⊆ list_to_set (all_params saved) ->
  optimizer_load_state_dict (optimizer_state_dict saved) fresh = (Ok tt, saved).
Proof.
  intros Hparams Hnodup Hdom. unfold optimizer_load_state_dict.
  cbn [optimizer_state_dict saved_groups saved_state].
  assert (length (param_groups fresh) = length (param_groups saved)) as Hlen.
  { apply (f_equal length) in Hparams. by rewrite !length_fmap in Hparams. }
  rewrite decide_False.
  2:{ intros Hne. apply Hne. by rewrite length_fmap. }
  rewrite decide_False.
  2:{ intros Hne. apply Hne. rewrite <- list_fmap_compose.
      change ((fun g => length (params g)) <$> param_groups fresh)
        with ((length ∘ params) <$> param_groups fresh).
      change (snd ∘ (fun g => (lr g, length (params g))))
        with (length ∘ @params).
      by rewrite !(list_fmap_compose params length), Hparams. }
  f_equal. destruct saved as [groups st], fresh as [groups' st']. cbn [param_groups state] in *.
  rewrite (loaded_groups _ _ Hparams). f_equal.
  rewrite (all_params_ext groups' groups st' st Hparams).
  set (names := all_params {| param_groups := groups; state := st |}) in *.
  apply map_eq. intros name. apply option_eq. intros s.
  rewrite (lookup_loaded_state _ names name s Hnodup). split.
  - intros (i & Hl & Hs). apply lookup_saved_state in Hs as (name' & Hl' & Hs). congruence.
  - intros Hs.
    assert (name ∈ names) as Hin.
    { apply (elem_of_list_to_set (C := gset string)), Hdom, elem_of_dom. by exists s. }
    apply list_elem_of_lookup in Hin as [i Hl].
    exists i. split; [done|]. apply lookup_saved_state. eauto.
Qed.
End optimizer_round_trip.

(** ** Notebook 4: the cells around the two files *)

Section notebook4_cells.
Import Notebook4.

(** Loading replaces elements: names, shapes and devices stay. *)
Lemma load_state_dict_keeps_layout (sd : gmap string Tensor) (self : Model) :
  shape <$> parameters (load_state_dict sd self).2 = shape <$> parameters self /\
  dev <$> parameters (load_state_dict sd self).2 = dev <$> parameters self.
Proof.
  split; apply map_eq; intros key; rewrite !lookup_fmap;
    destruct (lookup_loaded_cases sd self key) as [-> | ->]; try done;
    destruct (parameters self !! key) as [param|]; try done; cbn; f_equal;
    apply load_parameter_layout.
Qed.

Lemma load_cell_frame w :
  let after := load_cell w in
  files after.2 = files w /\
  shape <$> parameters (model after.2) = shape <$> parameters (model w) /\
  dev <$> parameters (model after.2) = dev <$> parameters (model w) /\
  (after.1 ≠ Ok tt -> optimizer after.2 = optimizer w).
Proof.
  cbv zeta. unfold load_cell, load.
  unfold mbind, M_bind, lift, raise, on_model, on_optimizer.
  destruct (files w !! PATH_2) as [[m|d]|]; [done | | done].
  cbn [getitem].
  destruct (d !! "state_dict") as [[n|sd|osd]|]; try done.
  pose proof (load_state_dict_keeps_layout sd (model w)) as [Hs Hd].
  destruct (load_state_dict sd (model w)) as [[[]|e] m']; cbn in Hs, Hd |- *; [|done].
  destruct (d !! "optimizer") as [[n|sd'|osd]|]; try done.
  unfold optimizer_load_state_dict. repeat case_decide; done.
Qed.

(** X13.  What the load cell never does.  Whatever the file holds (no
    file, a whole model, a record without the expected keys, a record that
    does not fit), the cell writes no file, and the model keeps its
    parameter names with their shapes and devices: loading copies elements
    into the parameters where they are.  When the cell raises, the optimizer
    is the one it started with: it is loaded last, in one step. *)
Theorem load_cell_keeps_files_and_layout w :
  let after := load_cell w in
  files after.2 = files w /\
  shape <$> parameters (model after.2) = shape <$> parameters (model w) /\
  dev <$> parameters (model after.2) = dev <$> parameters (model w) /\
  (after.1 ≠ Ok tt -> optimizer after.2 = optimizer w).
Proof. exact (load_cell_frame w). Qed.

(** X14.  A load that fails at the optimizer has already replaced the
    model.  When the record fits the model but its optimizer state has
    parameter groups of other sizes than the optimizer's, the cell raises
    [ValueError]: the optimizer is untouched, and the parameters of the
    model hold the values of the record. *)
Theorem load_cell_stops_at_the_optimizer w record sd osd :
  files w !! PATH_2 = Some (Dict record) ->
  record !! "state_dict" = Some (StateDict sd) ->
  record !! "optimizer" = Some (OptimizerStateDict osd) ->
  shape <$> sd = shape <$> parameters (model w) ->
  (fun g => length (params g)) <$> param_groups (optimizer w) ≠ snd <$> saved_groups osd ->
  let after := load_cell w in
  (exists msg, after.1 = Raise (ValueError msg)) /\
  optimizer after.2 = optimizer w /\
  parameter_values (model after.2) = (fun t => (shape t, data t)) <$> sd.
Proof.
  intros Hfile Hsd Hosd Hfits Hsizes after. subst after.
  rewrite (load_cell_run w record sd osd Hfile Hsd Hosd).
  destruct (load_state_dict_same_architecture {| parameters := sd; names := [] |}
              (model w) Hfits) as [Hok Hvalues].
  change (state_dict {| parameters := sd; names := [] |}) with sd in Hok, Hvalues.
  destruct (load_state_dict sd (model w)) as [r loaded].
  cbn [fst snd] in Hok, Hvalues. subst r.
  unfold optimizer_load_state_dict. case_decide.
  - cbn. split; [by eexists|]. done.
  - rewrite decide_True by done. cbn. split; [by eexists|]. done.
Qed.


Lemma load_parameter_twice (param : Tensor) (entry : option Tensor) :
  load_parameter (load_parameter param entry) entry = load_parameter param entry.
Proof.
  destruct (load_parameter_layout param entry) as [Hs _].
  unfold load_parameter in *. destruct entry as [input_param|]; [|done].
  rewrite (input_param_for_shape param _ input_param Hs).
  destruct (input_param_for param input_param) as [q|]; [|done].
  destruct (decide (shape q = shape param)) as [Hq|Hq].
  - unfold copy_ at 2. cbn [shape]. by rewrite decide_True.
  - by rewrite decide_False.
Qed.

Lemma loads_shape (param param' : Tensor) (entry : option Tensor) :
  shape param' = shape param -> loads param' entry <-> loads param entry.
Proof.
  intros Hs. unfold loads. destruct entry as [input_param|]; [|done].
  rewrite (input_param_for_shape param param' input_param Hs). by rewrite Hs.
Qed.

(** Where the visit of the parameters ends depends on the parameters
    through their shapes only. *)
Lemma visit_shapes (sd ps ps' : gmap string Tensor) (names : list string) :
  shape <$> ps' = shape <$> ps -> visit sd ps' names = visit sd ps names.
Proof.
  intros Heq.
  assert (forall name, stops sd ps' name = stops sd ps name) as Hstops.
  { intros name. unfold stops.
    apply (f_equal (fun m => m !! name)) in Heq. rewrite !lookup_fmap in Heq.
    destruct (ps' !! name) as [param'|], (ps !! name) as [param|]; try done.
    injection Heq as Heq. destruct (sd !! name) as [input_param|]; [|done].
    by rewrite (input_param_for_shape param param' input_param Heq). }
  induction names as [|name names IH]; [done|].
  cbn [visit]. by rewrite Hstops, IH.
Qed.

(** X17.  Loading twice is loading once, and a model's own state changes
    nothing.  Loading a record again into the model the first load left
    (after an error, say) ends the same way and leaves the same model.
    Loading [model.state_dict()] into the model itself returns without
    error and leaves every parameter as it is. *)
Theorem load_state_dict_again (sd : gmap string Tensor) (self : Model) :
  load_state_dict sd (load_state_dict sd self).2 = load_state_dict sd self /\
  load_state_dict (state_dict self) self = (Ok tt, self).
Proof.
  split.
  - destruct (load_state_dict_keeps_layout sd self) as [Hs _].
    pose proof (visit_shapes sd _ _ (names self) Hs) as Hvisit.
    set (loaded := (load_state_dict sd self).2) in *.
    assert (names loaded = names self) as Hnames.
    { subst loaded. unfold load_state_dict.
      destruct (visit sd (parameters self) (names self)) as [visited [e|]]; [done|].
      by case_decide. }
    unfold load_state_dict at 1. rewrite Hnames, Hvisit.
    subst loaded. unfold load_state_dict.
    destruct (visit sd (parameters self) (names self)) as [visited [e|]].
    + cbn [snd parameters names]. do 2 f_equal. apply map_eq. intros key.
      rewrite !map_lookup_imap.
      destruct (parameters self !! key) as [param|]; [|done]. cbn.
      case_decide; [|done]. by rewrite load_parameter_twice.
    + set (ps' := map_imap (fun key param => Some (load_parameter param (sd !! key)))
                           (parameters self)).
      assert (forall key, ps' !! key
                = (fun param => load_parameter param (sd !! key)) <$> parameters self !! key)
        as Hlookup.
      { intros key. subst ps'. rewrite map_lookup_imap.
        by destruct (parameters self !! key). }
      assert (map_imap (fun key param => Some (load_parameter param (sd !! key))) ps' = ps')
        as Htwice.
      { apply map_eq. intros key. rewrite map_lookup_imap, Hlookup.
        destruct (parameters self !! key) as [param|]; [|done]. cbn.
        by rewrite load_parameter_twice. }
      assert ((map_Forall (fun key param => loads param (sd !! key)) ps'
               ∧ dom sd ⊆ dom ps')
              <-> (map_Forall (fun key param => loads param (sd !! key)) (parameters self)
                   ∧ dom sd ⊆ dom (parameters self))) as Hfits.
      { assert (dom ps' = dom (parameters self)) as ->.
        { apply set_eq. intros key. rewrite !elem_of_dom, Hlookup.
          by rewrite fmap_is_Some. }
        split; intros [Hall Hdom]; (split; [|done]); intros key param Hp.
        - specialize (Hall key (load_parameter param (sd !! key))).
          rewrite Hlookup, Hp in Hall. specialize (Hall eq_refl). cbn beta in Hall.
          eapply loads_shape; [|exact Hall]. symmetry. apply load_parameter_layout.
        - rewrite Hlookup in Hp.
          destruct (parameters self !! key) as [param0|] eqn:Hp0; [|done].
          injection Hp as <-. specialize (Hall key param0 Hp0). cbn beta in Hall.
          eapply loads_shape; [|exact Hall]. apply load_parameter_layout. }
      destruct (decide (map_Forall (fun key param => loads param (sd !! key))
                                   (parameters self)
                        ∧ dom sd ⊆ dom (parameters self))) as [Hyes|Hno].
      * cbn [snd parameters names]. fold ps'.
        rewrite decide_True by (by apply Hfits). by rewrite Htwice.
      * cbn [snd parameters names]. fold ps'.
        rewrite decide_False by (by rewrite Hfits). by rewrite Htwice.
  - rewrite load_state_dict_result by (intros name; by apply stops_same_shapes).
    unfold state_dict.
    rewrite decide_True by (by apply fits_same_shapes).
    f_equal. destruct self as [ps ns]. cbn [parameters names].
    f_equal. apply map_eq. intros key. rewrite map_lookup_imap.
    destruct (ps !! key) as [param|] eqn:Hp; [|done]. cbn [mbind option_bind].
    rewrite load_parameter_same_shape by done. by destruct param.
Qed.
End notebook4_cells.

(** ** Notebook 4: the fine-tuning cells *)

Section finetune.
Import Finetune.
Context `{Kernels}.

Lemma module_parameters_for (body : Param -> Param) prefix (m : Module_) :
  module_parameters prefix (on_module body m)
  = (fun '(name, param) => (name, body param)) <$> module_parameters prefix m.
Proof.
  unfold module_parameters, on_module. rewrite <- !list_fmap_compose.
  apply list_fmap_ext. by intros i [name param] _.
Qed.

Lemma sequential_parameters_for (body : Param -> Param) prefix (s : Sequential) :
  sequential_parameters prefix (on_sequential body s)
  = (fun '(name, param) => (name, body param)) <$> sequential_parameters prefix s.
Proof.
  unfold sequential_parameters, on_sequential. induction s as [|[key m] s IH]; [done|].
  rewrite fmap_cons, !bind_cons, fmap_app, IH. f_equal.
  apply module_parameters_for.
Qed.

Lemma length_on_sequential (body : Param -> Param) (s : Sequential) :
  length (on_sequential body s) = length s.
Proof. unfold on_sequential. apply length_fmap. Qed.

Lemma named_parameters_for (body : Param -> Param) (self : AlexNet) :
  named_parameters (for_parameters body self)
  = (fun '(name, param) => (name, body param)) <$> named_parameters self.
Proof.
  unfold named_parameters, for_parameters. cbn [features classifier].
  by rewrite fmap_app, !sequential_parameters_for.
Qed.

Lemma finetune_cell_result (alex_pretrained : AlexNet) g :
  let frozen := fun '(name, param) =>
    (name : string, {| value := value param; requires_grad := false |}) in
  let after := finetune_cell alex_pretrained g in
  match classifier alex_pretrained !! 6%nat with
  | Some (key, _) =>
      after.1.1 = inr tt /\
      exists weight bias,
        named_parameters after.1.2 =
          (frozen <$> sequential_parameters "features" (features alex_pretrained))
          ++ (frozen <$> sequential_parameters "classifier"
                           (take 6 (classifier alex_pretrained)))
          ++ [(("classifier" +:+ "." +:+ key) +:+ "." +:+ "weight", weight);
              (("classifier" +:+ "." +:+ key) +:+ "." +:+ "bias", bias)]
          ++ (frozen <$> sequential_parameters "classifier"
                           (drop 7 (classifier alex_pretrained))) /\
        requires_grad weight = true /\ requires_grad bias = true /\
        shape (value weight) = [1000; 4096] /\ shape (value bias) = [1000]
  | None =>
      after.1.1 = inl (index_out_of_range 6) /\
      named_parameters after.1.2 = frozen <$> named_parameters alex_pretrained
  end.
Proof.
  intros frozen after. subst after. unfold finetune_cell, Linear.
  destruct (reset_parameters_kernel [1000; 4096] [1000] g) as [[w b] g'].
  unfold setitem. cbn [classifier for_parameters]. rewrite !length_on_sequential.
  destruct (classifier alex_pretrained !! 6%nat) as [[key old]|] eqn:Hl.
  - pose proof (lookup_lt_Some _ _ _ Hl) as Hlen.
    rewrite decide_True by lia.
    rewrite Z.mod_small by lia. change (Z.to_nat 6) with 6%nat.
    cbn [fst snd]. split; [reflexivity|].
    exists {| value := mkTensor [1000; 4096] w cpu; requires_grad := true |},
           {| value := mkTensor [1000] b cpu; requires_grad := true |}.
    split; [|done].
    unfold named_parameters at 1. cbn [features classifier for_parameters].
    rewrite sequential_parameters_for. f_equal.
    rewrite <- (take_drop_middle _ _ _ Hl) at 1.
    unfold on_sequential. rewrite fmap_app, fmap_cons.
    rewrite alter_app_r_alt by (rewrite length_fmap, length_take; lia).
    rewrite length_fmap, length_take_le by lia. rewrite Nat.sub_diag.
    cbn [alter list_alter].
    unfold sequential_parameters at 1.
    rewrite bind_app, bind_cons.
    fold (on_sequential (fun param => {| value := value param; requires_grad := false |})
            (take 6 (classifier alex_pretrained))).
    fold (on_sequential (fun param => {| value := value param; requires_grad := false |})
            (drop 7 (classifier alex_pretrained))).
    fold (sequential_parameters "classifier"
            (on_sequential (fun param => {| value := value param; requires_grad := false |})
               (take 6 (classifier alex_pretrained)))).
    fold (sequential_parameters "classifier"
            (on_sequential (fun param => {| value := value param; requires_grad := false |})
               (drop 7 (classifier alex_pretrained)))).
    rewrite !sequential_parameters_for. reflexivity.
  - apply lookup_ge_None in Hl. rewrite decide_False by lia.
    cbn [fst snd]. split; [done|].
    apply (named_parameters_for
             (fun param => {| value := value param; requires_grad := false |})).
Qed.

(** X18.  After the fine-tuning cell only the new layer is trained.  When
    the classifier has a seventh child, the cell returns, the model has the
    parameters it had, under the same names and in the same order, with
    [requires_grad] switched off, except that the two parameters of the
    seventh child of the classifier have given way to the weight
    ([1000 x 4096]) and the bias ([1000]) of the new layer, which have
    [requires_grad] on.  When the classifier has fewer children the
    assignment raises [IndexError], after the loop has switched
    [requires_grad] off everywhere. *)
Theorem finetune_cell_trains_the_new_layer_only (alex_pretrained : AlexNet) g :
  let frozen := fun '(name, param) =>
    (name : string, {| value := value param; requires_grad := false |}) in
  let after := finetune_cell alex_pretrained g in
  match classifier alex_pretrained !! 6%nat with
  | Some (key, _) =>
      after.1.1 = inr tt /\
      exists weight bias,
        named_parameters after.1.2 =
          (frozen <$> sequential_parameters "features" (features alex_pretrained))
          ++ (frozen <$> sequential_parameters "classifier"
                           (take 6 (classifier alex_pretrained)))
          ++ [(("classifier" +:+ "." +:+ key) +:+ "." +:+ "weight", weight);
              (("classifier" +:+ "." +:+ key) +:+ "." +:+ "bias", bias)]
          ++ (frozen <$> sequential_parameters "classifier"
                           (drop 7 (classifier alex_pretrained))) /\
        requires_grad weight = true /\ requires_grad bias = true /\
        shape (value weight) = [1000; 4096] /\ shape (value bias) = [1000]
  | None =>
      after.1.1 = inl (index_out_of_range 6) /\
      named_parameters after.1.2 = frozen <$> named_parameters alex_pretrained
  end.
Proof. exact (finetune_cell_result alex_pretrained g). Qed.

(** X19.  What the cell after it prints.  For a classifier whose seventh
    child has the key [6], as in a [nn.Sequential] built from a list of
    layers: one line per parameter, in the order of [named_parameters()];
    every line ends in [False] except the two of the new layer, which read
    [classifier.6.weight : True] and [classifier.6.bias   : True] (the name
    is filled up to 20 characters). *)
Theorem print_cell_after_finetune (alex_pretrained : AlexNet) g old :
  classifier alex_pretrained !! 6%nat = Some ("6", old) ->
  let not_trained := fun '(name, _) => ljust name 20 +:+ ": False" in
  print_cell (finetune_cell alex_pretrained g).1.2 =
    (not_trained <$> sequential_parameters "features" (features alex_pretrained))
    ++ (not_trained <$> sequential_parameters "classifier"
                          (take 6 (classifier alex_pretrained)))
    ++ ["classifier.6.weight : True"; "classifier.6.bias   : True"]
    ++ (not_trained <$> sequential_parameters "classifier"
                          (drop 7 (classifier alex_pretrained))).
Proof.
  intros Hl not_trained.
  pose proof (finetune_cell_result alex_pretrained g) as Hr. cbv zeta in Hr.
  rewrite Hl in Hr. destruct Hr as (_ & weight & bias & Hnp & Hw & Hb & _).
  unfold print_cell. rewrite Hnp, !fmap_app, <- !list_fmap_compose.
  cbn [fmap list_fmap]. rewrite Hw, Hb.
  f_equal; [|f_equal; [|f_equal]];
    try (apply list_fmap_ext; by intros i [name param] _).
Qed.
End finetune.

(** ** The results at work *)

Lemma training_cell_completes_witness :
  exists w w',
    Notebook3.setup_cells (H := Sample.kernels) cpu 0 = Ok w /\
    run Notebook3.handle
      (Notebook3.training_cell cpu (fun _ => [Sample.a_batch; Sample.a_batch])) w
      = (Ok tt, w') /\
    architecture (Notebook3.model w') = LeNet_architecture cpu /\
    nn.training (Notebook3.model w') = true.
Proof.
  apply (training_cell_completes (H := Sample.kernels)).
  intros epoch input_data target_data Hin. exists 2.
  rewrite !elem_of_cons, elem_of_nil in Hin.
  destruct Hin as [Heq|[Heq|[]]]; injection Heq as -> ->;
    (split; [lia|]; split; [reflexivity|]; split; [reflexivity|]; cbn; lia).
Defined.

Lemma failed_batch_keeps_parameters_witness :
  let after :=
    run (Notebook3.handle (H := Sample.kernels))
      (Notebook3.train_batch cpu 0 1 0 Examples.a_misfit_batch) Sample.a_world in
  Notebook3.model after.2 = Notebook3.model Sample.a_world /\
  Notebook3.optimizer after.2 = Notebook3.optimizer Sample.a_world.
Proof.
  apply (failed_batch_keeps_parameters (H := Sample.kernels) cpu 0 1 0
           Examples.a_misfit_batch Sample.a_world
           (ValueError "Expected input batch_size to match target batch_size")).
  vm_compute. reflexivity.
Defined.

Lemma leftover_gradients_do_not_matter_witness :
  let w := Examples.a_world_with_gradient in
  let w' :=
    Notebook3.set_inference (Notebook3.set_grad w Examples.another_gradient)
      (Notebook3.generator w) None in
  let after := run Notebook3.handle (Notebook3.train_batch cpu 0 1 0 Sample.a_batch) w in
  let after' := run Notebook3.handle (Notebook3.train_batch cpu 0 1 0 Sample.a_batch) w' in
  after'.1 = after.1 /\
  Notebook3.model after'.2 = Notebook3.model after.2 /\
  Notebook3.optimizer after'.2 = Notebook3.optimizer after.2 /\
  (after.1 = Ok tt -> after'.2 = after.2).
Proof.
  apply (leftover_gradients_do_not_matter (H := Sample.kernels) cpu 0 1 0 Sample.a_batch
           Examples.a_world_with_gradient Examples.another_gradient None).
  unfold Examples.another_gradient, Examples.a_world_with_gradient.
  cbn [Notebook3.grad Notebook3.set_grad]. by rewrite !map_fmap_singleton.
Defined.


Lemma batch_trains_every_parameter_witness :
  let after :=
    run (Notebook3.handle (H := Sample.kernels))
      (Notebook3.train_batch cpu 0 1 0 Sample.a_batch) Sample.a_world in
  after.1 = Ok tt /\
  dom (Notebook3.grad after.2) = list_to_set LeNet_parameter_names /\
  dom (Notebook3.state (Notebook3.optimizer after.2)) = list_to_set LeNet_parameter_names /\
  (nn.named_parameters (Notebook3.model after.2)).*1 = LeNet_parameter_names.
Proof.
  apply (batch_trains_every_parameter (H := Sample.kernels) cpu 0 1 0
           (Sample.ones [2; 1; 28; 28] cpu)
           {| lshape := [2]; ldata := fun i => i; ldev := cpu |} Sample.a_world 2).
  - reflexivity.
  - reflexivity.
  - lia.
  - reflexivity.
  - reflexivity.
  - cbn. lia.
  - change (Notebook3.grad Sample.a_world) with (∅ : gmap string Tensor).
    rewrite dom_empty_L. apply empty_subseteq.
  - change (Notebook3.state (Notebook3.optimizer Sample.a_world))
      with (∅ : gmap string AdamState).
    rewrite dom_empty_L. apply empty_subseteq.
Defined.

Lemma load_cell_stops_at_the_optimizer_witness :
  let after := Notebook4.load_cell Examples.a_world_to_load in
  (exists msg, after.1 = Raise (ValueError msg)) /\
  Notebook4.optimizer after.2 = Notebook4.optimizer Examples.a_world_to_load /\
  Notebook4.parameter_values (Notebook4.model after.2)
    = (fun t => (shape t, data t)) <$> Notebook4.parameters Sample.trained_model.
Proof.
  apply (load_cell_stops_at_the_optimizer Examples.a_world_to_load Examples.a_record
           (Notebook4.parameters Sample.trained_model)
           {| Notebook4.saved_groups := [(0x3BA3D70A, 1%nat)];
              Notebook4.saved_state := ∅ |}).
  - apply lookup_singleton_eq.
  - reflexivity.
  - reflexivity.
  - vm_compute. reflexivity.
  - discriminate.
Defined.


Lemma print_cell_after_finetune_witness :
  Finetune.print_cell
    (Finetune.finetune_cell (H := Sample.kernels) Examples.an_AlexNet 0).1.2
  = ["features.0.weight   : False"; "features.0.bias     : False";
     "classifier.1.weight : False"; "classifier.1.bias   : False";
     "classifier.4.weight : False"; "classifier.4.bias   : False";
     "classifier.6.weight : True"; "classifier.6.bias   : True"].
Proof.
  apply (print_cell_after_finetune (H := Sample.kernels) Examples.an_AlexNet 0
           (Examples.a_layer [1000; 4096] [1000])).
  reflexivity.
Defined.

Lemma training_cell_progress_lines_witness :
  lines (Notebook3.handle (H := Sample.kernels))
    (Notebook3.training_cell cpu (fun _ => [Sample.a_batch; Sample.a_batch])) Sample.a_world
  = [Notebook3.train_log 1 1 zero 1 2; Notebook3.train_log 1 1 zero 2 2;
     Notebook3.empty_line].
Proof.
  destruct (training_cell_progress_lines _ (Notebook3.handle (H := Sample.kernels)) cpu
              (fun _ => [Sample.a_batch; Sample.a_batch]) Sample.a_world)
    as (_ & Hcomplete & Hexpected).
  rewrite Hcomplete, Hexpected; [reflexivity|].
  vm_compute. reflexivity.
Defined.

Lemma notebook3_cells_run_witness :
  exists correct w',
    notebook3_cells (H := Sample.kernels) cpu (fun _ => [Sample.a_batch; Sample.a_batch])
      [Sample.a_batch] 2 0 = Ok (correct, w') /\
    architecture (Notebook3.model w') = LeNet_architecture cpu /\
    nn.training (Notebook3.model w') = false /\
    Notebook3.grad_enabled w' = true /\
    last (Notebook3.stdout w') = Some (Notebook3.test_accuracy correct 2).
Proof.
  apply (notebook3_cells_run (H := Sample.kernels)).
  - intros epoch input_data target_data Hin. exists 2.
    rewrite !elem_of_cons, elem_of_nil in Hin.
    destruct Hin as [Heq|[Heq|[]]]; injection Heq as -> ->;
      (split; [lia|]; split; [reflexivity|]; split; [reflexivity|]; cbn; lia).
  - intros input_data target_data Hin. exists 2.
    rewrite !elem_of_cons, elem_of_nil in Hin.
    destruct Hin as [Heq|[]]; injection Heq as -> ->; done.
  - lia.
Defined.
